(** * seitenkraft.org backend: domain suggestion, registrar adapter and
      check/register orchestration

    A shallow embedding of

    - [app/services/domain_suggestion.py] ([DomainSuggestionService]),
    - [app/services/inwx_service.py] ([INWXService]),
    - [app/services/supabase_client.py] ([SupabaseService], the three
      operations the handlers use),
    - [app/api/domains.py] (the handlers [suggest_domains],
      [check_domains] and [register_domain]),
    - [app/core/security_fake.py], [app/core/config.py]
      ([is_production]), [app/api/wizard.py] and [app/api/health.py],

    together with the properties the specification states about them
    and further properties read off the code.

    Conventions of the embedding:

    - a Python [str] is a Rocq [string]; the text pipeline of
      [clean_domain_name] works on its list of characters;
    - a Python [int] is a [Z], a [float] a primitive float, a [dict]
      or a decoded JSON document a [value];
    - a coroutine is a computation in the monad [M] of state and
      exceptions: the state holds the session id of the adapter
      instance and the trace of what was done to the outside (requests
      to the registrar, queries and inserts of the data store); every
      [await] is sequential composition;
    - the registrar, the data store and the third-party functions
      (transliteration, the validation and the messages of pydantic)
      are parameters: what the first two answer may depend on the
      trace so far;
    - [except Exception] catches every exception of the model;
      cancellation of a task is outside it. *)

From Stdlib Require Import List Bool Arith NArith ZArith Lia.
From Stdlib Require Import Ascii String DecimalString.
From Stdlib Require Import Permutation Sorted.
From Stdlib Require Import Floats.PrimFloat.
Import ListNotations.

Local Open Scope string_scope.
Local Open Scope list_scope.

(* ================================================================== *)
(** * Characters and character classes *)
(* ================================================================== *)

Module Chars.

Definition code (c : ascii) : N := N_of_ascii c.

Definition in_range (lo hi : N) (c : ascii) : bool :=
  ((lo <=? code c) && (code c <=? hi))%N.

(** 7-bit characters: what [unidecode] produces. *)
Definition is_ascii7 (c : ascii) : bool := (code c <? 128)%N.

Definition is_lower (c : ascii) : bool := in_range 97 122 c.
Definition is_upper (c : ascii) : bool := in_range 65 90 c.
Definition is_digit (c : ascii) : bool := in_range 48 57 c.
Definition is_hyphen (c : ascii) : bool := (code c =? 45)%N.

(** [\s] of Python's [re] on ASCII text: TAB, LF, VT, FF, CR, the
    separators 0x1c-0x1f and the space. *)
Definition is_space (c : ascii) : bool :=
  in_range 9 13 c || in_range 28 31 c || (code c =? 32)%N.

(** [\w] of Python's [re] on ASCII text. *)
Definition is_word (c : ascii) : bool :=
  is_lower c || is_upper c || is_digit c || (code c =? 95)%N.

(** [str.lower] on one ASCII character. *)
Definition lower_char (c : ascii) : ascii :=
  if is_upper c then ascii_of_N (code c + 32) else c.

Definition hyphen : ascii := "-"%char.

End Chars.

Import Chars.

Definition chars (s : string) : list ascii := list_ascii_of_string s.
Definition text (l : list ascii) : string := string_of_list_ascii l.

(* ================================================================== *)
(** * The normalisation pipeline of [clean_domain_name] *)
(* ================================================================== *)

Module Pipeline.

(** ** [name.lower()] *)
Definition lower (s : list ascii) : list ascii := map lower_char s.

(** ** [re.sub(r'\b(gmbh|ag|kg|ohg|gbr|e\.?v\.?|ug|mbh)\b', '', name,
       flags=re.IGNORECASE)]

    The alternatives in the order in which the backtracking matcher
    tries them; the two greedy optional dots of [e\.?v\.?] are
    written out (dot taken before dot skipped). *)
Definition suffix_alternatives : list string :=
  ["gmbh"; "ag"; "kg"; "ohg"; "gbr";
   "e.v."; "e.v"; "ev."; "ev";
   "ug"; "mbh"].

Definition is_word_opt (c : option ascii) : bool :=
  match c with
  | Some c => is_word c
  | None => false
  end.

(** [\b] between the character before the position and the one at
    it; the outside of the string counts as a non-word character. *)
Definition boundary (prev next : option ascii) : bool :=
  xorb (is_word_opt prev) (is_word_opt next).

(** Matches the literal [w] at the head of [s], ignoring case;
    returns the last character consumed and the rest of the text. *)
Fixpoint match_literal (w : list ascii) (prev : option ascii)
         (s : list ascii) : option (option ascii * list ascii) :=
  match w with
  | [] => Some (prev, s)
  | p :: w' =>
      match s with
      | c :: s' =>
          if Ascii.eqb (lower_char c) p
          then match_literal w' (Some c) s'
          else None
      | [] => None
      end
  end.

(** One alternative followed by the closing [\b]: the length of the
    match. *)
Definition match_alternative (prev : option ascii) (s : list ascii)
           (w : string) : option nat :=
  match match_literal (chars w) prev s with
  | Some (last, rest) =>
      if boundary last (hd_error rest)
      then Some (List.length (chars w))
      else None
  | None => None
  end.

Fixpoint first_match (prev : option ascii) (s : list ascii)
         (ws : list string) : option nat :=
  match ws with
  | [] => None
  | w :: ws' =>
      match match_alternative prev s w with
      | Some n => Some n
      | None => first_match prev s ws'
      end
  end.

(** The whole pattern tried at one position: opening [\b], then the
    alternatives in order. *)
Definition match_suffix (prev : option ascii) (s : list ascii)
  : option nat :=
  if boundary prev (hd_error s)
  then first_match prev s suffix_alternatives
  else None.

(** The left-to-right scan of [re.sub] with the empty replacement.
    [skip] counts the characters of the current match that are still
    to be deleted; [prev] is the character before the position. *)
Fixpoint sub_scan (prev : option ascii) (skip : nat) (s : list ascii)
  : list ascii :=
  match s with
  | [] => []
  | c :: t =>
      match skip with
      | S k => sub_scan (Some c) k t
      | O =>
          match match_suffix prev s with
          | Some (S k) => sub_scan (Some c) k t
          | _ => c :: sub_scan (Some c) O t
          end
      end
  end.

Definition remove_suffixes (s : list ascii) : list ascii :=
  sub_scan None 0 s.

(** ** [re.sub(r'[^a-z0-9\s-]', '', name)] *)
Definition keep_char (c : ascii) : bool :=
  is_lower c || is_digit c || is_space c || is_hyphen c.

Definition strip_special (s : list ascii) : list ascii :=
  filter keep_char s.

(** ** [re.sub(r'[\s-]+', '-', name)]

    [in_run] tells that the previous character belonged to the run
    being replaced. *)
Definition is_sep (c : ascii) : bool := is_space c || is_hyphen c.

Fixpoint collapse_from (in_run : bool) (s : list ascii) : list ascii :=
  match s with
  | [] => []
  | c :: t =>
      if is_sep c
      then if in_run then collapse_from true t
           else hyphen :: collapse_from true t
      else c :: collapse_from false t
  end.

Definition collapse (s : list ascii) : list ascii := collapse_from false s.

(** ** [name.strip('-')] *)
Fixpoint lstrip (s : list ascii) : list ascii :=
  match s with
  | c :: t => if is_hyphen c then lstrip t else s
  | [] => []
  end.

Definition rstrip (s : list ascii) : list ascii := rev (lstrip (rev s)).

Definition strip (s : list ascii) : list ascii := rstrip (lstrip s).

(** Everything after [unidecode]. *)
Definition after_unidecode (s : list ascii) : list ascii :=
  strip (collapse (strip_special (remove_suffixes (lower s)))).

End Pipeline.

(* ================================================================== *)
(** * Tokens: the shape of a normalised name *)
(* ================================================================== *)

Module Token.

Import Pipeline.

(** The characters of a normalised token. *)
Definition allowed (c : ascii) : bool :=
  is_lower c || is_digit c || is_hyphen c.

(** No hyphen is followed by a hyphen. *)
Fixpoint no_double (s : list ascii) : bool :=
  match s with
  | c1 :: t =>
      match t with
      | c2 :: _ => negb (is_hyphen c1 && is_hyphen c2) && no_double t
      | [] => true
      end
  | [] => true
  end.

Definition starts_with_hyphen (s : list ascii) : bool :=
  match s with
  | c :: _ => is_hyphen c
  | [] => false
  end.

Definition ends_with_hyphen (s : list ascii) : bool :=
  starts_with_hyphen (rev s).

(** The shape of every output of the pipeline. *)
Record normal (s : list ascii) : Prop := mkNormal {
  normal_allowed : forallb allowed s = true;
  normal_no_double : no_double s = true;
  normal_start : starts_with_hyphen s = false;
  normal_end : ends_with_hyphen s = false
}.

(** The character before the position reached after reading [a]. *)
Definition last_opt (prev : option ascii) (a : list ascii) : option ascii :=
  fold_left (fun _ c => Some c) a prev.

(** The legal suffixes as they can stand in a token: the
    alternatives without a dot. *)
Definition suffix_words : list string :=
  ["gmbh"; "ag"; "kg"; "ohg"; "gbr"; "ev"; "ug"; "mbh"].

(** The hyphen-separated words of a token. *)
Fixpoint words (s : list ascii) : list (list ascii) :=
  match s with
  | [] => [[]]
  | c :: t =>
      if is_hyphen c then [] :: words t
      else match words t with
           | h :: r => (c :: h) :: r
           | [] => [[c]]
           end
  end.

Definition is_suffix_word (w : list ascii) : bool :=
  existsb (String.eqb (text w)) suffix_words.

Definition has_suffix_word (s : list ascii) : bool :=
  existsb is_suffix_word (words s).

(** A token one of whose words is a legal suffix, as in ["muller-ag"]
    or ["ag"]. *)
Definition has_legal_suffix_word (token : string) : bool :=
  has_suffix_word (chars token).

End Token.

(* ================================================================== *)
(** * Exceptions and outcomes *)
(* ================================================================== *)

(** The exceptions the modelled code raises or lets through; all of
    them are subclasses of Python's [Exception].  [HTTPException] is
    the one of fastapi; [Error] stands for any other exception, with
    the name of its class and its text [str(e)]. *)
Inductive exn : Type :=
| HTTPException (status_code : Z) (detail : string)
| Error (cls : string) (msg : string).

(** The decimal text of an integer. *)
Definition str_int (n : Z) : string :=
  NilZero.string_of_int (Z.to_int n).

(** [str(e)]; for an [HTTPException] the status code, a colon and the
    detail. *)
Definition str_exn (e : exn) : string :=
  match e with
  | HTTPException status_code detail => str_int status_code ++ ": " ++ detail
  | Error _ msg => msg
  end.

Inductive outcome (A : Type) : Type :=
| Ok (a : A)
| Raise (e : exn).

Arguments Ok {A} a.
Arguments Raise {A} e.

(* ================================================================== *)
(** * Schemas ([app/models/schemas.py]) and data-store rows *)
(* ================================================================== *)

(** A row of the table [domains_tld], as far as the code reads it. *)
Module TldRow.
Record t : Type := mk { tld : string; vk_eur : float; prio : Z }.
End TldRow.

Module DomainSuggestion.
Record t : Type := mk {
  domain : string;
  tld : string;
  verfuegbar : option bool;
  preis_eur : float;
  prio : Z;
  empfohlen : bool
}.
End DomainSuggestion.

(* ================================================================== *)
(** * Python list helpers *)
(* ================================================================== *)

Module Py.

(** [l[:n]] for an integer [n], negative [n] counting from the end. *)
Definition slice_to {A} (n : Z) (l : list A) : list A :=
  if (n <? 0)%Z
  then firstn (List.length l - Z.to_nat (- n)) l
  else firstn (Z.to_nat n) l.

(** [len(l) >= n]. *)
Definition len_ge {A} (l : list A) (n : Z) : bool :=
  (n <=? Z.of_nat (List.length l))%Z.

Section Sort.
Context {A K : Type}.
Variable key : A -> K.
Variable lt : K -> K -> bool.

(** [list.sort(key=...)] is stable: an element is placed behind the
    elements whose key is not greater than its own and that came
    before it.  Insertion from the right computes that order. *)
Fixpoint insert (x : A) (l : list A) : list A :=
  match l with
  | [] => [x]
  | y :: t =>
      if lt (key y) (key x) then y :: insert x t else x :: y :: t
  end.

Fixpoint sort (l : list A) : list A :=
  match l with
  | [] => []
  | x :: t => insert x (sort t)
  end.

(** [a] may stand before [b]: the key of [b] is not below that of [a]. *)
Definition ordered (a b : A) : Prop := lt (key b) (key a) = false.
End Sort.

(** [<] on the tuples [(bool, int)], with [False < True]. *)
Definition bool_lt (a b : bool) : bool := negb a && b.

Definition key_lt (k1 k2 : bool * Z) : bool :=
  bool_lt (fst k1) (fst k2)
  || (Bool.eqb (fst k1) (fst k2) && (snd k1 <? snd k2)%Z).

End Py.

(* ================================================================== *)
(** * [DomainSuggestionService] *)
(* ================================================================== *)

Module DomainSuggestionService.

Section Suggestion.

(** The table-driven part of [unidecode.unidecode], the function of
    the third-party package of that name: what it makes of a text
    that has characters outside 7-bit ASCII. *)
Variable transliterate : string -> string.

(** [unidecode(name)]: 7-bit text is returned as it is, other text
    is transliterated. *)
Definition unidecode (name : string) : string :=
  if forallb is_ascii7 (chars name) then name else transliterate name.

(** [SupabaseService.get_tlds_for_country(land, limit)]: the rows the
    data store answers with, or the exception of the client. *)
Variable get_tlds_for_country : string -> Z -> outcome (list TldRow.t).

(** ** [clean_domain_name] *)
Definition clean_domain_name (name : string) : string :=
  let name := unidecode name in
  text (Pipeline.after_unidecode (chars name)).

(** ** [generate_variations] *)

Definition branche_keywords (branche : string) : list string :=
  if branche =? "handwerker" then ["handwerk"; "meister"; "service"]
  else if branche =? "haendler" then ["shop"; "store"; "markt"]
  else if branche =? "dienstleister" then ["service"; "pro"; "experte"]
  else [].

(** The loop [for keyword in keywords]. *)
Fixpoint keyword_variations (base : string) (keywords : list string)
  : list string :=
  match keywords with
  | [] => []
  | keyword :: rest =>
      (base ++ "-" ++ keyword)%string :: (keyword ++ "-" ++ base)%string
        :: keyword_variations base rest
  end.

(** The loop that removes duplicates and keeps the first occurrence. *)
Fixpoint unique_from (seen : list string) (variations : list string)
  : list string :=
  match variations with
  | [] => []
  | v :: rest =>
      if existsb (String.eqb v) seen
      then unique_from seen rest
      else v :: unique_from (v :: seen) rest
  end.

Definition generate_variations (base : string) (branche : option string)
  : list string :=
  let variations := [base] in
  let variations :=
    match branche with
    | Some b =>
        if b =? "" then variations
        else variations ++ keyword_variations base (branche_keywords b)
    | None => variations
    end in
  let variations :=
    variations
      ++ [(base ++ "-online")%string; ("mein-" ++ base)%string;
          (base ++ "-24")%string] in
  unique_from [] variations.

(** ** [generate_suggestions] *)

Definition make_suggestion (clean_base variation : string)
           (tld_data : TldRow.t) : DomainSuggestion.t :=
  DomainSuggestion.mk
    (variation ++ "." ++ TldRow.tld tld_data)%string
    (TldRow.tld tld_data)
    None
    (TldRow.vk_eur tld_data)
    (TldRow.prio tld_data)
    (String.eqb variation clean_base && (90 <=? TldRow.prio tld_data)%Z).

(** The inner loop [for tld_data in tlds], with its [break]. *)
Fixpoint tld_loop (clean_base variation : string) (max_suggestions : Z)
         (tlds : list TldRow.t) (suggestions : list DomainSuggestion.t)
  : list DomainSuggestion.t :=
  match tlds with
  | [] => suggestions
  | tld_data :: rest =>
      if Py.len_ge suggestions max_suggestions then suggestions
      else tld_loop clean_base variation max_suggestions rest
             (suggestions ++ [make_suggestion clean_base variation tld_data])
  end.

(** The outer loop [for variation in variations[:5]], with its
    [break]. *)
Fixpoint variation_loop (clean_base : string) (max_suggestions : Z)
         (tlds : list TldRow.t) (variations : list string)
         (suggestions : list DomainSuggestion.t)
  : list DomainSuggestion.t :=
  match variations with
  | [] => suggestions
  | variation :: rest =>
      let suggestions :=
        tld_loop clean_base variation max_suggestions tlds suggestions in
      if Py.len_ge suggestions max_suggestions then suggestions
      else variation_loop clean_base max_suggestions tlds rest suggestions
  end.

(** [lambda s: (not s.empfohlen, -s.prio)]. *)
Definition sort_key (s : DomainSuggestion.t) : bool * Z :=
  (negb (DomainSuggestion.empfohlen s), (- DomainSuggestion.prio s)%Z).

(** The list built by the two loops, before it is sorted. *)
Definition built_suggestions (clean_base : string) (branche : option string)
           (tlds : list TldRow.t) (max_suggestions : Z)
  : list DomainSuggestion.t :=
  let variations := generate_variations clean_base branche in
  variation_loop clean_base max_suggestions tlds (firstn 5 variations) [].

Definition generate_suggestions (wunschdomain_basis land : string)
           (branche : option string) (max_suggestions : Z)
  : outcome (list DomainSuggestion.t) :=
  let clean_base := clean_domain_name wunschdomain_basis in
  match get_tlds_for_country land 10 with
  | Raise e => Raise e
  | Ok tlds =>
      let suggestions :=
        built_suggestions clean_base branche tlds max_suggestions in
      let suggestions := Py.sort sort_key Py.key_lt suggestions in
      Ok (Py.slice_to max_suggestions suggestions)
  end.

End Suggestion.

End DomainSuggestionService.

Import DomainSuggestionService.

(** ** What the specification says about the result, in the terms of
       the code *)

(** The available combinations: candidate tokens outside, TLDs inside. *)
Definition combinations (clean_base : string) (variations : list string)
           (tlds : list TldRow.t) : list DomainSuggestion.t :=
  flat_map (fun v => map (make_suggestion clean_base v) tlds) variations.

(** [A] may stand before [B] in the ranking. *)
Definition ranked_before (A B : DomainSuggestion.t) : Prop :=
  (DomainSuggestion.empfohlen A = true /\ DomainSuggestion.empfohlen B = false)
  \/ (DomainSuggestion.empfohlen A = DomainSuggestion.empfohlen B
      /\ (DomainSuggestion.prio B <= DomainSuggestion.prio A)%Z).

(** Equal sort keys. *)
Definition key_same (k1 k2 : bool * Z) : bool :=
  Bool.eqb (fst k1) (fst k2) && (snd k1 =? snd k2)%Z.

(** ** Sample data *)

(** A transliteration with empty tables: a character that has no entry
    is dropped. *)
Definition drop_non_ascii (name : string) : string :=
  text (filter is_ascii7 (chars name)).

(** Three TLD rows around the threshold of the recommendation. *)
Definition sample_tlds : list TldRow.t :=
  [TldRow.mk "de" 9.5%float 100; TldRow.mk "com" 12.5%float 90;
   TldRow.mk "net" 12.5%float 89].

Definition sample_get_tlds (land : string) (limit : Z)
  : outcome (list TldRow.t) :=
  Ok sample_tlds.

(** What [generate_suggestions] returns for "Muller GmbH", sector
    "handwerker" and at most five suggestions on [sample_tlds]. *)
Definition sample_suggestions : list DomainSuggestion.t :=
  [DomainSuggestion.mk "muller.de" "de" None 9.5%float 100 true;
   DomainSuggestion.mk "muller.com" "com" None 12.5%float 90 true;
   DomainSuggestion.mk "muller-handwerk.de" "de" None 9.5%float 100 false;
   DomainSuggestion.mk "muller-handwerk.com" "com" None 12.5%float 90 false;
   DomainSuggestion.mk "muller.net" "net" None 12.5%float 89 false].

(* ================================================================== *)
(** * Python values: decoded JSON and [dict] literals *)
(* ================================================================== *)

#[local] Set Warnings "-register-all".
Inductive value : Type :=
| VNone
| VBool (b : bool)
| VInt (n : Z)
| VFloat (f : float)
| VStr (s : string)
| VList (l : list value)
| VDict (items : list (string * value)).
#[local] Set Warnings "register-all".

Module Value.

(** [bool(v)]. *)
Definition truthy (v : value) : bool :=
  match v with
  | VNone => false
  | VBool b => b
  | VInt n => negb (n =? 0)%Z
  | VFloat f => negb (PrimFloat.eqb f 0%float)
  | VStr s => negb (s =? "")
  | VList l => match l with [] => false | _ => true end
  | VDict items => match items with [] => false | _ => true end
  end.

(** [v == n] for an integer literal [n], with [nf] the same number as
    a float: [True == 1] and [1000.0 == 1000] hold in Python. *)
Definition eq_int (v : value) (n : Z) (nf : float) : bool :=
  match v with
  | VInt z => (z =? n)%Z
  | VBool b => ((if b then 1 else 0) =? n)%Z
  | VFloat f => PrimFloat.eqb f nf
  | _ => false
  end.

Fixpoint lookup (k : string) (items : list (string * value))
  : option value :=
  match items with
  | [] => None
  | (k', v) :: rest => if k' =? k then Some v else lookup k rest
  end.

(** [type(v).__name__]. *)
Definition type_name (v : value) : string :=
  match v with
  | VNone => "NoneType"
  | VBool _ => "bool"
  | VInt _ => "int"
  | VFloat _ => "float"
  | VStr _ => "str"
  | VList _ => "list"
  | VDict _ => "dict"
  end.

(** The exception of [v.get] on a value without that method. *)
Definition attribute_error (v : value) : exn :=
  Error "AttributeError"
    ("'" ++ type_name v ++ "' object has no attribute 'get'").

(** [d.get(k, default)]; only a [dict] has the method. *)
Definition get (d : value) (k : string) (default : value) : outcome value :=
  match d with
  | VDict items =>
      match lookup k items with
      | Some v => Ok v
      | None => Ok default
      end
  | _ => Raise (attribute_error d)
  end.

Definition is_str (s : string) (v : value) : bool :=
  match v with
  | VStr s' => s' =? s
  | _ => false
  end.

Definition is_substring (needle s : string) : bool :=
  match String.index 0 needle s with
  | Some _ => true
  | None => false
  end.

(** [k in v] for a string [k]: key of a dict, element of a list,
    substring of a string; other values are not containers. *)
Definition contains (k : string) (v : value) : outcome bool :=
  match v with
  | VDict items =>
      Ok (match lookup k items with Some _ => true | None => false end)
  | VList l => Ok (existsb (is_str k) l)
  | VStr s => Ok (is_substring k s)
  | _ => Raise (Error "TypeError" "argument is not iterable")
  end.

(** [v[k]] for a string [k]. *)
Definition index (v : value) (k : string) : outcome value :=
  match v with
  | VDict items =>
      match lookup k items with
      | Some x => Ok x
      | None => Raise (Error "KeyError" k)
      end
  | VNone | VBool _ | VInt _ | VFloat _ =>
      Raise (Error "TypeError" "object is not subscriptable")
  | VStr _ | VList _ =>
      Raise (Error "TypeError" "indices must be integers")
  end.

End Value.

(* ================================================================== *)
(** * The outside world and the state monad of the handlers *)
(* ================================================================== *)

(** A row of the table [kunden]; the handlers only test that there
    is one. *)
Module KundeRow.
Record t : Type := mk { id : string; name : string }.
End KundeRow.

(** The dict [registrierung_data] built by the registration handler. *)
Module RegistrierungData.
Record t : Type := mk {
  id : string;
  kunden_id : string;
  wunschdomain : string;
  tld : string;
  vollstaendige_domain : string;
  vk_preis_eur : float;
  status : string;
  inwx_request_payload : value;
  inwx_response_payload : value
}.
End RegistrierungData.

(** The schema [DomainRegistrierung]: a validated row of the table
    [domain_registrierung]; a UUID and a point in time are held as
    their texts. *)
Module DomainRegistrierung.
Record t : Type := mk {
  id : string;
  kunden_id : string;
  status : string;
  wunschdomain : string;
  tld : string;
  vollstaendige_domain : string;
  vk_preis_eur : float;
  inwx_request_payload : option value;
  inwx_response_payload : option value;
  erstellt_am : string;
  aktualisiert_am : string
}.
End DomainRegistrierung.

(** What the process does to the outside, in order: a JSON-RPC request
    posted to the registrar, a query
    [table(t).select(...).eq(column, val).execute()] of the data store,
    an insert into the table [domain_registrierung]. *)
Inductive event : Type :=
| EvPost (payload : value)
| EvSelect (table column val : string)
| EvInsert (row : RegistrierungData.t).

(** The outside world: every answer may depend on what happened
    before.

    - [post]: [client.post], [raise_for_status] and [response.json()]
      of [_call_api]: the decoded body, or the exception of the
      transport (connection, time-out, HTTP status, a body that is not
      JSON);
    - [select_kunden], [select_tld]: the rows of a query by id or by
      TLD name, or the exception of the client;
    - [insert_registrierung]: the rows the data store returns for an
      insert, as the decoded JSON they are;
    - [uuid4]: the identifier drawn for a new record;
    - [py_str]: [str(v)] of Python, used by the f-strings;
    - [inwx_username], [inwx_password]: the settings of the adapter;
    - [as_domain_registrierung]: the model [DomainRegistrierung]
      built by pydantic from the keys of a row, or the exception
      raised (a missing or ill-typed field, a row that is no mapping);
    - [lax_bool]: what pydantic makes of a value that is no [bool]
      for a field of type [bool], if it accepts it;
    - [validation_text]: [str(e)] of the [ValidationError] pydantic
      raises for a model, given the fields it refused with their
      inputs, in the order of the fields. *)
Record env : Type := mkEnv {
  post : list event -> value -> outcome value;
  select_kunden : list event -> string -> outcome (list KundeRow.t);
  select_tld : list event -> string -> outcome (list TldRow.t);
  insert_registrierung :
    list event -> RegistrierungData.t -> outcome (list value);
  uuid4 : list event -> string;
  py_str : value -> string;
  inwx_username : string;
  inwx_password : string;
  as_domain_registrierung : value -> outcome DomainRegistrierung.t;
  lax_bool : value -> option bool;
  validation_text : string -> list (string * value) -> string
}.

(** The state a handler runs in: the session id of the [INWXService]
    instance at hand and the trace of external effects. *)
Record state : Type := mkState {
  session_id : value;
  trace : list event
}.

Definition M (A : Type) : Type := state -> outcome A * state.

Module Monad.

Definition ret {A} (a : A) : M A := fun s => (Ok a, s).

Definition raise {A} (e : exn) : M A := fun s => (Raise e, s).

Definition bind {A B} (m : M A) (k : A -> M B) : M B :=
  fun s =>
    match m s with
    | (Ok a, s') => k a s'
    | (Raise e, s') => (Raise e, s')
    end.

(** A pure computation that may raise. *)
Definition lift {A} (o : outcome A) : M A := fun s => (o, s).

(** [try: m  except Exception as e: handler(e)]. *)
Definition try_except {A} (m : M A) (handler : exn -> M A) : M A :=
  fun s =>
    match m s with
    | (Ok a, s') => (Ok a, s')
    | (Raise e, s') => handler e s'
    end.

(** [try: m  finally: f]: an exception of [f] replaces the outcome
    of [m]. *)
Definition try_finally {A} (m : M A) (f : M unit) : M A :=
  fun s =>
    match m s with
    | (r, s') =>
        match f s' with
        | (Ok _, s'') => (r, s'')
        | (Raise e, s'') => (Raise e, s'')
        end
    end.

Definition get_session_id : M value := fun s => (Ok (session_id s), s).

Definition set_session_id (v : value) : M unit :=
  fun s => (Ok tt, mkState v (trace s)).

Definition emit (ev : event) : M unit :=
  fun s => (Ok tt, mkState (session_id s) (trace s ++ [ev])).

Definition get_trace : M (list event) := fun s => (Ok (trace s), s).

End Monad.

Import Monad.

Declare Scope monad_scope.
Delimit Scope monad_scope with monad.
Notation "x <- m ;; k" := (bind m (fun x => k))
  (at level 100, m at next level, right associativity) : monad_scope.
Notation "m ;; k" := (bind m (fun _ => k))
  (at level 100, right associativity) : monad_scope.
Local Open Scope monad_scope.

(* ================================================================== *)
(** * [INWXService] *)
(* ================================================================== *)

Module INWXService.

Section INWX.

Variable E : env.

(** ** [_call_api] *)

Definition rpc_payload (method : string) (params : value) : value :=
  VDict [("jsonrpc", VStr "2.0");
         ("method", VStr method);
         ("params", if Value.truthy params then params else VDict []);
         ("id", VInt 1)].

Definition _call_api (method : string) (params : value) : M value :=
  let payload := rpc_payload method params in
  history <- get_trace ;;
  emit (EvPost payload) ;;
  data <- lift (post E history payload) ;;
  has_error <- lift (Value.contains "error" data) ;;
  if has_error : bool then
    err <- lift (Value.index data "error") ;;
    raise (Error "ValueError" ("INWX API Error: " ++ py_str E err))
  else
    lift (Value.get data "result" (VDict [])).

(** ** [login] *)

Definition login : M value :=
  result <- _call_api "account.login"
              (VDict [("user", VStr (inwx_username E));
                      ("pass", VStr (inwx_password E))]) ;;
  code <- lift (Value.get result "code" VNone) ;;
  if negb (Value.eq_int code 1000 1000%float) then
    msg <- lift (Value.get result "msg" VNone) ;;
    raise (Error "ValueError" ("INWX login failed: " ++ py_str E msg))
  else
    res_data <- lift (Value.get result "resData" (VDict [])) ;;
    sessid <- lift (Value.get res_data "sessid" VNone) ;;
    set_session_id sessid ;;
    ret sessid.

(** ** [logout] *)

Definition logout : M unit :=
  sid <- get_session_id ;;
  if Value.truthy sid then
    try_finally
      (_call_api "account.logout" VNone ;; ret tt)
      (set_session_id VNone)
  else ret tt.

(** ** [check_domain] *)

Definition error_result (domain : string) (err : value) : value :=
  VDict [("domain", VStr domain);
         ("avail", VBool false);
         ("status", VStr "error");
         ("error", err)].

Definition check_result (domain : string) (avail : bool) (price : value)
  : value :=
  VDict [("domain", VStr domain);
         ("avail", VBool avail);
         ("status", VStr (if avail then "available" else "registered"));
         ("price", price)].

(** The body of the [try] block. *)
Definition check_domain_try (domain : string) : M value :=
  result <- _call_api "domain.check" (VDict [("domain", VStr domain)]) ;;
  code <- lift (Value.get result "code" VNone) ;;
  if negb (Value.eq_int code 1000 1000%float) then
    msg <- lift (Value.get result "msg" VNone) ;;
    ret (error_result domain msg)
  else
    res_data <- lift (Value.get result "resData" (VDict [])) ;;
    a <- lift (Value.get res_data "avail" (VInt 0)) ;;
    let avail := Value.eq_int a 1 1%float in
    price <- lift (Value.get res_data "price" VNone) ;;
    ret (check_result domain avail price).

Definition check_domain (domain : string) : M value :=
  sid <- get_session_id ;;
  (if negb (Value.truthy sid) then (login ;; ret tt) else ret tt) ;;
  try_except (check_domain_try domain)
    (fun e => ret (error_result domain (VStr (str_exn e)))).

(** ** [check_domains_batch] *)

Fixpoint check_domains_batch_loop (domains : list string)
         (results : list value) : M (list value) :=
  match domains with
  | [] => ret results
  | domain :: rest =>
      result <- check_domain domain ;;
      check_domains_batch_loop rest (results ++ [result])
  end.

Definition check_domains_batch (domains : list string) : M (list value) :=
  check_domains_batch_loop domains [].

(** ** [register_domain]: the fake registration of the POC *)

Definition register_domain (domain : string) (customer_data : value)
  : M value :=
  ret (VDict [("success", VBool true);
              ("domain", VStr domain);
              ("status", VStr "pending");
              ("message", VStr "POC: Fake domain registration successful");
              ("registration_id", VStr ("fake-reg-" ++ domain))]).

(** ** [INWXService()], [__aenter__], [__aexit__] and [async with] *)

(** A new instance has no session. *)
Definition new_service : M unit := set_session_id VNone.

Definition aenter : M unit := login ;; ret tt.

Definition aexit : M unit := logout.

(** [async with INWXService() as inwx: body].  When [__aenter__]
    raises, neither the body nor [__aexit__] runs.  Otherwise
    [__aexit__] runs after the body, whatever its outcome; it returns
    [None], so an exception of the body is raised again, unless
    [__aexit__] itself raises. *)
Definition with_service {A} (body : M A) : M A :=
  new_service ;;
  aenter ;;
  try_finally body aexit.

End INWX.

End INWXService.

Import INWXService.

(* ================================================================== *)
(** * String helpers of the handlers *)
(* ================================================================== *)

Module Str.

Definition dot : ascii := "."%char.

(** ["." in s]. *)
Definition contains_dot (s : string) : bool :=
  existsb (Ascii.eqb dot) (chars s).

(** [s.rsplit(".", 1)] on characters: the text before the last dot
    and the text after it, when there is a dot. *)
Fixpoint rsplit_chars (s : list ascii) : option (list ascii * list ascii) :=
  match s with
  | [] => None
  | c :: t =>
      match rsplit_chars t with
      | Some (a, b) => Some (c :: a, b)
      | None => if Ascii.eqb dot c then Some ([], t) else None
      end
  end.

(** [s.rsplit(".", 1)]: one part when [s] has no dot, else two. *)
Definition rsplit_dot (s : string) : list string :=
  match rsplit_chars (chars s) with
  | Some (a, b) => [text a; text b]
  | None => [s]
  end.

(** [s.split(".")] on characters. *)
Fixpoint split_chars (s : list ascii) : list (list ascii) :=
  match s with
  | [] => [[]]
  | c :: t =>
      if Ascii.eqb dot c then [] :: split_chars t
      else match split_chars t with
           | h :: r => (c :: h) :: r
           | [] => [[c]]
           end
  end.

(** [s.split(".")[-1]]. *)
Definition last_label (s : string) : string :=
  text (last (split_chars (chars s)) []).

(** [parts[i]]. *)
Definition item (parts : list string) (i : nat) : outcome string :=
  match nth_error parts i with
  | Some p => Ok p
  | None => Raise (Error "IndexError" "list index out of range")
  end.

End Str.

(* ================================================================== *)
(** * [SupabaseService] *)
(* ================================================================== *)

Module SupabaseService.

Section Supabase.

Variable E : env.

(** [response.data[0] if response.data else None]. *)
Definition first_row {A} (data : list A) : option A := hd_error data.

Definition get_kunde_by_id (kunden_id : string) : M (option KundeRow.t) :=
  history <- get_trace ;;
  emit (EvSelect "kunden" "id" kunden_id) ;;
  data <- lift (select_kunden E history kunden_id) ;;
  ret (first_row data).

Definition get_tld_by_name (tld : string) : M (option TldRow.t) :=
  history <- get_trace ;;
  emit (EvSelect "domains_tld" "tld" tld) ;;
  data <- lift (select_tld E history tld) ;;
  ret (first_row data).

(** [response.data[0]] after the insert. *)
Definition create_domain_registrierung (registrierung_data : RegistrierungData.t)
  : M value :=
  history <- get_trace ;;
  emit (EvInsert registrierung_data) ;;
  data <- lift (insert_registrierung E history registrierung_data) ;;
  match data with
  | row :: _ => ret row
  | [] => raise (Error "IndexError" "list index out of range")
  end.

End Supabase.

End SupabaseService.

Import SupabaseService.

(* ================================================================== *)
(** * The handlers of [app/api/domains.py] *)
(* ================================================================== *)

Module DomainCheckResult.
Record t : Type := mk {
  domain : string;
  verfuegbar : bool;
  preis_eur : option float;
  fehler : option string
}.
End DomainCheckResult.

Module DomainRegisterResponse.
Record t : Type := mk {
  success : bool;
  registrierung : option DomainRegistrierung.t;
  fehler : option string
}.
End DomainRegisterResponse.

(** The validation pydantic applies when a model is built.  A field
    of type [bool] takes a [bool] as it is and other values by the lax
    conversion of the library; a field of type [Optional[str]] takes
    [None] and a string, and refuses every other decoded JSON value.
    The fields that refuse their input are reported together, in one
    [ValidationError]. *)
Module Pydantic.

Section Validation.

Variable E : env.

(** a field of type [bool] *)
Definition as_bool (v : value) : option bool :=
  match v with
  | VBool b => Some b
  | _ => lax_bool E v
  end.

(** a field of type [Optional[str]] *)
Definition as_optional_str (v : value) : option (option string) :=
  match v with
  | VNone => Some None
  | VStr s => Some (Some s)
  | _ => None
  end.

(** The entry of a field in the report: none when it took its
    input. *)
Definition refused {A} (field : string) (input : value) (r : option A)
  : list (string * value) :=
  match r with
  | Some _ => []
  | None => [(field, input)]
  end.

Definition validation_error (model : string) (errors : list (string * value))
  : exn :=
  Error "ValidationError" (validation_text E model errors).

(** [DomainCheckResult(domain=..., verfuegbar=..., preis_eur=...,
    fehler=...)]; the domain is a string and the price a float or
    [None] by their types. *)
Definition new_DomainCheckResult (domain : string) (verfuegbar : value)
           (preis_eur : option float) (fehler : value)
  : outcome DomainCheckResult.t :=
  match as_bool verfuegbar, as_optional_str fehler with
  | Some b, Some f => Ok (DomainCheckResult.mk domain b preis_eur f)
  | rb, rf =>
      Raise (validation_error "DomainCheckResult"
               (refused "verfuegbar" verfuegbar rb
                  ++ refused "fehler" fehler rf))
  end.

(** [DomainRegisterResponse(success=..., registrierung=..., fehler=...)]
    with a model for [registrierung]. *)
Definition new_DomainRegisterResponse (success : value)
           (registrierung : DomainRegistrierung.t) (fehler : value)
  : outcome DomainRegisterResponse.t :=
  match as_bool success, as_optional_str fehler with
  | Some b, Some f =>
      Ok (DomainRegisterResponse.mk b (Some registrierung) f)
  | rb, rf =>
      Raise (validation_error "DomainRegisterResponse"
               (refused "success" success rb ++ refused "fehler" fehler rf))
  end.

End Validation.

End Pydantic.

Module DomainsApi.

Section Handlers.

Variable E : env.

(** ** [check_domains] *)

(** The body of the [try] block for one domain. *)
Definition check_domains_try (domain : string) : M DomainCheckResult.t :=
  inwx_result <- check_domain E domain ;;
  let tld := Str.last_label domain in
  tld_data <- get_tld_by_name E tld ;;
  avail <- lift (Value.get inwx_result "avail" (VBool false)) ;;
  err <- lift (Value.get inwx_result "error" VNone) ;;
  lift (Pydantic.new_DomainCheckResult E domain avail
          (option_map TldRow.vk_eur tld_data) err).

(** One turn of the loop: the [try] with its [except Exception]. *)
Definition check_domains_item (domain : string) : M DomainCheckResult.t :=
  try_except (check_domains_try domain)
    (fun e => ret (DomainCheckResult.mk domain false None
                     (Some (str_exn e)))).

(** [for domain in request.domains]. *)
Fixpoint check_domains_loop (domains : list string)
         (results : list DomainCheckResult.t)
  : M (list DomainCheckResult.t) :=
  match domains with
  | [] => ret results
  | domain :: rest =>
      result <- check_domains_item domain ;;
      check_domains_loop rest (results ++ [result])
  end.

Definition check_domains (domains : list string)
  : M (list DomainCheckResult.t) :=
  with_service E (check_domains_loop domains []).

(** ** [register_domain] *)

Definition HTTP_404_NOT_FOUND : Z := 404.
Definition HTTP_400_BAD_REQUEST : Z := 400.

(** ["registered" if inwx_result.get("success") else "failed"]. *)
Definition registration_status (inwx_result : value) : outcome string :=
  match Value.get inwx_result "success" VNone with
  | Ok v => Ok (if Value.truthy v then "registered" else "failed")
  | Raise e => Raise e
  end.

(** The handler, for the [register_domain] of the adapter object the
    scope hands out. *)
Definition register_domain_with (register : string -> value -> M value)
           (kunden_id domain : string)
  : M DomainRegisterResponse.t :=
  kunde <- get_kunde_by_id E kunden_id ;;
  match kunde with
  | None =>
      raise (HTTPException HTTP_404_NOT_FOUND
               ("Customer " ++ kunden_id ++ " not found"))
  | Some _ =>
      if negb (Str.contains_dot domain) then
        raise (HTTPException HTTP_400_BAD_REQUEST "Invalid domain format")
      else
        let parts := Str.rsplit_dot domain in
        wunschdomain <- lift (Str.item parts 0) ;;
        tld <- lift (Str.item parts 1) ;;
        tld_data <- get_tld_by_name E tld ;;
        match tld_data with
        | None =>
            raise (HTTPException HTTP_400_BAD_REQUEST
                     ("TLD '" ++ tld ++ "' not supported"))
        | Some tld_data =>
            inwx_result <-
              with_service E (register domain (VDict [])) ;;
            history <- get_trace ;;
            status <- lift (registration_status inwx_result) ;;
            let registrierung_data :=
              RegistrierungData.mk
                (uuid4 E history)
                kunden_id
                wunschdomain
                tld
                domain
                (TldRow.vk_eur tld_data)
                status
                (VDict [("domain", VStr domain)])
                inwx_result in
            registrierung <-
              create_domain_registrierung E registrierung_data ;;
            ok <- lift (Value.get inwx_result "success" (VBool false)) ;;
            model <- lift (as_domain_registrierung E registrierung) ;;
            err <- lift (Value.get inwx_result "error" VNone) ;;
            lift (Pydantic.new_DomainRegisterResponse E ok model err)
        end
  end.

(** The handler of the program: the adapter is [INWXService]. *)
Definition register_domain (kunden_id domain : string)
  : M DomainRegisterResponse.t :=
  register_domain_with INWXService.register_domain kunden_id domain.

End Handlers.

End DomainsApi.

Import DomainsApi.

(** ** [suggest_domains] *)

Module DomainSuggestionRequest.
Record t : Type := mk {
  wunschdomain_basis : string;
  land : string;
  branche : option string;
  max_suggestions : Z
}.
End DomainSuggestionRequest.

Module DomainSuggestionResponse.
Record t : Type := mk {
  suggestions : list DomainSuggestion.t;
  wunschdomain_basis : string
}.
End DomainSuggestionResponse.

(** The handler of [/domains/suggest]; [transliterate] and
    [get_tlds_for_country] are the parameters of the suggestion
    service. *)
Definition suggest_domains (transliterate : string -> string)
           (get_tlds_for_country : string -> Z -> outcome (list TldRow.t))
           (request : DomainSuggestionRequest.t)
  : outcome DomainSuggestionResponse.t :=
  match generate_suggestions transliterate get_tlds_for_country
          (DomainSuggestionRequest.wunschdomain_basis request)
          (DomainSuggestionRequest.land request)
          (DomainSuggestionRequest.branche request)
          (DomainSuggestionRequest.max_suggestions request) with
  | Ok suggestions =>
      Ok (DomainSuggestionResponse.mk suggestions
            (DomainSuggestionRequest.wunschdomain_basis request))
  | Raise e => Raise e
  end.

(** [Field(10, ge=1, le=50)] of the request schema. *)
Definition max_suggestions_in_range (request : DomainSuggestionRequest.t)
  : Prop :=
  (1 <= DomainSuggestionRequest.max_suggestions request <= 50)%Z.

(* ================================================================== *)
(** * [app/core/config.py], [app/core/security_fake.py],
      [app/api/health.py] and [app/api/wizard.py] *)
(* ================================================================== *)

Module Settings.

Record t : Type := mk {
  debug : bool;
  log_level : string;
  supabase_url : string;
  supabase_key : string;
  supabase_db_password : option string;
  inwx_api_url : string;
  inwx_username : string;
  inwx_password : string;
  fake_auth_token : string;
  cors_origins : list string
}.

(** The property [is_production]. *)
Definition is_production (self : t) : bool :=
  Value.is_substring "api.inwx.com" (inwx_api_url self).

End Settings.

Module SecurityFake.

Definition HTTP_401_UNAUTHORIZED : Z := 401.

(** [verify_fake_token]; the header [WWW-Authenticate] that the
    exception carries is no part of the exceptions of the model. *)
Definition verify_fake_token (settings : Settings.t) (x_client_token : string)
  : outcome string :=
  if negb (x_client_token =? Settings.fake_auth_token settings)
  then Raise (HTTPException HTTP_401_UNAUTHORIZED
                "Invalid authentication token")
  else Ok x_client_token.

Definition token_mapping : list (string * string) :=
  [("token_handelshelfer_dev_123", "handelshelfer");
   ("token_handwerker24_dev_456", "handwerker24");
   ("dev-token-123", "handelshelfer")].

(** [mapping.get(key, default)] on a dict of strings. *)
Fixpoint dict_get (key : string) (mapping : list (string * string))
         (default : string) : string :=
  match mapping with
  | [] => default
  | (k, v) :: rest => if k =? key then v else dict_get key rest default
  end.

Definition get_saas_dienst_from_token (token : string) : string :=
  dict_get token token_mapping "handelshelfer".

End SecurityFake.

Module HealthResponse.
Record t : Type := mk {
  status : string;
  version : string;
  environment : string
}.
End HealthResponse.

(** [health_check], on the settings [get_settings()] returns. *)
Definition health_check (settings : Settings.t) : HealthResponse.t :=
  HealthResponse.mk "ok" "0.1.0-poc"
    (if Settings.is_production settings then "production" else "development").

(** A row of the table [saas_dienste]. *)
Module SaaSDienstRow.
Record t : Type := mk {
  id : string;
  dienst_key : string;
  name : string;
  aktiv : bool
}.
End SaaSDienstRow.

Module WizardStartResponse.
Record t : Type := mk {
  kunde : KundeRow.t;
  saas_dienst : SaaSDienstRow.t
}.
End WizardStartResponse.

(** What the wizard takes from the outside.  Each query is made at
    most once in a request, so its answer is a function of its
    arguments.

    - [select_saas_dienste]: the rows of [saas_dienste] with a
      [dienst_key];
    - [select_kunden_of_dienst]: the rows of [kunden] with an [id]
      and a [saas_dienst_id];
    - [uuid_text]: [str(UUID(text))] of Python's [uuid], which raises
      on a text that is no UUID;
    - [as_kunde], [as_saas_dienst]: the validation of a row by the
      schemas [Kunde] and [SaaSDienst], which returns the model or
      raises. *)
Record tenant_store : Type := mkTenantStore {
  select_saas_dienste : string -> outcome (list SaaSDienstRow.t);
  select_kunden_of_dienst : string -> string -> outcome (list KundeRow.t);
  uuid_text : string -> outcome string;
  as_kunde : KundeRow.t -> outcome KundeRow.t;
  as_saas_dienst : SaaSDienstRow.t -> outcome SaaSDienstRow.t
}.

Module Wizard.

Section WithStore.

Variable store : tenant_store.

(** [SupabaseService.get_saas_dienst_by_key]. *)
Definition get_saas_dienst_by_key (dienst_key : string)
  : outcome (option SaaSDienstRow.t) :=
  match select_saas_dienste store dienst_key with
  | Ok data => Ok (first_row data)
  | Raise e => Raise e
  end.

(** [SupabaseService.get_kunde_by_id_and_dienst]. *)
Definition get_kunde_by_id_and_dienst (kunden_id saas_dienst_id : string)
  : outcome (option KundeRow.t) :=
  match select_kunden_of_dienst store kunden_id saas_dienst_id with
  | Ok data => Ok (first_row data)
  | Raise e => Raise e
  end.

Definition HTTP_500_INTERNAL_SERVER_ERROR : Z := 500.

(** The body of [wizard_start]; [kundenguid] is the text of the UUID
    of the path. *)
Definition wizard_start (kundenguid token : string)
  : outcome WizardStartResponse.t :=
  let dienst_key := SecurityFake.get_saas_dienst_from_token token in
  match get_saas_dienst_by_key dienst_key with
  | Raise e => Raise e
  | Ok None =>
      Raise (HTTPException HTTP_500_INTERNAL_SERVER_ERROR
               ("SaaS dienst '" ++ dienst_key ++ "' not found in database"))
  | Ok (Some saas_dienst_data) =>
      match uuid_text store (SaaSDienstRow.id saas_dienst_data) with
      | Raise e => Raise e
      | Ok saas_dienst_id =>
          match get_kunde_by_id_and_dienst kundenguid saas_dienst_id with
          | Raise e => Raise e
          | Ok None =>
              Raise (HTTPException HTTP_404_NOT_FOUND
                       ("Customer " ++ kundenguid ++ " not found for dienst "
                        ++ dienst_key))
          | Ok (Some kunde_data) =>
              match as_kunde store kunde_data with
              | Raise e => Raise e
              | Ok kunde =>
                  match as_saas_dienst store saas_dienst_data with
                  | Raise e => Raise e
                  | Ok saas_dienst =>
                      Ok (WizardStartResponse.mk kunde saas_dienst)
                  end
              end
          end
      end
  end.

(** The route: [token = Depends(verify_fake_token)] runs first, the
    body only with the token it returns. *)
Definition wizard_start_route (settings : Settings.t)
           (x_client_token kundenguid : string)
  : outcome WizardStartResponse.t :=
  match SecurityFake.verify_fake_token settings x_client_token with
  | Raise e => Raise e
  | Ok token => wizard_start kundenguid token
  end.

End WithStore.

End Wizard.

(* ================================================================== *)
(** * Notions used by the properties *)
(* ================================================================== *)

(** The request [account.logout] as [_call_api] posts it. *)
Definition logout_request : value := rpc_payload "account.logout" VNone.

(** The request [account.login] with the credentials of the settings. *)
Definition login_request (E : env) : value :=
  rpc_payload "account.login"
    (VDict [("user", VStr (inwx_username E));
            ("pass", VStr (inwx_password E))]).

(** A decoded JSON document that is an object. *)
Definition is_dict (v : value) : bool :=
  match v with
  | VDict _ => true
  | _ => false
  end.

(** The request [domain.check] for one domain. *)
Definition check_request (domain : string) : value :=
  rpc_payload "domain.check" (VDict [("domain", VStr domain)]).

(** The state after one request has been posted. *)
Definition posted (s : state) (payload : value) : state :=
  mkState (session_id s) (trace s ++ [EvPost payload]).

(** The state after one query of the data store. *)
Definition selected (s : state) (table column val : string) : state :=
  mkState (session_id s) (trace s ++ [EvSelect table column val]).

(** [check_domain] has a session to work with in [s1]: the one it
    finds in [s], or the one its own login obtains. *)
Definition session_ready (E : env) (s s1 : state) : Prop :=
  (Value.truthy (session_id s) = true /\ s1 = s)
  \/ (Value.truthy (session_id s) = false
      /\ exists sid, login E s = (Ok sid, s1)).

(** The state in which [async with INWXService()] logs in: a new
    instance, the trace as it is. *)
Definition fresh (s : state) : state := mkState VNone (trace s).

(** The result the [except] branch of [check_domains] appends. *)
Definition failed_check (domain : string) (e : exn) : DomainCheckResult.t :=
  DomainCheckResult.mk domain false None (Some (str_exn e)).

Definition is_insert (ev : event) : bool :=
  match ev with
  | EvInsert _ => true
  | _ => false
  end.

(** The records persisted in the course of a trace. *)
Definition inserts (tr : list event) : list event := filter is_insert tr.

(** The lower-case form of a text. *)
Definition lowercase (s : string) : string := text (Pipeline.lower (chars s)).

(** [needle] occurs in [s]. *)
Definition occurs_in (needle s : string) : Prop :=
  exists pre post : string, s = (pre ++ needle ++ post)%string.

(** What one turn of the loop of [check_domains] does with a session
    at hand: the check at the registrar, then the query for the TLD. *)
Definition check_events (domains : list string) : list event :=
  flat_map (fun d => [EvPost (check_request d);
                      EvSelect "domains_tld" "tld" (Str.last_label d)])
    domains.


(* ================================================================== *)
(** * Sample worlds *)
(* ================================================================== *)

Module Sample.

Definition field (k : string) (v : value) : value :=
  match Value.get v k VNone with
  | Ok x => x
  | Raise _ => VNone
  end.

Definition reply (result : value) : outcome value :=
  Ok (VDict [("jsonrpc", VStr "2.0"); ("result", result)]).

Definition login_ok : outcome value :=
  reply (VDict [("code", VInt 1000); ("msg", VStr "Command completed successfully");
                ("resData", VDict [("sessid", VStr "s-1")])]).

Definition done : outcome value :=
  reply (VDict [("code", VInt 1000); ("msg", VStr "Command completed successfully")]).

Definition connect_error : exn :=
  Error "ConnectError" "All connection attempts failed".

(** A registrar that knows [free.de] as free and answers every other
    check with the code 2303. *)
Definition registrar (history : list event) (payload : value) : outcome value :=
  match field "method" payload with
  | VStr "account.login" => login_ok
  | VStr "domain.check" =>
      match field "domain" (field "params" payload) with
      | VStr "free.de" =>
          reply (VDict [("code", VInt 1000);
                        ("resData", VDict [("avail", VInt 1);
                                           ("price", VFloat 10%float)])])
      | _ =>
          reply (VDict [("code", VInt 2303);
                        ("msg", VStr "Object does not exist")])
      end
  | _ => done
  end.

(** The same registrar, the connection lost when the logout is sent. *)
Definition registrar_lost_at_logout (history : list event) (payload : value)
  : outcome value :=
  match field "method" payload with
  | VStr "account.logout" => Raise connect_error
  | _ => registrar history payload
  end.

Definition unreachable (history : list event) (payload : value)
  : outcome value :=
  Raise connect_error.

(** The identifier of a second customer, and the one drawn for a new
    record. *)
Definition kunde_uuid : string := "0b9d7c52-6f3e-4a1b-9c8d-2e4f6a8b0c1d".
Definition new_uuid : string := "6f1c2d9e-3b4a-4c5d-8e7f-0a1b2c3d4e5f".

Definition kunden (history : list event) (kunden_id : string)
  : outcome (list KundeRow.t) :=
  if kunden_id =? "k-1" then Ok [KundeRow.mk "k-1" "Schreinerei Muller"]
  else if kunden_id =? kunde_uuid
       then Ok [KundeRow.mk kunde_uuid "Tischlerei Beck"]
       else Ok [].

Definition tlds (history : list event) (tld : string)
  : outcome (list TldRow.t) :=
  if tld =? "de" then Ok [TldRow.mk "de" 9.5%float 100] else Ok [].

(** The point in time the data store stamps its rows with. *)
Definition now : string := "2025-01-15T10:30:00+00:00".

(** The data store answers an insert with the row as it stored it:
    the columns sent and the two time stamps. *)
Definition stored_row (row : RegistrierungData.t) : value :=
  VDict [("id", VStr (RegistrierungData.id row));
         ("kunden_id", VStr (RegistrierungData.kunden_id row));
         ("wunschdomain", VStr (RegistrierungData.wunschdomain row));
         ("tld", VStr (RegistrierungData.tld row));
         ("vollstaendige_domain",
          VStr (RegistrierungData.vollstaendige_domain row));
         ("vk_preis_eur", VFloat (RegistrierungData.vk_preis_eur row));
         ("status", VStr (RegistrierungData.status row));
         ("inwx_request_payload", RegistrierungData.inwx_request_payload row);
         ("inwx_response_payload",
          RegistrierungData.inwx_response_payload row);
         ("erstellt_am", VStr now);
         ("aktualisiert_am", VStr now)].

Definition stored (history : list event) (row : RegistrierungData.t)
  : outcome (list value) :=
  Ok [stored_row row].

(** The same data store, its answer without the time stamps. *)
Definition stored_bare (history : list event) (row : RegistrierungData.t)
  : outcome (list value) :=
  Ok [VDict [("id", VStr (RegistrierungData.id row))]].

Definition text_of (k : string) (row : value) : option string :=
  match field k row with
  | VStr x => Some x
  | _ => None
  end.

Definition float_of (k : string) (row : value) : option float :=
  match field k row with
  | VFloat x => Some x
  | _ => None
  end.

Definition dict_of (k : string) (row : value) : option value :=
  match field k row with
  | VDict items => Some (VDict items)
  | _ => None
  end.

Definition missing : exn := Error "ValidationError" "DomainRegistrierung".

(** A validation that asks for the required columns of the schema. *)
Definition as_registrierung (row : value) : outcome DomainRegistrierung.t :=
  match text_of "id" row, text_of "kunden_id" row, text_of "status" row with
  | Some i, Some k, Some st =>
      match text_of "wunschdomain" row, text_of "tld" row,
            text_of "vollstaendige_domain" row with
      | Some w, Some t, Some d =>
          match float_of "vk_preis_eur" row, text_of "erstellt_am" row,
                text_of "aktualisiert_am" row with
          | Some p, Some c, Some u =>
              Ok (DomainRegistrierung.mk i k st w t d p
                    (dict_of "inwx_request_payload" row)
                    (dict_of "inwx_response_payload" row) c u)
          | _, _, _ => Raise missing
          end
      | _, _, _ => Raise missing
      end
  | _, _, _ => Raise missing
  end.

Definition lax (v : value) : option bool :=
  match v with
  | VInt 0 => Some false
  | VInt 1 => Some true
  | _ => None
  end.

Definition report (model : string) (errors : list (string * value))
  : string :=
  "validation error for " ++ model.

(** An adapter whose register operation reports a failure. *)
Definition refusing (domain : string) (customer_data : value) : M value :=
  Monad.ret (VDict [("success", VBool false);
                    ("error", VStr "Domain not available")]).

(** [str(v)] on the values the samples meet: a string as it is and
    [None]. *)
Definition render (v : value) : string :=
  match v with
  | VStr s => s
  | VNone => "None"
  | _ => ""
  end.

Definition world (registrar : list event -> value -> outcome value) : env :=
  mkEnv registrar kunden tlds stored (fun _ => new_uuid) render
    "user" "secret" as_registrierung lax report.

(** The same world on a data store that answers an insert without the
    time stamps. *)
Definition world_bare : env :=
  mkEnv registrar kunden tlds stored_bare (fun _ => new_uuid) render
    "user" "secret" as_registrierung lax report.

(** The same world, the query for the customer failing. *)
Definition world_no_kunden : env :=
  mkEnv registrar (fun _ _ => Raise (Error "RuntimeError" "boom")) tlds
    stored (fun _ => new_uuid) render "user" "secret" as_registrierung lax
    report.

Definition start : state := mkState VNone [].

Definition boom : exn := Error "RuntimeError" "boom".

Definition settings : Settings.t :=
  Settings.mk false "INFO" "https://db.example" "key" None
    "https://api.ote.inwx.com/jsonrpc/" "user" "secret" "dev-token-123"
    ["http://localhost:3000"; "http://localhost:5173";
     "http://localhost:8080"].

Definition handelshelfer : SaaSDienstRow.t :=
  SaaSDienstRow.mk "11111111-1111-1111-1111-111111111111" "handelshelfer"
    "Handelshelfer" true.

(** A data store with the one tenant and its one customer. *)
Definition tenants : tenant_store :=
  mkTenantStore
    (fun dienst_key =>
       if dienst_key =? "handelshelfer" then Ok [handelshelfer] else Ok [])
    (fun kunden_id saas_dienst_id =>
       if (kunden_id =? "k-1")
          && (saas_dienst_id =? "11111111-1111-1111-1111-111111111111")
       then Ok [KundeRow.mk "k-1" "Schreinerei Muller"] else Ok [])
    (fun t => Ok t)
    (fun row => Ok row)
    (fun row => Ok row).

End Sample.

(* ================================================================== *)
(** * Properties of the normalisation pipeline *)
(* ================================================================== *)

Module PipelineFacts.

Import Pipeline Token.

Ltac classes :=
  unfold allowed, keep_char, is_sep, is_word, is_space, is_lower, is_upper,
    is_digit, is_hyphen, is_ascii7, in_range in *.

Ltac char_arith :=
  classes;
  repeat match goal with
    | H : _ = false |- _ => apply not_true_iff_false in H
    | |- _ = false => apply not_true_iff_false; intro
    end;
  rewrite ?orb_true_iff, ?andb_true_iff, ?N.leb_le, ?N.eqb_eq, ?N.ltb_lt in *;
  lia.

Lemma is_hyphen_eq c : is_hyphen c = true -> c = hyphen.
Proof.
  unfold is_hyphen, code. intros H. apply N.eqb_eq in H.
  rewrite <- (ascii_N_embedding c), H. reflexivity.
Qed.

Lemma allowed_not_upper c : allowed c = true -> is_upper c = false.
Proof. intros. char_arith. Qed.

Lemma allowed_keep c : allowed c = true -> keep_char c = true.
Proof. intros. char_arith. Qed.

Lemma allowed_sep c : allowed c = true -> is_sep c = is_hyphen c.
Proof.
  intros H. destruct (is_hyphen c) eqn:Hh.
  - unfold is_sep. rewrite Hh. apply orb_true_r.
  - char_arith.
Qed.

Lemma allowed_ascii7 c : allowed c = true -> is_ascii7 c = true.
Proof. intros. char_arith. Qed.

Lemma keep_not_sep_allowed c :
  keep_char c = true -> is_sep c = false -> allowed c = true.
Proof. intros. char_arith. Qed.

Lemma not_sep_not_hyphen c : is_sep c = false -> is_hyphen c = false.
Proof. intros. char_arith. Qed.

Lemma allowed_hyphen : allowed hyphen = true.
Proof. reflexivity. Qed.

(** ** The steps keep or establish the shape *)

Lemma strip_special_keep s : forallb keep_char (strip_special s) = true.
Proof.
  unfold strip_special. induction s as [|c t IH]; simpl; auto.
  destruct (keep_char c) eqn:Hc; simpl; auto. now rewrite Hc.
Qed.

Lemma collapse_from_allowed b s :
  forallb keep_char s = true ->
  forallb allowed (collapse_from b s) = true.
Proof.
  revert b. induction s as [|c t IH]; intros b H; simpl in *; auto.
  apply andb_true_iff in H as [Hc Ht].
  destruct (is_sep c) eqn:Hs.
  - destruct b; [now apply IH|].
    change (allowed hyphen && forallb allowed (collapse_from true t) = true).
    rewrite (IH true Ht). reflexivity.
  - simpl. rewrite (keep_not_sep_allowed c Hc Hs). now apply IH.
Qed.

Lemma collapse_from_start s :
  starts_with_hyphen (collapse_from true s) = false.
Proof.
  induction s as [|c t IH]; simpl; auto.
  destruct (is_sep c) eqn:Hs; auto.
  simpl. now apply not_sep_not_hyphen.
Qed.

Lemma no_double_cons c s :
  no_double (c :: s) = negb (is_hyphen c && starts_with_hyphen s) && no_double s.
Proof.
  destruct s as [|c2 t]; simpl; auto.
  now rewrite andb_false_r.
Qed.

Lemma collapse_from_no_double b s : no_double (collapse_from b s) = true.
Proof.
  revert b. induction s as [|c t IH]; intros b; simpl; auto.
  destruct (is_sep c) eqn:Hs.
  - destruct b; auto.
    rewrite no_double_cons, collapse_from_start, andb_false_r. simpl. apply IH.
  - rewrite no_double_cons, (not_sep_not_hyphen c Hs). simpl. apply IH.
Qed.

(** [lstrip] returns a suffix, [rstrip] a prefix. *)
Lemma lstrip_suffix s : exists h, s = h ++ lstrip s.
Proof.
  induction s as [|c t [h IH]]; simpl.
  - now exists [].
  - destruct (is_hyphen c).
    + exists (c :: h). simpl. now rewrite <- IH.
    + now exists [].
Qed.

Lemma rstrip_prefix s : exists h, s = rstrip s ++ h.
Proof.
  unfold rstrip. destruct (lstrip_suffix (rev s)) as [h Hh].
  exists (rev h). rewrite <- rev_app_distr, <- Hh. now rewrite rev_involutive.
Qed.

Lemma lstrip_start s : starts_with_hyphen (lstrip s) = false.
Proof.
  induction s as [|c t IH]; simpl; auto.
  destruct (is_hyphen c) eqn:Hc; auto.
Qed.

Lemma rstrip_end s : ends_with_hyphen (rstrip s) = false.
Proof.
  unfold ends_with_hyphen, rstrip. rewrite rev_involutive. apply lstrip_start.
Qed.

Lemma starts_prefix a b :
  starts_with_hyphen (a ++ b) = false -> starts_with_hyphen a = false.
Proof. destruct a; simpl; auto. Qed.

Lemma forallb_app_l {A} (f : A -> bool) a b :
  forallb f (a ++ b) = true -> forallb f a = true.
Proof. rewrite forallb_app. intros H. now apply andb_true_iff in H. Qed.

Lemma forallb_app_r {A} (f : A -> bool) a b :
  forallb f (a ++ b) = true -> forallb f b = true.
Proof. rewrite forallb_app. intros H. now apply andb_true_iff in H. Qed.

Lemma no_double_app_r a b : no_double (a ++ b) = true -> no_double b = true.
Proof.
  induction a as [|c t IH]; simpl; auto.
  intros H. apply IH.
  destruct (t ++ b) eqn:Heq; [now destruct t, b|].
  now apply andb_true_iff in H.
Qed.

Lemma no_double_app_l a b : no_double (a ++ b) = true -> no_double a = true.
Proof.
  induction a as [|c t IH]; auto.
  change ((c :: t) ++ b) with (c :: (t ++ b)).
  rewrite !no_double_cons. intros H.
  apply andb_true_iff in H as [H1 H2]. rewrite (IH H2), andb_true_r.
  destruct (is_hyphen c); auto. simpl in *.
  destruct t; simpl in *; auto.
Qed.

Lemma strip_normal s :
  forallb allowed s = true -> no_double s = true -> normal (strip s).
Proof.
  intros Ha Hd. unfold strip.
  destruct (lstrip_suffix s) as [h Hh].
  destruct (rstrip_prefix (lstrip s)) as [k Hk].
  assert (Ha' : forallb allowed (lstrip s) = true)
    by (rewrite Hh in Ha; eapply forallb_app_r; eauto).
  assert (Hd' : no_double (lstrip s) = true)
    by (rewrite Hh in Hd; eapply no_double_app_r; eauto).
  split.
  - rewrite Hk in Ha'. eapply forallb_app_l; eauto.
  - rewrite Hk in Hd'. eapply no_double_app_l; eauto.
  - apply (starts_prefix _ k). rewrite <- Hk. apply lstrip_start.
  - apply rstrip_end.
Qed.

(** Every output of the pipeline has the shape. *)
Lemma after_unidecode_normal s : normal (after_unidecode s).
Proof.
  unfold after_unidecode. apply strip_normal.
  - apply collapse_from_allowed, strip_special_keep.
  - apply collapse_from_no_double.
Qed.

(** ** The steps leave a normal token alone, the suffix step apart *)

Lemma lower_allowed s : forallb allowed s = true -> lower s = s.
Proof.
  unfold lower. induction s as [|c t IH]; simpl; auto.
  intros H. apply andb_true_iff in H as [Hc Ht].
  rewrite (IH Ht). unfold lower_char.
  rewrite (allowed_not_upper c Hc). reflexivity.
Qed.

Lemma strip_special_allowed s :
  forallb allowed s = true -> strip_special s = s.
Proof.
  unfold strip_special. induction s as [|c t IH]; simpl; auto.
  intros H. apply andb_true_iff in H as [Hc Ht].
  rewrite (allowed_keep c Hc), (IH Ht). reflexivity.
Qed.

Lemma collapse_from_normal b s :
  forallb allowed s = true -> no_double s = true ->
  b && starts_with_hyphen s = false ->
  collapse_from b s = s.
Proof.
  revert b. induction s as [|c t IH]; intros b Ha Hd Hb; auto.
  rewrite no_double_cons in Hd. simpl in *.
  apply andb_true_iff in Ha as [Hc Ht].
  apply andb_true_iff in Hd as [Hd1 Hd2].
  rewrite (allowed_sep c Hc).
  destruct (is_hyphen c) eqn:Hh.
  - rewrite andb_true_r in Hb. subst b.
    pose proof (is_hyphen_eq c Hh) as Hc'. simpl. rewrite Hc' at 1. f_equal.
    apply IH; auto. simpl in Hd1. now apply negb_true_iff in Hd1.
  - f_equal. apply IH; auto.
Qed.

Lemma lstrip_id s : starts_with_hyphen s = false -> lstrip s = s.
Proof. destruct s as [|c t]; simpl; auto. now intros ->. Qed.

Lemma strip_id s :
  starts_with_hyphen s = false -> ends_with_hyphen s = false -> strip s = s.
Proof.
  intros H1 H2. unfold strip, rstrip. rewrite (lstrip_id s H1).
  rewrite (lstrip_id (rev s) H2). apply rev_involutive.
Qed.

Lemma after_unidecode_fixed s :
  normal s -> remove_suffixes s = s -> after_unidecode s = s.
Proof.
  intros [Ha Hd Hs He] Hr. unfold after_unidecode.
  rewrite (lower_allowed s Ha), Hr, (strip_special_allowed s Ha).
  unfold collapse. rewrite (collapse_from_normal false s Ha Hd eq_refl).
  now apply strip_id.
Qed.

(** ** No step makes the text longer *)

Lemma sub_scan_length prev skip s :
  List.length (sub_scan prev skip s) <= List.length s.
Proof.
  revert prev skip. induction s as [|c t IH]; intros prev skip; simpl; auto.
  destruct skip as [|k].
  - destruct (match_suffix prev (c :: t)) as [[|k]|]; simpl.
    + apply le_n_S, IH.
    + apply Nat.le_le_succ_r, IH.
    + apply le_n_S, IH.
  - apply Nat.le_le_succ_r, IH.
Qed.

Lemma strip_special_length s :
  List.length (strip_special s) <= List.length s.
Proof. apply filter_length_le. Qed.

Lemma collapse_from_length b s :
  List.length (collapse_from b s) <= List.length s.
Proof.
  revert b. induction s as [|c t IH]; intros b; simpl; auto.
  destruct (is_sep c); [destruct b|]; simpl;
    auto using le_n_S, Nat.le_le_succ_r.
Qed.

Lemma lstrip_length s : List.length (lstrip s) <= List.length s.
Proof.
  destruct (lstrip_suffix s) as [h Hh]. rewrite Hh at 2.
  rewrite length_app. lia.
Qed.

Lemma strip_length s : List.length (strip s) <= List.length s.
Proof.
  unfold strip, rstrip. rewrite length_rev.
  etransitivity; [apply lstrip_length|]. rewrite length_rev.
  apply lstrip_length.
Qed.

Lemma after_unidecode_length s :
  List.length (after_unidecode s) <= List.length (remove_suffixes (lower s)).
Proof.
  unfold after_unidecode.
  etransitivity; [apply strip_length|].
  etransitivity; [apply collapse_from_length|].
  apply strip_special_length.
Qed.

(** ** Where the suffix pattern matches in a token *)

Lemma last_opt_snoc prev a c : last_opt prev (a ++ [c]) = Some c.
Proof. unfold last_opt. now rewrite fold_left_app. Qed.

Lemma last_opt_nonempty p q a : a <> [] -> last_opt p a = last_opt q a.
Proof. destruct a as [|c t]; [congruence|]. reflexivity. Qed.

Lemma match_literal_sound w : forall prev s l rest,
  match_literal w prev s = Some (l, rest) ->
  exists m, s = m ++ rest /\ map lower_char m = w /\ l = last_opt prev m.
Proof.
  induction w as [|p w IH]; intros prev s l rest H; simpl in H.
  - injection H as <- <-. now exists [].
  - destruct s as [|c s']; [discriminate|].
    destruct (Ascii.eqb (lower_char c) p) eqn:Hc; [|discriminate].
    apply Ascii.eqb_eq in Hc.
    destruct (IH _ _ _ _ H) as (m & -> & Hm & ->).
    exists (c :: m). simpl. now rewrite Hc, Hm.
Qed.

Lemma first_match_some prev s ws n :
  first_match prev s ws = Some n ->
  exists w, In w ws /\ match_alternative prev s w = Some n.
Proof.
  induction ws as [|w ws IH]; simpl; [discriminate|].
  destruct (match_alternative prev s w) as [k|] eqn:Hw.
  - intros [= <-]. exists w. auto.
  - intros H. destruct (IH H) as (w' & Hin & Hm). exists w'. auto.
Qed.

Lemma allowed_nonword_hyphen c :
  allowed c = true -> is_word c = false -> is_hyphen c = true.
Proof.
  intros Ha Hw. destruct (is_hyphen c) eqn:Hh; auto. char_arith.
Qed.

Lemma nonword_head r :
  forallb allowed r = true -> is_word_opt (hd_error r) = false ->
  r = [] \/ starts_with_hyphen r = true.
Proof.
  destruct r as [|c t]; simpl; auto.
  intros Ha Hw. apply andb_true_iff in Ha as [Hc _].
  right. now apply allowed_nonword_hyphen.
Qed.

(** A match in a token is a whole suffix word: nothing but the start
    of the token or a hyphen before it, nothing but the end or a
    hyphen behind it. *)
Lemma match_suffix_word prev b n :
  forallb allowed b = true ->
  match_suffix prev b = Some n ->
  exists w r, In w suffix_words /\ b = chars w ++ r
              /\ is_word_opt prev = false
              /\ (r = [] \/ starts_with_hyphen r = true).
Proof.
  intros Ha H. unfold match_suffix in H.
  destruct (boundary prev (hd_error b)) eqn:Hb; [|discriminate].
  apply first_match_some in H as (w & Hin & Hm).
  unfold match_alternative in Hm.
  destruct (match_literal (chars w) prev b) as [[l rest]|] eqn:Hl;
    [|discriminate].
  destruct (boundary l (hd_error rest)) eqn:Hb2; [|discriminate].
  apply match_literal_sound in Hl as (m & -> & Hm' & ->).
  pose proof (forallb_app_l _ _ _ Ha) as Ham.
  pose proof (forallb_app_r _ _ _ Ha) as Har.
  change (map lower_char m) with (lower m) in Hm'.
  rewrite (lower_allowed m Ham) in Hm'. subst m.
  exists w, rest.
  unfold suffix_alternatives in Hin. simpl in Hin.
  repeat (destruct Hin as [<-|Hin]);
    try contradiction; try discriminate Ham;
    (split; [simpl; tauto|]); (split; [reflexivity|]);
    cbn in Hb, Hb2; unfold boundary in Hb, Hb2; cbn in Hb, Hb2;
    (split; [now destruct (is_word_opt prev)|]);
    apply nonword_head; auto;
    now destruct (is_word_opt (hd_error rest)).
Qed.

(** The other way round: at a suffix word the pattern matches. *)
Lemma suffix_word_matches prev w r :
  In w suffix_words -> is_word_opt prev = false ->
  r = [] \/ starts_with_hyphen r = true ->
  exists k, match_suffix prev (chars w ++ r) = Some (S k).
Proof.
  intros Hin Hp Hr.
  assert (Hr' : r = [] \/ exists r', r = hyphen :: r').
  { destruct Hr as [->|Hr]; auto. right.
    destruct r as [|c r']; [discriminate|].
    exists r'. now rewrite (is_hyphen_eq c Hr). }
  unfold match_suffix, boundary, suffix_words in *. simpl in Hin.
  repeat (destruct Hin as [<-|Hin]); try contradiction;
    cbn [chars list_ascii_of_string app hd_error is_word_opt];
    rewrite Hp;
    (destruct Hr' as [->|[r' ->]]; cbn; eexists; reflexivity).
Qed.

(** ** The scan over a text *)

Lemma sub_scan_fixed s : forall prev,
  (forall a b, s = a ++ b -> b <> [] ->
               match_suffix (last_opt prev a) b = None) ->
  sub_scan prev 0 s = s.
Proof.
  induction s as [|c t IH]; intros prev H; simpl; auto.
  assert (H0 : match_suffix prev (c :: t) = None)
    by (apply (H [] (c :: t) eq_refl); discriminate).
  rewrite H0. f_equal. apply IH. intros a b -> Hb.
  apply (H (c :: a) b eq_refl Hb).
Qed.

Lemma sub_scan_shrinks s : forall prev a b k,
  s = a ++ b ->
  match_suffix (last_opt prev a) b = Some (S k) ->
  List.length (sub_scan prev 0 s) < List.length s.
Proof.
  induction s as [|c t IH]; intros prev a b k Hs Hm.
  - destruct a, b; try discriminate.
    unfold match_suffix in Hm. cbn in Hm.
    destruct (boundary prev None); discriminate Hm.
  - simpl.
    destruct (match_suffix prev (c :: t)) as [[|k']|] eqn:Hhead.
    + destruct a as [|x a]; simpl in Hs.
      * subst b. simpl in Hm. congruence.
      * injection Hs as <- ->. simpl. apply -> Nat.succ_lt_mono.
        eapply IH; eauto.
    + apply Nat.lt_succ_r, sub_scan_length.
    + destruct a as [|x a]; simpl in Hs.
      * subst b. simpl in Hm. congruence.
      * injection Hs as <- ->. simpl. apply -> Nat.succ_lt_mono.
        eapply IH; eauto.
Qed.

(** ** The hyphen-separated words of a token *)

Lemma words_nonempty s : words s <> [].
Proof.
  destruct s as [|c t]; simpl; [discriminate|].
  destruct (is_hyphen c); [discriminate|].
  destruct (words t); discriminate.
Qed.

Lemma words_app_hyphen a c b :
  is_hyphen c = true -> words (a ++ c :: b) = words a ++ words b.
Proof.
  intros Hc. induction a as [|x a IH]; simpl.
  - now rewrite Hc.
  - rewrite IH. destruct (is_hyphen x); auto.
    pose proof (words_nonempty a). destruct (words a); [congruence|].
    reflexivity.
Qed.

Lemma words_single w :
  forallb (fun c => negb (is_hyphen c)) w = true -> words w = [w].
Proof.
  induction w as [|c t IH]; simpl; auto.
  intros H. apply andb_true_iff in H as [Hc Ht].
  apply negb_true_iff in Hc. rewrite Hc, (IH Ht). reflexivity.
Qed.

Lemma words_head_app w r :
  forallb (fun c => negb (is_hyphen c)) w = true ->
  r = [] \/ starts_with_hyphen r = true ->
  exists ws, words (w ++ r) = w :: ws.
Proof.
  intros Hw [->|Hr].
  - rewrite app_nil_r, (words_single w Hw). now exists [].
  - destruct r as [|c r']; [discriminate|]. simpl in Hr.
    rewrite (words_app_hyphen w c r' Hr), (words_single w Hw).
    now exists (words r').
Qed.

(** A word that stands between the start or a hyphen and the end or
    a hyphen is one of the words. *)
Lemma in_words a w r :
  forallb allowed a = true ->
  is_word_opt (last_opt None a) = false ->
  forallb (fun c => negb (is_hyphen c)) w = true ->
  r = [] \/ starts_with_hyphen r = true ->
  In w (words (a ++ w ++ r)).
Proof.
  intros Ha Hp Hw Hr.
  destruct (words_head_app w r Hw Hr) as [ws Hws].
  destruct a as [|x a0].
  - simpl. rewrite Hws. now left.
  - destruct (@exists_last _ (x :: a0)) as (a' & c & Heq); [discriminate|].
    rewrite Heq in *. clear Heq x a0.
    rewrite last_opt_snoc in Hp. simpl in Hp.
    pose proof (forallb_app_r _ _ _ Ha) as Hc. simpl in Hc.
    rewrite andb_true_r in Hc.
    pose proof (allowed_nonword_hyphen c Hc Hp) as Hh.
    rewrite <- app_assoc. simpl.
    rewrite (words_app_hyphen a' c (w ++ r) Hh), Hws.
    apply in_or_app. right. now left.
Qed.

Lemma hyphen_not_word c : is_hyphen c = true -> is_word c = false.
Proof. intros. char_arith. Qed.

(** Each of the words stands between the start or a hyphen and the
    end or a hyphen.  The first word and the later ones are treated
    together, the first one being a prefix. *)
Lemma words_places s :
  (forall h ws, words s = h :: ws ->
     exists r, s = h ++ r /\ (r = [] \/ starts_with_hyphen r = true))
  /\ (forall w, In w (tl (words s)) ->
        exists a r, s = a ++ w ++ r /\ a <> []
                    /\ is_word_opt (last_opt None a) = false
                    /\ (r = [] \/ starts_with_hyphen r = true)).
Proof.
  induction s as [|c t [IH1 IH2]].
  - split.
    + intros h ws [= <- <-]. exists []. auto.
    + simpl. tauto.
  - pose proof (words_nonempty t) as Hne.
    simpl. destruct (is_hyphen c) eqn:Hc.
    + split.
      * intros h ws [= <- <-]. exists (c :: t). simpl. auto.
      * simpl. intros w Hin.
        destruct (words t) as [|h' ws'] eqn:Hw; [congruence|].
        destruct Hin as [<-|Hin].
        -- destruct (IH1 _ _ eq_refl) as (r & -> & Hr).
           exists [c], r. repeat split; auto; [discriminate|].
           simpl. now apply hyphen_not_word.
        -- destruct (IH2 w Hin) as (a & r & -> & Ha & Hp & Hr).
           exists (c :: a), r. repeat split; auto; [discriminate|].
           simpl. fold (last_opt (Some c) a).
           now rewrite (last_opt_nonempty (Some c) None a Ha).
    + destruct (words t) as [|h' ws'] eqn:Hw; [congruence|].
      split.
      * intros h ws [= <- <-].
        destruct (IH1 _ _ eq_refl) as (r & -> & Hr). now exists r.
      * simpl. intros w Hin.
        destruct (IH2 w Hin) as (a & r & -> & Ha & Hp & Hr).
        exists (c :: a), r. repeat split; auto; [discriminate|].
        simpl. fold (last_opt (Some c) a).
        now rewrite (last_opt_nonempty (Some c) None a Ha).
Qed.

Lemma words_place s w :
  In w (words s) ->
  exists a r, s = a ++ w ++ r
              /\ is_word_opt (last_opt None a) = false
              /\ (r = [] \/ starts_with_hyphen r = true).
Proof.
  intros Hin. destruct (words_places s) as [H1 H2].
  destruct (words s) as [|h ws] eqn:Hw; [contradiction|].
  destruct Hin as [<-|Hin].
  - destruct (H1 _ _ eq_refl) as (r & -> & Hr). now exists [], r.
  - destruct (H2 w Hin) as (a & r & -> & _ & Hp & Hr). now exists a, r.
Qed.

Lemma suffix_words_plain w :
  In w suffix_words ->
  forallb (fun c => negb (is_hyphen c)) (chars w) = true.
Proof.
  unfold suffix_words. simpl.
  intros H. repeat (destruct H as [<-|H]); try contradiction; reflexivity.
Qed.

Lemma is_suffix_word_in w :
  is_suffix_word w = true <-> exists a, In a suffix_words /\ w = chars a.
Proof.
  unfold is_suffix_word. rewrite existsb_exists. split.
  - intros (a & Hin & Heq). apply String.eqb_eq in Heq. exists a. split; auto.
    subst a. unfold text, chars.
    now rewrite list_ascii_of_string_of_list_ascii.
  - intros (a & Hin & ->). exists a. split; auto.
    apply String.eqb_eq. apply string_of_list_ascii_of_string.
Qed.

(** The suffix step on a token: it changes the token exactly when one
    of its words is a legal suffix, and then the token gets shorter. *)
Lemma remove_suffixes_clean y :
  forallb allowed y = true -> has_suffix_word y = false ->
  remove_suffixes y = y.
Proof.
  intros Ha Hn. apply sub_scan_fixed. intros a b -> Hb.
  destruct (match_suffix (last_opt None a) b) as [n|] eqn:Hm; auto.
  exfalso.
  destruct (match_suffix_word _ _ _ (forallb_app_r _ _ _ Ha) Hm)
    as (w & r & Hin & -> & Hp & Hr).
  assert (Hw : In (chars w) (words (a ++ chars w ++ r))).
  { apply in_words; auto.
    - eapply forallb_app_l; eauto.
    - now apply suffix_words_plain. }
  unfold has_suffix_word in Hn.
  apply not_true_iff_false in Hn. apply Hn.
  apply existsb_exists. exists (chars w). split; auto.
  apply is_suffix_word_in. now exists w.
Qed.

Lemma remove_suffixes_shrinks y :
  has_suffix_word y = true ->
  List.length (remove_suffixes y) < List.length y.
Proof.
  unfold has_suffix_word. rewrite existsb_exists.
  intros (w & Hin & Hw).
  apply is_suffix_word_in in Hw as (a0 & Ha0 & ->).
  destruct (words_place y _ Hin) as (a & r & -> & Hp & Hr).
  destruct (suffix_word_matches _ _ _ Ha0 Hp Hr) as [k Hk].
  eapply sub_scan_shrinks; eauto.
Qed.

(** On a normal token the whole pipeline is the identity exactly when
    no word of the token is a legal suffix. *)
Lemma after_unidecode_normal_iff y :
  normal y -> (after_unidecode y = y <-> has_suffix_word y = false).
Proof.
  intros Hn. split.
  - intros Heq. destruct (has_suffix_word y) eqn:Hs; auto. exfalso.
    pose proof (remove_suffixes_shrinks y Hs) as Hlt.
    pose proof (after_unidecode_length y) as Hle.
    rewrite (lower_allowed y (normal_allowed y Hn)) in Hle.
    rewrite Heq in Hle. lia.
  - intros Hs. apply after_unidecode_fixed; auto.
    apply remove_suffixes_clean; auto. apply Hn.
Qed.

End PipelineFacts.

(* ================================================================== *)
(** * [clean_domain_name]: shape of the result and idempotence *)
(* ================================================================== *)

Section Normalisation.

Import Pipeline Token PipelineFacts.

Variable transliterate : string -> string.

#[local] Abbreviation clean := (clean_domain_name transliterate).

Lemma chars_text l : chars (text l) = l.
Proof. apply list_ascii_of_string_of_list_ascii. Qed.

Lemma text_chars s : text (chars s) = s.
Proof. apply string_of_list_ascii_of_string. Qed.

Lemma chars_append a b : chars (a ++ b)%string = chars a ++ chars b.
Proof. induction a as [|c a IH]; simpl; [reflexivity|]. now rewrite <- IH. Qed.

Lemma chars_inj a b : chars a = chars b -> a = b.
Proof. intros H. rewrite <- (text_chars a), <- (text_chars b). now rewrite H. Qed.

Lemma clean_chars_normal x : normal (chars (clean x)).
Proof.
  unfold clean_domain_name. rewrite chars_text. apply after_unidecode_normal.
Qed.

Lemma forallb_allowed_ascii7 l :
  forallb allowed l = true -> forallb is_ascii7 l = true.
Proof.
  induction l as [|c t IH]; simpl; auto.
  intros H. apply andb_true_iff in H as [Hc Ht].
  now rewrite (allowed_ascii7 c Hc), (IH Ht).
Qed.

(** A normalised name is 7-bit text: [unidecode] returns it as it is. *)
Lemma unidecode_clean x : unidecode transliterate (clean x) = clean x.
Proof.
  unfold unidecode.
  now rewrite (forallb_allowed_ascii7 _ (normal_allowed _ (clean_chars_normal x))).
Qed.

Lemma clean_clean_chars x :
  chars (clean (clean x)) = after_unidecode (chars (clean x)).
Proof.
  unfold clean_domain_name at 1. rewrite unidecode_clean. apply chars_text.
Qed.

Lemma no_double_pair a c1 c2 b :
  no_double (a ++ c1 :: c2 :: b) = true ->
  is_hyphen c1 && is_hyphen c2 = false.
Proof.
  intros H. apply no_double_app_r in H. simpl in H.
  apply andb_true_iff in H as [H _]. now apply negb_true_iff in H.
Qed.

End Normalisation.

(** C10. For every input, the result of [clean_domain_name] consists of
    lowercase ASCII letters, digits and hyphens only, holds no two
    hyphens in a row and neither starts nor ends with a hyphen. *)
Theorem clean_domain_name_shape :
  forall (transliterate : string -> string) (name : string),
    (forall c, In c (chars (clean_domain_name transliterate name)) ->
               is_lower c || is_digit c || is_hyphen c = true)
    /\ (forall a b, clean_domain_name transliterate name
                    <> (a ++ "--" ++ b)%string)
    /\ (forall t, clean_domain_name transliterate name <> ("-" ++ t)%string)
    /\ (forall t, clean_domain_name transliterate name <> (t ++ "-")%string).
Proof.
  intros tr name.
  destruct (clean_chars_normal tr name) as [Ha Hd Hs He].
  repeat split.
  - intros c Hc. rewrite forallb_forall in Ha. apply (Ha c Hc).
  - intros a b Heq. rewrite Heq in Hd.
    rewrite !chars_append in Hd. simpl in Hd.
    apply no_double_pair in Hd. discriminate Hd.
  - intros t Heq. rewrite Heq in Hs. simpl in Hs. discriminate Hs.
  - intros t Heq. rewrite Heq in He. unfold Token.ends_with_hyphen in He.
    rewrite chars_append, rev_app_distr in He. simpl in He. discriminate He.
Qed.

(** C3, as the code has it. Normalising a normalised name gives the
    same name exactly when none of its hyphen-separated words is one of
    the legal suffixes gmbh, ag, kg, ohg, gbr, ev, ug, mbh; such a word
    is removed by the second pass. *)
Theorem clean_domain_name_idempotent_iff :
  forall (transliterate : string -> string) (name : string),
    clean_domain_name transliterate (clean_domain_name transliterate name)
      = clean_domain_name transliterate name
    <-> Token.has_legal_suffix_word (clean_domain_name transliterate name)
        = false.
Proof.
  intros tr name. unfold Token.has_legal_suffix_word.
  rewrite <- (PipelineFacts.after_unidecode_normal_iff _
                (clean_chars_normal tr name)).
  rewrite <- clean_clean_chars. split.
  - now intros ->.
  - apply chars_inj.
Qed.

(** C3 fails as stated: ["a.g"] has no legal suffix as a word, the dot
    is stripped after the suffix step, and the result ["ag"] is a
    legal suffix, which a second pass removes. *)
Lemma clean_domain_name_not_idempotent :
  clean_domain_name drop_non_ascii "a.g" = "ag"
  /\ clean_domain_name drop_non_ascii
       (clean_domain_name drop_non_ascii "a.g") = "".
Proof. split; vm_compute; reflexivity. Qed.

Example clean_muller_gmbh :
  clean_domain_name drop_non_ascii "Muller GmbH" = "muller".
Proof. vm_compute. reflexivity. Qed.

Example clean_verein_ev :
  clean_domain_name drop_non_ascii "Sportverein e.V. Berlin"
  = "sportverein-berlin".
Proof. vm_compute. reflexivity. Qed.

(* ================================================================== *)
(** * The stable sort *)
(* ================================================================== *)

Module SortFacts.

Section Generic.

Context {A K : Type}.
Variable key : A -> K.
Variable lt : K -> K -> bool.

#[local] Abbreviation insert := (Py.insert key lt).
#[local] Abbreviation sort := (Py.sort key lt).
#[local] Abbreviation ordered := (Py.ordered key lt).

Lemma insert_perm x l : Permutation (insert x l) (x :: l).
Proof.
  induction l as [|y t IH]; simpl; auto.
  destruct (lt (key y) (key x)); auto.
  rewrite IH. apply perm_swap.
Qed.

Lemma sort_perm l : Permutation (sort l) l.
Proof.
  induction l as [|x t IH]; simpl; auto.
  rewrite insert_perm. now constructor.
Qed.

Lemma sort_length l : List.length (sort l) = List.length l.
Proof. apply Permutation_length, sort_perm. Qed.

Lemma sort_in x l : In x (sort l) <-> In x l.
Proof.
  split; apply Permutation_in; [|symmetry]; apply sort_perm.
Qed.

Hypothesis lt_asym : forall a b, lt a b = true -> lt b a = false.
Hypothesis le_trans :
  forall a b c, lt b a = false -> lt c b = false -> lt c a = false.

Lemma insert_sorted x l :
  StronglySorted ordered l -> StronglySorted ordered (insert x l).
Proof.
  induction 1 as [|y t Hs IH Hy]; simpl.
  - repeat constructor.
  - destruct (lt (key y) (key x)) eqn:Hlt.
    + constructor; auto.
      rewrite Forall_forall in *. intros z Hz.
      apply (Permutation_in _ (insert_perm x t)) in Hz.
      destruct Hz as [<-|Hz]; auto.
      unfold ordered. now apply lt_asym.
    + constructor; [now constructor|].
      constructor; [exact Hlt|].
      rewrite Forall_forall in *. intros z Hz.
      unfold ordered in *. eapply le_trans; eauto.
Qed.

Lemma sort_sorted l : StronglySorted ordered (sort l).
Proof.
  induction l as [|x t IH]; simpl; [constructor|]. now apply insert_sorted.
Qed.

(** Stability: the elements of one key keep their order. *)
Variable same : K -> K -> bool.
Hypothesis same_eq : forall a b, same a b = true -> a = b.

Lemma insert_filter k x l :
  filter (fun y => same (key y) k) (insert x l)
  = filter (fun y => same (key y) k) (x :: l).
Proof.
  induction l as [|y t IH]; auto.
  cbn [Py.insert]. destruct (lt (key y) (key x)) eqn:Hlt; auto.
  cbn [filter] in *. rewrite IH.
  destruct (same (key y) k) eqn:Hy, (same (key x) k) eqn:Hx; auto.
  apply same_eq in Hy, Hx. rewrite Hy, Hx in Hlt.
  pose proof (lt_asym _ _ Hlt). congruence.
Qed.

Lemma sort_stable k l :
  filter (fun y => same (key y) k) (sort l)
  = filter (fun y => same (key y) k) l.
Proof.
  induction l as [|x t IH]; auto.
  cbn [Py.sort]. rewrite insert_filter. cbn [filter]. now rewrite IH.
Qed.

End Generic.

Lemma sorted_nth {A} (R : A -> A -> Prop) l :
  StronglySorted R l ->
  forall i j a b, i < j -> nth_error l i = Some a -> nth_error l j = Some b ->
                  R a b.
Proof.
  induction 1 as [|x t Hs IH Hx]; intros i j a b Hij Hi Hj.
  - destruct i; discriminate.
  - destruct j as [|j]; [lia|]. simpl in Hj.
    destruct i as [|i]; simpl in Hi.
    + injection Hi as <-. rewrite Forall_forall in Hx.
      apply Hx. eapply nth_error_In; eauto.
    + apply (IH i j); auto. lia.
Qed.

(** The order of the tuples [(bool, int)]. *)
Lemma key_lt_asym a b : Py.key_lt a b = true -> Py.key_lt b a = false.
Proof.
  destruct a as [[] x], b as [[] y]; unfold Py.key_lt, Py.bool_lt; simpl;
    rewrite ?Z.ltb_lt, ?Z.ltb_ge; try lia; try discriminate; auto.
Qed.

Lemma key_le_trans a b c :
  Py.key_lt b a = false -> Py.key_lt c b = false -> Py.key_lt c a = false.
Proof.
  destruct a as [[] x], b as [[] y], c as [[] z];
    unfold Py.key_lt, Py.bool_lt; simpl;
    rewrite ?Z.ltb_lt, ?Z.ltb_ge; try lia; try discriminate; auto.
Qed.

End SortFacts.

(* ================================================================== *)
(** * [generate_suggestions]: count, flag and order *)
(* ================================================================== *)

Module SuggestionFacts.

Lemma in_firstn {A} (x : A) n l : In x (firstn n l) -> In x l.
Proof.
  intros H. rewrite <- (firstn_skipn n l). apply in_or_app. now left.
Qed.

Lemma len_ge_spec {A} (l : list A) n :
  Py.len_ge l n = true <-> (n <= Z.of_nat (List.length l))%Z.
Proof. unfold Py.len_ge. apply Z.leb_le. Qed.

(** The inner loop appends the suggestions of one candidate until the
    limit is reached. *)
Lemma tld_loop_spec clean_base variation max_suggestions tlds :
  forall suggestions,
    tld_loop clean_base variation max_suggestions tlds suggestions
    = suggestions
        ++ firstn (Z.to_nat (max_suggestions - Z.of_nat (List.length suggestions)))
             (map (make_suggestion clean_base variation) tlds).
Proof.
  induction tlds as [|t rest IH]; intros acc; simpl.
  - now rewrite firstn_nil, app_nil_r.
  - destruct (Py.len_ge acc max_suggestions) eqn:Hge.
    + apply len_ge_spec in Hge.
      replace (Z.to_nat _) with 0 by lia. now rewrite app_nil_r.
    + apply not_true_iff_false in Hge. rewrite len_ge_spec in Hge.
      rewrite IH, length_app, <- app_assoc. simpl. f_equal.
      replace (Z.to_nat (max_suggestions - Z.of_nat (List.length acc)))
        with (S (Z.to_nat (max_suggestions
                           - Z.of_nat (List.length acc + 1)))) by lia.
      reflexivity.
Qed.

(** The two loops together: the first [max_suggestions] combinations. *)
Lemma variation_loop_spec clean_base max_suggestions tlds variations :
  forall suggestions,
    variation_loop clean_base max_suggestions tlds variations suggestions
    = suggestions
        ++ firstn (Z.to_nat (max_suggestions - Z.of_nat (List.length suggestions)))
             (combinations clean_base variations tlds).
Proof.
  induction variations as [|v rest IH]; intros acc; simpl.
  - now rewrite firstn_nil, app_nil_r.
  - rewrite tld_loop_spec.
    set (k := Z.to_nat (max_suggestions - Z.of_nat (List.length acc))).
    set (row := map (make_suggestion clean_base v) tlds).
    rewrite firstn_app.
    destruct (Py.len_ge (acc ++ firstn k row) max_suggestions) eqn:Hge.
    + apply len_ge_spec in Hge. rewrite length_app in Hge.
      pose proof (firstn_le_length k row) as Hle.
      assert (Hk : List.length (firstn k row) = k).
      { rewrite length_firstn in *. lia. }
      rewrite length_firstn in Hk.
      replace (k - List.length row) with 0 by lia.
      now rewrite firstn_O, app_nil_r.
    + apply not_true_iff_false in Hge. rewrite len_ge_spec in Hge.
      rewrite length_app, length_firstn in Hge.
      rewrite IH, <- app_assoc. f_equal.
      assert (Hall : firstn k row = row) by (apply firstn_all2; lia).
      rewrite Hall. f_equal. f_equal.
      rewrite length_app. lia.
Qed.

Lemma built_suggestions_spec clean_base branche tlds max_suggestions :
  built_suggestions clean_base branche tlds max_suggestions
  = firstn (Z.to_nat max_suggestions)
      (combinations clean_base
         (firstn 5 (generate_variations clean_base branche)) tlds).
Proof.
  unfold built_suggestions. rewrite variation_loop_spec. simpl.
  now rewrite Z.sub_0_r.
Qed.

Lemma combinations_length clean_base variations tlds :
  List.length (combinations clean_base variations tlds)
  = List.length variations * List.length tlds.
Proof.
  unfold combinations. induction variations as [|v rest IH]; simpl; auto.
  now rewrite length_app, length_map, IH.
Qed.

Lemma combinations_in clean_base variations tlds s :
  In s (combinations clean_base variations tlds) ->
  exists v t, In v variations /\ In t tlds
              /\ s = make_suggestion clean_base v t.
Proof.
  unfold combinations. rewrite in_flat_map. intros (v & Hv & Hs).
  apply in_map_iff in Hs as (t & <- & Ht). now exists v, t.
Qed.

(** The final slice cuts nothing off. *)
Lemma slice_built clean_base branche tlds max_suggestions :
  Py.slice_to max_suggestions
    (Py.sort sort_key Py.key_lt
       (built_suggestions clean_base branche tlds max_suggestions))
  = Py.sort sort_key Py.key_lt
      (built_suggestions clean_base branche tlds max_suggestions).
Proof.
  set (built := built_suggestions clean_base branche tlds max_suggestions).
  assert (Hlen : List.length built <= Z.to_nat max_suggestions).
  { unfold built. rewrite built_suggestions_spec. apply firstn_le_length. }
  unfold Py.slice_to. destruct (max_suggestions <? 0)%Z eqn:Hneg.
  - apply Z.ltb_lt in Hneg.
    assert (Hnil : built = []) by (destruct built; [auto|simpl in Hlen; lia]).
    now rewrite Hnil.
  - apply firstn_all2. now rewrite SortFacts.sort_length.
Qed.

Lemma ranked_before_key A B :
  ranked_before A B <-> Py.key_lt (sort_key B) (sort_key A) = false.
Proof.
  unfold ranked_before, Py.key_lt, Py.bool_lt, sort_key. simpl.
  destruct (DomainSuggestion.empfohlen A), (DomainSuggestion.empfohlen B);
    simpl; rewrite ?Z.ltb_ge; split; intros H;
    try lia; try discriminate; auto;
    try (destruct H as [[? ?]|[? ?]]; try discriminate; lia).
Qed.

Lemma key_same_eq a b : key_same a b = true -> a = b.
Proof.
  destruct a as [x m], b as [y n]. unfold key_same. simpl.
  intros H. apply andb_true_iff in H as [H1 H2].
  apply Bool.eqb_prop in H1. apply Z.eqb_eq in H2. now subst.
Qed.

End SuggestionFacts.

Section SuggestionClaims.

Import SuggestionFacts.

Variable transliterate : string -> string.
Variable get_tlds_for_country : string -> Z -> outcome (list TldRow.t).

#[local] Abbreviation clean := (clean_domain_name transliterate).
#[local] Abbreviation generate :=
  (generate_suggestions transliterate get_tlds_for_country).

(** What a returned list is: the sorted list of the first combinations. *)
Lemma generate_suggestions_ok base land branche max_suggestions out :
  generate base land branche max_suggestions = Ok out ->
  exists tlds,
    get_tlds_for_country land 10%Z = Ok tlds
    /\ out = Py.sort sort_key Py.key_lt
               (built_suggestions (clean base) branche tlds max_suggestions).
Proof.
  unfold generate_suggestions.
  destruct (get_tlds_for_country land 10%Z) as [tlds|e]; [|discriminate].
  intros [= <-]. exists tlds. split; auto. apply slice_built.
Qed.

Lemma generate_suggestions_in base land branche max_suggestions out s :
  generate base land branche max_suggestions = Ok out -> In s out ->
  exists v t,
    In v (firstn 5 (generate_variations (clean base) branche))
    /\ s = make_suggestion (clean base) v t.
Proof.
  intros Hg Hs. destruct (generate_suggestions_ok _ _ _ _ _ Hg) as (tlds & _ & ->).
  apply SortFacts.sort_in in Hs. rewrite built_suggestions_spec in Hs.
  apply in_firstn in Hs.
  destruct (combinations_in _ _ _ _ Hs) as (v & t & Hv & _ & ->).
  now exists v, t.
Qed.

Lemma append_inv_tail (a b c : string) :
  (a ++ c)%string = (b ++ c)%string -> a = b.
Proof.
  intros H. apply chars_inj. apply (f_equal chars) in H.
  rewrite !chars_append in H. now apply app_inv_tail in H.
Qed.

End SuggestionClaims.

(** C4. A returned suggestion is recommended if and only if its name
    part, the text of its domain before the dot and its TLD, is the
    normalised base and its priority is at least 90. *)
Theorem suggestion_recommended_iff :
  forall (transliterate : string -> string)
         (get_tlds_for_country : string -> Z -> outcome (list TldRow.t))
         (wunschdomain_basis land : string) (branche : option string)
         (max_suggestions : Z) (out : list DomainSuggestion.t)
         (s : DomainSuggestion.t),
    generate_suggestions transliterate get_tlds_for_country
      wunschdomain_basis land branche max_suggestions = Ok out ->
    In s out ->
    (exists variation,
        In variation
           (generate_variations
              (clean_domain_name transliterate wunschdomain_basis) branche)
        /\ DomainSuggestion.domain s
           = (variation ++ "." ++ DomainSuggestion.tld s)%string)
    /\ (forall variation,
          DomainSuggestion.domain s
          = (variation ++ "." ++ DomainSuggestion.tld s)%string ->
          (DomainSuggestion.empfohlen s = true
           <-> variation = clean_domain_name transliterate wunschdomain_basis
               /\ (90 <= DomainSuggestion.prio s)%Z)).
Proof.
  intros tr db base land branche mx out s Hg Hs.
  destruct (generate_suggestions_in _ _ _ _ _ _ _ _ Hg Hs) as (v & t & Hv & ->).
  split.
  - exists v. split; [eapply SuggestionFacts.in_firstn; eauto|reflexivity].
  - intros v' Hd. simpl in Hd. apply append_inv_tail in Hd. subst v'.
    simpl. rewrite andb_true_iff, String.eqb_eq, Z.leb_le. reflexivity.
Qed.

Lemma suggestion_recommended_iff_witness :
  (generate_suggestions drop_non_ascii sample_get_tlds
     "Muller GmbH" "DE" (Some "handwerker") 5 = Ok sample_suggestions
   /\ In (DomainSuggestion.mk "muller.com" "com" None 12.5%float 90 true)
         sample_suggestions)
  /\ (forall variation,
        "muller.com" = (variation ++ "." ++ "com")%string ->
        (true = true
         <-> variation = clean_domain_name drop_non_ascii "Muller GmbH"
             /\ (90 <= 90)%Z)).
Proof.
  assert (Hg : generate_suggestions drop_non_ascii sample_get_tlds
                 "Muller GmbH" "DE" (Some "handwerker") 5
               = Ok sample_suggestions) by (vm_compute; reflexivity).
  assert (Hin : In (DomainSuggestion.mk "muller.com" "com" None 12.5%float
                      90 true) sample_suggestions)
    by (simpl; tauto).
  split; [split; assumption|].
  exact (proj2 (suggestion_recommended_iff drop_non_ascii sample_get_tlds
                  "Muller GmbH" "DE" (Some "handwerker") 5
                  sample_suggestions _ Hg Hin)).
Defined.

(** The two sides of the threshold on the unmodified base. *)
Example recommended_at_90 :
  DomainSuggestion.empfohlen
    (make_suggestion "muller" "muller" (TldRow.mk "com" 12.5%float 90)) = true.
Proof. reflexivity. Qed.

Example not_recommended_at_89 :
  DomainSuggestion.empfohlen
    (make_suggestion "muller" "muller" (TldRow.mk "net" 12.5%float 89)) = false.
Proof. reflexivity. Qed.

Example not_recommended_on_variation :
  DomainSuggestion.empfohlen
    (make_suggestion "muller" "muller-online" (TldRow.mk "de" 9.5%float 100))
  = false.
Proof. reflexivity. Qed.

(** C5. In every returned list a suggestion stands before another only
    if it is recommended and the other is not, or both have the same
    flag and its priority is not lower.  The list is the list built by
    the loops, sorted ascending by the key (not recommended, negated
    priority); suggestions of one key keep the order of their creation. *)
Theorem suggestions_ranked :
  forall (transliterate : string -> string)
         (get_tlds_for_country : string -> Z -> outcome (list TldRow.t))
         (wunschdomain_basis land : string) (branche : option string)
         (max_suggestions : Z) (out : list DomainSuggestion.t),
    generate_suggestions transliterate get_tlds_for_country
      wunschdomain_basis land branche max_suggestions = Ok out ->
    (forall i j A B,
        i < j -> nth_error out i = Some A -> nth_error out j = Some B ->
        ranked_before A B)
    /\ (forall A B,
          ranked_before A B
          <-> Py.key_lt (sort_key B) (sort_key A) = false)
    /\ exists tlds,
         get_tlds_for_country land 10%Z = Ok tlds
         /\ Permutation out
              (built_suggestions
                 (clean_domain_name transliterate wunschdomain_basis)
                 branche tlds max_suggestions)
         /\ forall k,
              filter (fun s => key_same (sort_key s) k) out
              = filter (fun s => key_same (sort_key s) k)
                  (built_suggestions
                     (clean_domain_name transliterate wunschdomain_basis)
                     branche tlds max_suggestions).
Proof.
  intros tr db base land branche mx out Hg.
  destruct (generate_suggestions_ok _ _ _ _ _ _ _ Hg) as (tlds & Hdb & ->).
  split; [|split].
  - intros i j A B Hij HA HB. apply SuggestionFacts.ranked_before_key.
    eapply (SortFacts.sorted_nth
              (Py.ordered sort_key Py.key_lt)); eauto.
    apply SortFacts.sort_sorted.
    + apply SortFacts.key_lt_asym.
    + apply SortFacts.key_le_trans.
  - apply SuggestionFacts.ranked_before_key.
  - exists tlds. split; [assumption|]. split.
    + apply SortFacts.sort_perm.
    + intros k. apply SortFacts.sort_stable.
      * apply SortFacts.key_lt_asym.
      * apply SuggestionFacts.key_same_eq.
Qed.

Lemma suggestions_ranked_witness :
  generate_suggestions drop_non_ascii sample_get_tlds
    "Muller GmbH" "DE" (Some "handwerker") 5 = Ok sample_suggestions
  /\ (forall i j A B,
        i < j -> nth_error sample_suggestions i = Some A ->
        nth_error sample_suggestions j = Some B -> ranked_before A B).
Proof.
  assert (Hg : generate_suggestions drop_non_ascii sample_get_tlds
                 "Muller GmbH" "DE" (Some "handwerker") 5
               = Ok sample_suggestions) by (vm_compute; reflexivity).
  split; [assumption|].
  exact (proj1 (suggestions_ranked drop_non_ascii sample_get_tlds
                  "Muller GmbH" "DE" (Some "handwerker") 5
                  sample_suggestions Hg)).
Defined.

(** C6. When the TLD rows have been fetched and the limit is not
    negative, [generate_suggestions] returns exactly
    [min (C, max_suggestions)] suggestions, [C] being the number of the
    first at most five candidate tokens times the number of rows; every
    one of them combines one of these tokens with one of the rows. *)
Theorem generate_suggestions_count :
  forall (transliterate : string -> string)
         (get_tlds_for_country : string -> Z -> outcome (list TldRow.t))
         (wunschdomain_basis land : string) (branche : option string)
         (max_suggestions : Z) (tlds : list TldRow.t),
    get_tlds_for_country land 10%Z = Ok tlds ->
    (0 <= max_suggestions)%Z ->
    exists out,
      generate_suggestions transliterate get_tlds_for_country
        wunschdomain_basis land branche max_suggestions = Ok out
      /\ Z.of_nat (List.length out)
         = Z.min
             (Z.of_nat
                (List.length
                   (firstn 5
                      (generate_variations
                         (clean_domain_name transliterate wunschdomain_basis)
                         branche))
                 * List.length tlds))
             max_suggestions
      /\ (Z.of_nat (List.length out) <= max_suggestions)%Z
      /\ List.length
           (firstn 5
              (generate_variations
                 (clean_domain_name transliterate wunschdomain_basis)
                 branche)) <= 5
      /\ forall s, In s out ->
           exists variation tld_data,
             In variation
                (firstn 5
                   (generate_variations
                      (clean_domain_name transliterate wunschdomain_basis)
                      branche))
             /\ In tld_data tlds
             /\ s = make_suggestion
                      (clean_domain_name transliterate wunschdomain_basis)
                      variation tld_data.
Proof.
  intros tr db base land branche mx tlds Hdb Hmx.
  unfold generate_suggestions. rewrite Hdb.
  rewrite SuggestionFacts.slice_built.
  eexists. split; [reflexivity|].
  rewrite SortFacts.sort_length, SuggestionFacts.built_suggestions_spec.
  rewrite length_firstn, SuggestionFacts.combinations_length.
  repeat split.
  - lia.
  - lia.
  - apply firstn_le_length.
  - intros s Hs. apply SortFacts.sort_in in Hs.
    apply SuggestionFacts.in_firstn in Hs.
    now apply SuggestionFacts.combinations_in.
Qed.

Lemma generate_suggestions_count_witness :
  (sample_get_tlds "DE" 10%Z = Ok sample_tlds /\ (0 <= 5)%Z)
  /\ exists out,
       generate_suggestions drop_non_ascii sample_get_tlds
         "Muller GmbH" "DE" (Some "handwerker") 5 = Ok out
       /\ Z.of_nat (List.length out)
          = Z.min
              (Z.of_nat
                 (List.length
                    (firstn 5
                       (generate_variations
                          (clean_domain_name drop_non_ascii "Muller GmbH")
                          (Some "handwerker")))
                  * List.length sample_tlds))
              5.
Proof.
  split; [split; [reflexivity|lia]|].
  destruct (generate_suggestions_count drop_non_ascii sample_get_tlds
              "Muller GmbH" "DE" (Some "handwerker") 5 sample_tlds
              eq_refl ltac:(lia)) as (out & Hout & Hlen & _).
  now exists out.
Defined.

(** Fewer combinations than the limit: all of them are returned. *)
Example generate_suggestions_all :
  match generate_suggestions drop_non_ascii sample_get_tlds
          "Muller GmbH" "DE" None 50 with
  | Ok out => List.length out = 12
  | Raise _ => False
  end.
Proof. vm_compute. reflexivity. Qed.

(* ================================================================== *)
(** * [INWXService]: requests, session and scope *)
(* ================================================================== *)

Module INWXFacts.

Section Facts.

Variable E : env.

Ltac monad :=
  unfold bind, ret, raise, lift, try_except, try_finally, get_session_id,
    set_session_id, emit, get_trace in *; simpl in *.

(** [_call_api] posts exactly one request and leaves the session
    alone. *)
Lemma call_api_state method params s :
  snd (_call_api E method params s) = posted s (rpc_payload method params).
Proof.
  unfold _call_api, posted. monad.
  destruct (post E (trace s) (rpc_payload method params)) as [data|e];
    [|reflexivity].
  destruct (Value.contains "error" data) as [[]|e]; try reflexivity;
    try (destruct (Value.index data "error"); reflexivity);
    try (destruct (Value.get data "result" (VDict [])); reflexivity).
Qed.

(** A failure of the transport is the failure of [_call_api]. *)
Lemma call_api_transport method params s e :
  post E (trace s) (rpc_payload method params) = Raise e ->
  _call_api E method params s
  = (Raise e, posted s (rpc_payload method params)).
Proof. intros H. unfold _call_api, posted. monad. now rewrite H. Qed.

Lemma check_domain_try_state domain s :
  snd (check_domain_try E domain s) = posted s (check_request domain).
Proof.
  unfold check_domain_try, check_request.
  pose proof (call_api_state "domain.check"
                (VDict [("domain", VStr domain)]) s) as Hs.
  monad.
  destruct (_call_api E "domain.check" (VDict [("domain", VStr domain)]) s)
    as [[result|e] s']; simpl in *; subst s'; [|reflexivity].
  destruct (Value.get result "code" VNone) as [code|e]; [|reflexivity].
  destruct (negb (Value.eq_int code 1000 1000)).
  - destruct (Value.get result "msg" VNone); reflexivity.
  - destruct (Value.get result "resData" (VDict [])) as [rd|e];
      [|reflexivity].
    destruct (Value.get rd "avail" (VInt 0)); [|reflexivity].
    destruct (Value.get rd "price" VNone); reflexivity.
Qed.

(** What [check_domain_try] returns when it returns. *)
Lemma check_domain_try_result domain s r s' :
  check_domain_try E domain s = (Ok r, s') ->
  (exists err, r = error_result domain err)
  \/ (exists avail price, r = check_result domain avail price).
Proof.
  unfold check_domain_try. monad.
  destruct (_call_api E "domain.check" (VDict [("domain", VStr domain)]) s)
    as [[result|e] s1]; [|discriminate].
  destruct (Value.get result "code" VNone) as [code|e]; [|discriminate].
  destruct (negb (Value.eq_int code 1000 1000)).
  - destruct (Value.get result "msg" VNone) as [msg|e]; [|discriminate].
    intros [= <- <-]. left. now exists msg.
  - destruct (Value.get result "resData" (VDict [])) as [rd|e];
      [|discriminate].
    destruct (Value.get rd "avail" (VInt 0)) as [a|e]; [|discriminate].
    destruct (Value.get rd "price" VNone) as [price|e]; [|discriminate].
    intros [= <- <-]. right. now eexists _, price.
Qed.

(** The answer of the registrar carries a code other than 1000. *)
Lemma check_domain_try_code domain s result s1 code msg :
  _call_api E "domain.check" (VDict [("domain", VStr domain)]) s
  = (Ok result, s1) ->
  Value.get result "code" VNone = Ok code ->
  Value.eq_int code 1000 1000 = false ->
  Value.get result "msg" VNone = Ok msg ->
  check_domain_try E domain s = (Ok (error_result domain msg), s1).
Proof.
  intros Hc Hcode Hne Hmsg. unfold check_domain_try. monad.
  now rewrite Hc, Hcode, Hne, Hmsg.
Qed.

(** [check_domain] once the session is there: the [try] with its
    [except], which returns in every case. *)
Lemma check_domain_ready domain s s1 :
  session_ready E s s1 ->
  check_domain E domain s
  = match check_domain_try E domain s1 with
    | (Ok r, s2) => (Ok r, s2)
    | (Raise e, s2) => (Ok (error_result domain (VStr (str_exn e))), s2)
    end.
Proof.
  intros [[Ht ->]|[Hf [sid Hl]]]; unfold check_domain; monad.
  - rewrite Ht. reflexivity.
  - rewrite Hf. simpl. rewrite Hl. reflexivity.
Qed.

(** [logout]: nothing without a session; else one request, and the
    session is gone whatever the request did. *)
Lemma logout_without_session s :
  Value.truthy (session_id s) = false -> logout E s = (Ok tt, s).
Proof. intros H. unfold logout. monad. now rewrite H. Qed.

Lemma logout_with_session s :
  Value.truthy (session_id s) = true ->
  logout E s
  = (match fst (_call_api E "account.logout" VNone s) with
     | Ok _ => Ok tt
     | Raise e => Raise e
     end,
     mkState VNone (trace s ++ [EvPost logout_request])).
Proof.
  intros H. unfold logout.
  pose proof (call_api_state "account.logout" VNone s) as Hs.
  monad. rewrite H.
  destruct (_call_api E "account.logout" VNone s) as [[r|e] s'];
    simpl in *; subst s'; reflexivity.
Qed.

Lemma logout_state s r s' :
  logout E s = (r, s') ->
  Value.truthy (session_id s') = false
  /\ trace s'
     = trace s ++ (if Value.truthy (session_id s) then [EvPost logout_request]
                   else []).
Proof.
  destruct (Value.truthy (session_id s)) eqn:Ht.
  - rewrite (logout_with_session s Ht). intros [= <- <-]. auto.
  - rewrite (logout_without_session s Ht). intros [= <- <-].
    now rewrite app_nil_r.
Qed.

(** Neither [login] nor [logout] persists anything. *)
Lemma login_state s :
  trace (snd (login E s))
  = trace s
      ++ [EvPost (rpc_payload "account.login"
                    (VDict [("user", VStr (inwx_username E));
                            ("pass", VStr (inwx_password E))]))].
Proof.
  unfold login.
  pose proof (call_api_state "account.login"
                (VDict [("user", VStr (inwx_username E));
                        ("pass", VStr (inwx_password E))]) s) as Hs.
  monad.
  destruct (_call_api E "account.login" _ s) as [[result|e] s'];
    simpl in *; subst s'; [|reflexivity].
  destruct (Value.get result "code" VNone) as [code|e]; [|reflexivity].
  destruct (negb (Value.eq_int code 1000 1000)).
  - destruct (Value.get result "msg" VNone); reflexivity.
  - destruct (Value.get result "resData" (VDict [])) as [rd|e];
      [|reflexivity].
    destruct (Value.get rd "sessid" VNone); reflexivity.
Qed.

Lemma login_inserts s r s' :
  login E s = (r, s') -> inserts (trace s') = inserts (trace s).
Proof.
  intros H. pose proof (login_state s) as Hs. rewrite H in Hs. simpl in Hs.
  unfold inserts. rewrite Hs, filter_app. simpl. apply app_nil_r.
Qed.

Lemma logout_inserts s r s' :
  logout E s = (r, s') -> inserts (trace s') = inserts (trace s).
Proof.
  intros H. destruct (logout_state s r s' H) as [_ Ht].
  unfold inserts. rewrite Ht, filter_app.
  destruct (Value.truthy (session_id s)); simpl; apply app_nil_r.
Qed.

(** [async with]: the scope unfolded. *)
Lemma with_service_entered {A} (body : M A) s sid s1 :
  login E (fresh s) = (Ok sid, s1) ->
  with_service E body s
  = match body s1 with
    | (r, s2) =>
        match logout E s2 with
        | (Ok _, s3) => (r, s3)
        | (Raise e, s3) => (Raise e, s3)
        end
    end.
Proof.
  intros Hl. unfold with_service, new_service, aenter, aexit. monad.
  unfold fresh in Hl. rewrite Hl. reflexivity.
Qed.

Lemma with_service_not_entered {A} (body : M A) s e s1 :
  login E (fresh s) = (Raise e, s1) ->
  with_service E body s = (Raise e, s1).
Proof.
  intros Hl. unfold with_service, new_service, aenter, aexit. monad.
  unfold fresh in Hl. rewrite Hl. reflexivity.
Qed.

End Facts.

End INWXFacts.

(** C1, as the code has it. With a session at hand, its own or the one
    the login at its start obtains, [check_domain] returns a result
    record and never raises: a failure of the transport or a response
    that cannot be read gives the record with status "error" and the
    text of the failure, a result code other than 1000 gives the
    record with status "error" and the message of the registrar. *)
Theorem check_domain_structured :
  forall (E : env) (domain : string) (s s1 : state),
    session_ready E s s1 ->
    exists r,
      check_domain E domain s
      = (Ok r, posted s1 (check_request domain))
      /\ ((exists err, r = error_result domain err)
          \/ (exists avail price, r = check_result domain avail price))
      /\ (forall e,
            post E (trace s1) (check_request domain) = Raise e ->
            r = error_result domain (VStr (str_exn e)))
      /\ (forall e s2,
            _call_api E "domain.check" (VDict [("domain", VStr domain)]) s1
            = (Raise e, s2) ->
            r = error_result domain (VStr (str_exn e)))
      /\ (forall result s2 code msg,
            _call_api E "domain.check" (VDict [("domain", VStr domain)]) s1
            = (Ok result, s2) ->
            Value.get result "code" VNone = Ok code ->
            Value.eq_int code 1000 1000 = false ->
            Value.get result "msg" VNone = Ok msg ->
            r = error_result domain msg).
Proof.
  intros E domain s s1 Hready.
  rewrite (INWXFacts.check_domain_ready E domain s s1 Hready).
  pose proof (INWXFacts.check_domain_try_state E domain s1) as Hstate.
  destruct (check_domain_try E domain s1) as [[r|e0] s2] eqn:Htry;
    simpl in Hstate; subst s2.
  - exists r. split; [reflexivity|]. split; [|split; [|split]].
    + eapply INWXFacts.check_domain_try_result; eauto.
    + intros e He.
      apply (INWXFacts.call_api_transport E "domain.check"
               (VDict [("domain", VStr domain)])) in He.
      unfold check_domain_try, bind in Htry. rewrite He in Htry.
      discriminate Htry.
    + intros e s2 He. unfold check_domain_try, bind in Htry.
      rewrite He in Htry. discriminate Htry.
    + intros result s2 code msg Hc Hcode Hne Hmsg.
      rewrite (INWXFacts.check_domain_try_code E domain s1 _ _ _ _
                 Hc Hcode Hne Hmsg) in Htry.
      now injection Htry as <- _.
  - exists (error_result domain (VStr (str_exn e0))).
    split; [reflexivity|]. split; [left; eauto|split; [|split]].
    + intros e He.
      apply (INWXFacts.call_api_transport E "domain.check"
               (VDict [("domain", VStr domain)])) in He.
      unfold check_domain_try, bind in Htry. rewrite He in Htry.
      now injection Htry as <-.
    + intros e s2 He. unfold check_domain_try, bind in Htry.
      rewrite He in Htry. now injection Htry as <-.
    + intros result s2 code msg Hc Hcode Hne Hmsg.
      rewrite (INWXFacts.check_domain_try_code E domain s1 _ _ _ _
                 Hc Hcode Hne Hmsg) in Htry.
      discriminate Htry.
Qed.

Lemma check_domain_structured_witness :
  session_ready (Sample.world Sample.registrar) Sample.start
    (mkState (VStr "s-1")
       [EvPost (rpc_payload "account.login"
                  (VDict [("user", VStr "user"); ("pass", VStr "secret")]))])
  /\ exists r,
       fst (check_domain (Sample.world Sample.registrar) "taken.de"
              Sample.start) = Ok r
       /\ ((exists err, r = error_result "taken.de" err)
           \/ (exists avail price, r = check_result "taken.de" avail price)).
Proof.
  assert (Hready :
            session_ready (Sample.world Sample.registrar) Sample.start
              (mkState (VStr "s-1")
                 [EvPost (rpc_payload "account.login"
                            (VDict [("user", VStr "user");
                                    ("pass", VStr "secret")]))])).
  { right. split; [reflexivity|]. exists (VStr "s-1"). reflexivity. }
  split; [exact Hready|].
  destruct (check_domain_structured (Sample.world Sample.registrar)
              "taken.de" Sample.start _ Hready) as (r & Hr & Hshape & _).
  exists r. rewrite Hr. split; [reflexivity|exact Hshape].
Defined.

(** C1 fails as stated: the login that [check_domain] performs when it
    has no session stands before the [try]; when it fails, the
    operation raises. *)
Lemma check_domain_raises_without_session :
  check_domain (Sample.world Sample.unreachable) "example.de" Sample.start
  = (Raise Sample.connect_error,
     mkState VNone
       [EvPost (rpc_payload "account.login"
                  (VDict [("user", VStr "user"); ("pass", VStr "secret")]))]).
Proof. reflexivity. Qed.

(** With a session the same failure of the transport is a result. *)
Example check_domain_unreachable_with_session :
  fst (check_domain (Sample.world Sample.unreachable) "example.de"
         (mkState (VStr "s-1") []))
  = Ok (error_result "example.de" (VStr "All connection attempts failed")).
Proof. reflexivity. Qed.

Example check_domain_free :
  fst (check_domain (Sample.world Sample.registrar) "free.de" Sample.start)
  = Ok (check_result "free.de" true (VFloat 10%float)).
Proof. reflexivity. Qed.




(* ================================================================== *)
(** * The handlers: batch check and registration *)
(* ================================================================== *)

Module HandlerFacts.

Section Facts.

Variable E : env.

Ltac monad :=
  unfold bind, ret, raise, lift, try_except, try_finally, get_session_id,
    set_session_id, emit, get_trace in *; simpl in *.

(** A result that passes the validation is made of the values given. *)
Lemma new_DomainCheckResult_ok domain avail preis err r :
  Pydantic.new_DomainCheckResult E domain avail preis err = Ok r ->
  exists b f,
    Pydantic.as_bool E avail = Some b
    /\ Pydantic.as_optional_str err = Some f
    /\ r = DomainCheckResult.mk domain b preis f.
Proof.
  unfold Pydantic.new_DomainCheckResult.
  destruct (Pydantic.as_bool E avail) as [b|];
    destruct (Pydantic.as_optional_str err) as [f|]; try discriminate.
  intros [= <-]. now exists b, f.
Qed.

(** One turn of the loop returns a result for its domain, whatever the
    [try] block did. *)
Lemma check_domains_item_total domain s :
  exists r s',
    check_domains_item E domain s = (Ok r, s')
    /\ DomainCheckResult.domain r = domain
    /\ (forall e sx, check_domains_try E domain s = (Raise e, sx) ->
                     r = failed_check domain e).
Proof.
  unfold check_domains_item, try_except.
  destruct (check_domains_try E domain s) as [[r|e] s'] eqn:Htry.
  - exists r, s'. split; [reflexivity|]. split; [|discriminate].
    unfold check_domains_try in Htry. monad.
    destruct (check_domain E domain s) as [[res|e] s1]; [|discriminate].
    unfold get_tld_by_name in Htry. monad.
    destruct (select_tld E (trace s1) (Str.last_label domain)) as [rows|e];
      [|discriminate]. simpl in Htry.
    destruct (Value.get res "avail" (VBool false)) as [a|e]; [|discriminate].
    destruct (Value.get res "error" VNone) as [er|e]; [|discriminate].
    injection Htry as Htry _.
    destruct (Pydantic.new_DomainCheckResult E domain a _ er) as [r'|e]
      eqn:Hnew; [|discriminate].
    injection Htry as <-.
    apply new_DomainCheckResult_ok in Hnew as (b & f & _ & _ & ->).
    reflexivity.
  - exists (failed_check domain e), s'. split; [reflexivity|].
    split; [reflexivity|]. now intros e' sx [= <- _].
Qed.

Lemma check_domains_loop_app pre post : forall acc s,
  check_domains_loop E (pre ++ post) acc s
  = match check_domains_loop E pre acc s with
    | (Ok a, sa) => check_domains_loop E post a sa
    | (Raise e, sa) => (Raise e, sa)
    end.
Proof.
  induction pre as [|d pre IH]; intros acc s; simpl; [reflexivity|].
  unfold bind. destruct (check_domains_item E d s) as [[r|e] s1];
    [apply IH|reflexivity].
Qed.

(** The loop appends one result per domain, in the order of the
    domains. *)
Lemma check_domains_loop_total domains : forall acc s,
  exists res s',
    check_domains_loop E domains acc s = (Ok (acc ++ res), s')
    /\ check_domains_loop E domains [] s = (Ok res, s')
    /\ map DomainCheckResult.domain res = domains.
Proof.
  induction domains as [|d ds IH]; intros acc s; simpl.
  - exists [], s. unfold ret. now rewrite app_nil_r.
  - destruct (check_domains_item_total d s) as (r & s1 & Hitem & Hd & _).
    unfold bind. rewrite Hitem.
    destruct (IH (acc ++ [r]) s1) as (res & s' & H1 & H2 & H3).
    destruct (IH ([] ++ [r]) s1) as (res' & s'' & H1' & H2' & _).
    rewrite H2 in H2'. injection H2' as <- <-.
    exists (r :: res), s'. simpl in *. rewrite <- app_assoc in H1.
    repeat split; auto. now rewrite Hd, H3.
Qed.

(** ** Splitting a domain *)

Lemma rsplit_chars_none l :
  Str.rsplit_chars l = None <-> existsb (Ascii.eqb Str.dot) l = false.
Proof.
  induction l as [|c t IH]; cbn [Str.rsplit_chars existsb]; [tauto|].
  destruct (Str.rsplit_chars t) as [[a b]|].
  - split; [discriminate|]. intros H. apply orb_false_iff in H as [_ H].
    apply IH in H. discriminate.
  - destruct (Ascii.eqb Str.dot c) eqn:Hc; cbn [orb]; split;
      try discriminate; auto.
    intros _. now apply IH.
Qed.

Lemma rsplit_chars_some l a b :
  Str.rsplit_chars l = Some (a, b) ->
  l = a ++ Str.dot :: b /\ existsb (Ascii.eqb Str.dot) b = false.
Proof.
  revert a b.
  induction l as [|c t IH]; intros a b; cbn [Str.rsplit_chars];
    [discriminate|].
  destruct (Str.rsplit_chars t) as [[a' b']|] eqn:Ht.
  - intros [= <- <-]. destruct (IH _ _ eq_refl) as [-> Hb]. auto.
  - destruct (Ascii.eqb Str.dot c) eqn:Hc; [|discriminate].
    intros [= <- <-]. apply Ascii.eqb_eq in Hc. subst c.
    split; [reflexivity|]. now apply rsplit_chars_none.
Qed.

(** A domain with a dot splits at its last dot. *)
Lemma rsplit_dot_two domain :
  Str.contains_dot domain = true ->
  exists wunschdomain tld,
    Str.rsplit_dot domain = [wunschdomain; tld]
    /\ domain = (wunschdomain ++ "." ++ tld)%string
    /\ Str.contains_dot tld = false.
Proof.
  unfold Str.contains_dot, Str.rsplit_dot. intros Hdot.
  destruct (Str.rsplit_chars (chars domain)) as [[a b]|] eqn:Hr.
  - destruct (rsplit_chars_some _ _ _ Hr) as [Heq Hb].
    exists (text a), (text b). split; [reflexivity|]. split.
    + apply chars_inj. rewrite Heq, !chars_append, !chars_text. reflexivity.
    + now rewrite chars_text.
  - apply rsplit_chars_none in Hr. congruence.
Qed.

Lemma rsplit_dot_one domain :
  Str.contains_dot domain = false -> Str.rsplit_dot domain = [domain].
Proof.
  unfold Str.contains_dot, Str.rsplit_dot. intros Hdot.
  apply rsplit_chars_none in Hdot. now rewrite Hdot.
Qed.

End Facts.

End HandlerFacts.

(** C7, as the code has it. When the login at the entry of the scope
    succeeds, the loop of [check_domains] produces exactly one result
    per input domain, in the order of the inputs, the i-th result for
    the i-th domain; a turn whose [try] block raises gives the result
    with [verfuegbar = False] and the text of the exception, and the
    turns after it run as usual.  The handler returns these results
    when the logout at the exit of the scope does not fail, and raises
    the failure of the logout otherwise. *)
Theorem check_domains_results :
  forall (E : env) (domains : list string) (s : state)
         (sid : value) (s1 : state),
    login E (fresh s) = (Ok sid, s1) ->
    exists results s2,
      check_domains_loop E domains [] s1 = (Ok results, s2)
      /\ List.length results = List.length domains
      /\ map DomainCheckResult.domain results = domains
      /\ (forall pre d post,
            domains = pre ++ d :: post ->
            exists res_pre r res_post sa sb,
              check_domains_loop E pre [] s1 = (Ok res_pre, sa)
              /\ check_domains_item E d sa = (Ok r, sb)
              /\ check_domains_loop E post [] sb = (Ok res_post, s2)
              /\ results = res_pre ++ r :: res_post
              /\ List.length res_pre = List.length pre
              /\ (forall e sx,
                    check_domains_try E d sa = (Raise e, sx) ->
                    r = failed_check d e))
      /\ (forall s3,
            logout E s2 = (Ok tt, s3) ->
            check_domains E domains s = (Ok results, s3))
      /\ (forall e s3,
            logout E s2 = (Raise e, s3) ->
            check_domains E domains s = (Raise e, s3)).
Proof.
  intros E domains s sid s1 Hl.
  destruct (HandlerFacts.check_domains_loop_total E domains [] s1)
    as (results & s2 & _ & Hloop & Hmap).
  exists results, s2. split; [exact Hloop|].
  split; [now rewrite <- Hmap, length_map|].
  split; [exact Hmap|]. split; [|split].
  - intros pre d post ->.
    rewrite HandlerFacts.check_domains_loop_app in Hloop.
    destruct (HandlerFacts.check_domains_loop_total E pre [] s1)
      as (res_pre & sa & _ & Hpre & Hmpre).
    rewrite Hpre in Hloop. simpl in Hloop. unfold bind in Hloop.
    destruct (HandlerFacts.check_domains_item_total E d sa)
      as (r & sb & Hitem & _ & Hfail).
    rewrite Hitem in Hloop.
    destruct (HandlerFacts.check_domains_loop_total E post (res_pre ++ [r]) sb)
      as (res_post & s2' & Hpost & Hpost0 & _).
    rewrite Hpost in Hloop. injection Hloop as <- <-.
    exists res_pre, r, res_post, sa, sb.
    repeat split; auto.
    + now rewrite <- app_assoc.
    + now rewrite <- Hmpre, length_map.
  - intros s3 Hout. unfold check_domains.
    rewrite (INWXFacts.with_service_entered E _ s sid s1 Hl), Hloop, Hout.
    reflexivity.
  - intros e s3 Hout. unfold check_domains.
    rewrite (INWXFacts.with_service_entered E _ s sid s1 Hl), Hloop, Hout.
    reflexivity.
Qed.

Lemma check_domains_results_witness :
  login (Sample.world Sample.registrar) (fresh Sample.start)
  = (Ok (VStr "s-1"),
     mkState (VStr "s-1")
       [EvPost (rpc_payload "account.login"
                  (VDict [("user", VStr "user"); ("pass", VStr "secret")]))])
  /\ exists results,
       fst (check_domains (Sample.world Sample.registrar)
              ["free.de"; "taken.com"; "free.de"] Sample.start) = Ok results
       /\ map DomainCheckResult.domain results
          = ["free.de"; "taken.com"; "free.de"].
Proof.
  split; [reflexivity|].
  destruct (check_domains_results (Sample.world Sample.registrar)
              ["free.de"; "taken.com"; "free.de"] Sample.start _ _ eq_refl)
    as (results & s2 & Hloop & _ & Hmap & _ & Hok & _).
  exists results. split; [|exact Hmap].
  assert (Hout : exists s3,
             logout (Sample.world Sample.registrar) s2 = (Ok tt, s3)).
  { vm_compute in Hloop. injection Hloop as _ <-. eexists. reflexivity. }
  destruct Hout as [s3 Hout]. now rewrite (Hok s3 Hout).
Defined.

(** C7 fails as stated: the registrar cannot be reached, the login at
    the entry of the scope raises, and the handler returns no result
    for any of the two domains. *)
Lemma check_domains_raises_at_login :
  check_domains (Sample.world Sample.unreachable) ["free.de"; "taken.com"]
    Sample.start
  = (Raise Sample.connect_error,
     mkState VNone
       [EvPost (rpc_payload "account.login"
                  (VDict [("user", VStr "user"); ("pass", VStr "secret")]))]).
Proof. reflexivity. Qed.

(** The two domains of the specification's scenario. *)
Example check_domains_free_taken :
  fst (check_domains (Sample.world Sample.registrar) ["free.de"; "taken.de"]
         Sample.start)
  = Ok [DomainCheckResult.mk "free.de" true (Some 9.5%float) None;
        DomainCheckResult.mk "taken.de" false (Some 9.5%float)
          (Some "Object does not exist")].
Proof. reflexivity. Qed.

Module RegisterFacts.

Ltac monad :=
  unfold bind, ret, raise, lift, try_except, try_finally, get_session_id,
    set_session_id, emit, get_trace in *; simpl in *.

Lemma get_kunde_by_id_run E kunden_id s rows :
  select_kunden E (trace s) kunden_id = Ok rows ->
  get_kunde_by_id E kunden_id s
  = (Ok (first_row rows), selected s "kunden" "id" kunden_id).
Proof. intros H. unfold get_kunde_by_id. monad. now rewrite H. Qed.

Lemma get_tld_by_name_run E tld s rows :
  select_tld E (trace s) tld = Ok rows ->
  get_tld_by_name E tld s
  = (Ok (first_row rows), selected s "domains_tld" "tld" tld).
Proof. intros H. unfold get_tld_by_name. monad. now rewrite H. Qed.

(** The fake registration touches nothing and reports success. *)
Lemma register_domain_run domain customer_data s :
  exists inwx_result,
    INWXService.register_domain domain customer_data s = (Ok inwx_result, s)
    /\ Value.get inwx_result "success" VNone = Ok (VBool true)
    /\ Value.get inwx_result "domain" VNone = Ok (VStr domain).
Proof. eexists. repeat split. Qed.

Lemma create_domain_registrierung_trace E row s :
  trace (snd (create_domain_registrierung E row s))
  = trace s ++ [EvInsert row].
Proof.
  unfold create_domain_registrierung. monad.
  destruct (insert_registrierung E (trace s) row) as [[|r rs]|e]; reflexivity.
Qed.

(** The state in which the handler opens the registrar session: the
    two queries of the checks are behind it. *)
Definition checked (s : state) (kunden_id tld : string) : state :=
  mkState (session_id s)
    (trace s ++ [EvSelect "kunden" "id" kunden_id;
                 EvSelect "domains_tld" "tld" tld]).

(** The record the handler sends to the data store. *)
Definition record (E : env) (history : list event)
           (kunden_id wunschdomain tld domain : string) (t : TldRow.t)
           (status : string) (inwx_result : value) : RegistrierungData.t :=
  RegistrierungData.mk (uuid4 E history) kunden_id wunschdomain tld domain
    (TldRow.vk_eur t) status (VDict [("domain", VStr domain)]) inwx_result.

(** The return statement of the handler, on the result of the
    registrar and the row of the data store. *)
Definition response (E : env) (inwx_result registrierung : value)
  : outcome DomainRegisterResponse.t :=
  match Value.get inwx_result "success" (VBool false) with
  | Raise e => Raise e
  | Ok ok =>
      match as_domain_registrierung E registrierung with
      | Raise e => Raise e
      | Ok model =>
          match Value.get inwx_result "error" VNone with
          | Raise e => Raise e
          | Ok err => Pydantic.new_DomainRegisterResponse E ok model err
          end
      end
  end.

(** What follows the registrar session in the handler. *)
Definition persist (E : env) (kunden_id wunschdomain tld domain : string)
           (t : TldRow.t) (inwx_result : value)
  : M DomainRegisterResponse.t :=
  fun s =>
    match registration_status inwx_result with
    | Raise e => (Raise e, s)
    | Ok status =>
        let row := record E (trace s) kunden_id wunschdomain tld domain t
                     status inwx_result in
        (match insert_registrierung E (trace s) row with
         | Ok (stored :: _) => response E inwx_result stored
         | Ok [] => Raise (Error "IndexError" "list index out of range")
         | Raise e => Raise e
         end,
         mkState (session_id s) (trace s ++ [EvInsert row]))
    end.

(** A request that passes the three checks: the registrar session,
    then the record. *)
Lemma register_domain_checked E register kunden_id domain s k ks w tl t ts :
  select_kunden E (trace s) kunden_id = Ok (k :: ks) ->
  Str.rsplit_dot domain = [w; tl] ->
  select_tld E (trace s ++ [EvSelect "kunden" "id" kunden_id]) tl
  = Ok (t :: ts) ->
  register_domain_with E register kunden_id domain s
  = match with_service E (register domain (VDict [])) (checked s kunden_id tl)
    with
    | (Ok inwx_result, s') => persist E kunden_id w tl domain t inwx_result s'
    | (Raise e, s') => (Raise e, s')
    end.
Proof.
  intros Hk Hsplit Ht.
  assert (Hdot : Str.contains_dot domain = true).
  { destruct (Str.contains_dot domain) eqn:Hd; [reflexivity|].
    rewrite (HandlerFacts.rsplit_dot_one domain Hd) in Hsplit.
    discriminate. }
  assert (Hs0 : selected (selected s "kunden" "id" kunden_id)
                  "domains_tld" "tld" tl = checked s kunden_id tl).
  { unfold checked, selected. simpl. now rewrite <- app_assoc. }
  unfold register_domain_with. unfold bind at 1.
  rewrite (get_kunde_by_id_run E kunden_id s _ Hk).
  simpl. rewrite Hdot, Hsplit. simpl. unfold bind at 1 2. simpl.
  unfold bind at 1.
  rewrite (get_tld_by_name_run E tl (selected s "kunden" "id" kunden_id) _ Ht).
  simpl. rewrite Hs0. unfold bind at 1.
  destruct (with_service E (register domain (VDict [])) (checked s kunden_id tl))
    as [[inwx_result|e] s']; [|reflexivity].
  unfold persist, response, record, create_domain_registrierung.
  unfold bind, get_trace, emit, lift, ret, raise.
  destruct (registration_status inwx_result) as [status|e]; [|reflexivity].
  cbn [trace session_id].
  destruct (insert_registrierung E (trace s') _) as [[|stored rest]|e];
    try reflexivity.
  destruct (Value.get inwx_result "success" (VBool false)) as [ok|e];
    [|reflexivity].
  destruct (as_domain_registrierung E stored) as [model|e]; [|reflexivity].
  destruct (Value.get inwx_result "error" VNone) as [err|e]; [|reflexivity].
  destruct (Pydantic.new_DomainRegisterResponse E ok model err); reflexivity.
Qed.

(** The handler never inserts but through [persist], once. *)
Lemma persist_trace E kunden_id w tl domain t inwx_result s success :
  Value.get inwx_result "success" VNone = Ok success ->
  trace (snd (persist E kunden_id w tl domain t inwx_result s))
  = trace s
      ++ [EvInsert
            (record E (trace s) kunden_id w tl domain t
               (if Value.truthy success then "registered" else "failed")
               inwx_result)].
Proof.
  intros Hs. unfold persist, registration_status. now rewrite Hs.
Qed.

End RegisterFacts.



(** The customer is looked up first: a request with an unknown
    customer is answered with 404 also when its domain has no dot. *)
Example register_unknown_customer_no_dot :
  Str.contains_dot "nodot" = false
  /\ DomainsApi.register_domain (Sample.world Sample.registrar) "k-2" "nodot"
       Sample.start
     = (Raise (HTTPException 404 "Customer k-2 not found"),
        mkState VNone [EvSelect "kunden" "id" "k-2"]).
Proof. split; reflexivity. Qed.

(** The scenario of the specification: an unknown customer and
    ["shop.de"]. *)
Example register_unknown_customer :
  DomainsApi.register_domain (Sample.world Sample.registrar) "k-2" "shop.de"
    Sample.start
  = (Raise (HTTPException 404 "Customer k-2 not found"),
     mkState VNone [EvSelect "kunden" "id" "k-2"]).
Proof. reflexivity. Qed.

(** C9. A domain with a dot is split at its last dot.  For a request
    that passes the three checks the handler opens the registrar
    session, calls the register operation of the adapter once, closes
    the session and inserts exactly one record: it carries the two
    parts of the split, the full domain, and the status "registered"
    when the result of the register operation has a true "success",
    "failed" otherwise, whatever the adapter answers.  The adapter of
    the program always reports success, so its record has the status
    "registered".  Nothing is inserted when the session cannot be
    opened, when the register operation raises or when the session
    cannot be closed, and nothing is tried again. *)
Theorem register_domain_persists :
  forall (E : env) (register : string -> value -> M value)
         (kunden_id domain : string) (s : state)
         (k : KundeRow.t) (ks : list KundeRow.t),
    select_kunden E (trace s) kunden_id = Ok (k :: ks) ->
    Str.contains_dot domain = true ->
    exists wunschdomain tld,
      Str.rsplit_dot domain = [wunschdomain; tld]
      /\ domain = (wunschdomain ++ "." ++ tld)%string
      /\ Str.contains_dot tld = false
      /\ forall (t : TldRow.t) (ts : list TldRow.t),
           select_tld E (trace s ++ [EvSelect "kunden" "id" kunden_id]) tld
           = Ok (t :: ts) ->
           (forall sid s1 inwx_result s2 s3 success,
               login E
                 (fresh (mkState (session_id s)
                           (trace s
                              ++ [EvSelect "kunden" "id" kunden_id;
                                  EvSelect "domains_tld" "tld" tld])))
               = (Ok sid, s1) ->
               register domain (VDict []) s1 = (Ok inwx_result, s2) ->
               logout E s2 = (Ok tt, s3) ->
               Value.get inwx_result "success" VNone = Ok success ->
               trace (snd (register_domain_with E register kunden_id domain s))
               = trace s3
                   ++ [EvInsert
                         (RegistrierungData.mk
                            (uuid4 E (trace s3))
                            kunden_id
                            wunschdomain
                            tld
                            domain
                            (TldRow.vk_eur t)
                            (if Value.truthy success
                             then "registered" else "failed")
                            (VDict [("domain", VStr domain)])
                            inwx_result)]
               /\ inserts (trace s1) = inserts (trace s)
               /\ inserts (trace s3) = inserts (trace s2))
           /\ (exists inwx_result,
                 (forall s', INWXService.register_domain domain (VDict []) s'
                             = (Ok inwx_result, s'))
                 /\ Value.get inwx_result "success" VNone = Ok (VBool true)
                 /\ forall sid s1 s2,
                      login E
                        (fresh (mkState (session_id s)
                                  (trace s
                                     ++ [EvSelect "kunden" "id" kunden_id;
                                         EvSelect "domains_tld" "tld" tld])))
                      = (Ok sid, s1) ->
                      logout E s1 = (Ok tt, s2) ->
                      trace (snd (DomainsApi.register_domain E kunden_id
                                    domain s))
                      = trace s2
                          ++ [EvInsert
                                (RegistrierungData.mk
                                   (uuid4 E (trace s2))
                                   kunden_id
                                   wunschdomain
                                   tld
                                   domain
                                   (TldRow.vk_eur t)
                                   "registered"
                                   (VDict [("domain", VStr domain)])
                                   inwx_result)]
                      /\ inserts (trace s2) = inserts (trace s))
           /\ (forall e s1,
                 login E
                   (fresh (mkState (session_id s)
                             (trace s
                                ++ [EvSelect "kunden" "id" kunden_id;
                                    EvSelect "domains_tld" "tld" tld])))
                 = (Raise e, s1) ->
                 register_domain_with E register kunden_id domain s
                 = (Raise e, s1)
                 /\ inserts (trace s1) = inserts (trace s))
           /\ (forall sid s1 r2 s2 r3 s3,
                 login E
                   (fresh (mkState (session_id s)
                             (trace s
                                ++ [EvSelect "kunden" "id" kunden_id;
                                    EvSelect "domains_tld" "tld" tld])))
                 = (Ok sid, s1) ->
                 register domain (VDict []) s1 = (r2, s2) ->
                 logout E s2 = (r3, s3) ->
                 (exists e, r2 = Raise e) \/ (exists e, r3 = Raise e) ->
                 (exists e,
                     register_domain_with E register kunden_id domain s
                     = (Raise e, s3))
                 /\ inserts (trace s3) = inserts (trace s2)).
Proof.
  intros E register kunden_id domain s k ks Hk Hdot.
  destruct (HandlerFacts.rsplit_dot_two domain Hdot)
    as (w & tl & Hsplit & Heq & Hnodot).
  exists w, tl. repeat split; auto.
  - (* the registrar answered *)
    rewrite (RegisterFacts.register_domain_checked E register kunden_id
               domain s k ks w tl t ts Hk Hsplit H).
    unfold RegisterFacts.checked.
    rewrite (INWXFacts.with_service_entered E _ _ sid s1 H0), H1, H2.
    now rewrite (RegisterFacts.persist_trace E kunden_id w tl domain t
                   inwx_result s3 success H3).
  - rewrite (INWXFacts.login_inserts E _ _ _ H0).
    unfold inserts. simpl. rewrite filter_app. simpl. apply app_nil_r.
  - exact (INWXFacts.logout_inserts E _ _ _ H2).
  - (* the adapter of the program *)
    pose (r0 := VDict [("success", VBool true);
                       ("domain", VStr domain);
                       ("status", VStr "pending");
                       ("message",
                        VStr "POC: Fake domain registration successful");
                       ("registration_id", VStr ("fake-reg-" ++ domain))]).
    exists r0. split; [intros s'; reflexivity|]. split; [reflexivity|].
    intros sid s1 s2 Hlogin Hlogout. split.
    + unfold DomainsApi.register_domain.
      rewrite (RegisterFacts.register_domain_checked E _ kunden_id
                 domain s k ks w tl t ts Hk Hsplit H).
      unfold RegisterFacts.checked.
      rewrite (INWXFacts.with_service_entered E _ _ sid s1 Hlogin).
      change (INWXService.register_domain domain (VDict []) s1)
        with (@Ok value r0, s1).
      cbn beta iota. rewrite Hlogout.
      exact (RegisterFacts.persist_trace E kunden_id w tl domain t
               r0 s2 (VBool true) eq_refl).
    + rewrite (INWXFacts.logout_inserts E _ _ _ Hlogout).
      rewrite (INWXFacts.login_inserts E _ _ _ Hlogin).
      unfold inserts. simpl. rewrite filter_app. simpl. apply app_nil_r.
  - (* the session cannot be opened *)
    rewrite (RegisterFacts.register_domain_checked E register kunden_id
               domain s k ks w tl t ts Hk Hsplit H).
    unfold RegisterFacts.checked.
    now rewrite (INWXFacts.with_service_not_entered E _ _ e s1 H0).
  - rewrite (INWXFacts.login_inserts E _ _ _ H0).
    unfold inserts. simpl. rewrite filter_app. simpl. apply app_nil_r.
  - (* the register operation or the logout raises *)
    rewrite (RegisterFacts.register_domain_checked E register kunden_id
               domain s k ks w tl t ts Hk Hsplit H).
    unfold RegisterFacts.checked.
    rewrite (INWXFacts.with_service_entered E _ _ sid s1 H0), H1, H2.
    destruct H3 as [[e ->]|[e ->]].
    + destruct r3 as [u|e3]; eauto.
    + exists e. reflexivity.
  - exact (INWXFacts.logout_inserts E _ _ _ H2).
Qed.

Lemma register_domain_persists_witness :
  (Sample.kunden [] Sample.kunde_uuid
   = Ok [KundeRow.mk Sample.kunde_uuid "Tischlerei Beck"]
   /\ Str.contains_dot "my.company.de" = true)
  /\ inserts
       (trace (snd (register_domain_with (Sample.world Sample.registrar)
                      Sample.refusing Sample.kunde_uuid "my.company.de"
                      Sample.start)))
     = [EvInsert
          (RegistrierungData.mk Sample.new_uuid Sample.kunde_uuid
             "my.company" "de" "my.company.de" 9.5%float "failed"
             (VDict [("domain", VStr "my.company.de")])
             (VDict [("success", VBool false);
                     ("error", VStr "Domain not available")]))].
Proof.
  split; [split; reflexivity|].
  destruct (register_domain_persists (Sample.world Sample.registrar)
              Sample.refusing Sample.kunde_uuid "my.company.de"
              Sample.start _ _ eq_refl eq_refl)
    as (w & t & H1 & _ & _ & H4).
  vm_compute in H1. injection H1 as <- <-.
  destruct (H4 _ _ eq_refl) as (Hany & _).
  destruct (Hany _ _ _ _ _ (VBool false) eq_refl eq_refl eq_refl eq_refl)
    as (Htrace & _).
  rewrite Htrace. reflexivity.
Defined.

(** The example of the specification. *)
Example rsplit_my_company :
  Str.rsplit_dot "my.company.de" = ["my.company"; "de"].
Proof. reflexivity. Qed.

Example register_my_company :
  trace (snd (DomainsApi.register_domain (Sample.world Sample.registrar)
                Sample.kunde_uuid "my.company.de" Sample.start))
  = [EvSelect "kunden" "id" Sample.kunde_uuid;
     EvSelect "domains_tld" "tld" "de";
     EvPost (rpc_payload "account.login"
               (VDict [("user", VStr "user"); ("pass", VStr "secret")]));
     EvPost logout_request;
     EvInsert
       (RegistrierungData.mk Sample.new_uuid Sample.kunde_uuid
          "my.company" "de" "my.company.de" 9.5%float "registered"
          (VDict [("domain", VStr "my.company.de")])
          (VDict [("success", VBool true);
                  ("domain", VStr "my.company.de");
                  ("status", VStr "pending");
                  ("message", VStr "POC: Fake domain registration successful");
                  ("registration_id", VStr "fake-reg-my.company.de")]))].
Proof. reflexivity. Qed.

(** The status of a registration the registrar did not confirm. *)
Example registration_status_failed :
  registration_status
    (VDict [("success", VBool false); ("error", VStr "Domain not available")])
  = Ok "failed".
Proof. reflexivity. Qed.

Example registration_status_missing :
  registration_status (VDict [("domain", VStr "shop.de")]) = Ok "failed".
Proof. reflexivity. Qed.

(* ================================================================== *)
(** * [check_domains_batch] of the adapter *)
(* ================================================================== *)

(** X14. With a session at hand the adapter's own batch returns one
    result record per domain, in the order of the domains; it has no
    [except] of its own, and [check_domain] raises only through its
    login. *)
Lemma check_domains_batch_results (E : env) (domains : list string) :
  forall (results : list value) (s : state),
    Value.truthy (session_id s) = true ->
    exists res s',
      check_domains_batch_loop E domains results s = (Ok (results ++ res), s')
      /\ session_id s' = session_id s
      /\ Forall2
           (fun d r =>
              (exists err, r = error_result d err)
              \/ (exists avail price, r = check_result d avail price))
           domains res.
Proof.
  induction domains as [|d ds IH]; intros acc s Hs; simpl.
  - exists [], s. unfold ret. rewrite app_nil_r. auto.
  - unfold bind.
    rewrite (INWXFacts.check_domain_ready E d s s) by (left; auto).
    pose proof (INWXFacts.check_domain_try_state E d s) as Hstate.
    destruct (check_domain_try E d s) as [[r|e] s1] eqn:Htry;
      simpl in Hstate; subst s1.
    + destruct (IH (acc ++ [r]) (posted s (check_request d)) Hs)
        as (res & s' & Hloop & Hsid & Hall).
      exists (r :: res), s'. rewrite Hloop, <- app_assoc.
      repeat split; auto. constructor; auto.
      eapply INWXFacts.check_domain_try_result; eauto.
    + destruct (IH (acc ++ [error_result d (VStr (str_exn e))])
                  (posted s (check_request d)) Hs)
        as (res & s' & Hloop & Hsid & Hall).
      exists (error_result d (VStr (str_exn e)) :: res), s'.
      rewrite Hloop, <- app_assoc.
      repeat split; auto. constructor; auto. left. eauto.
Qed.

(** Called on its own without a session, the batch stops at the login
    of its first domain when the registrar cannot be reached. *)
Example check_domains_batch_unreachable :
  fst (check_domains_batch (Sample.world Sample.unreachable)
         ["free.de"; "taken.de"] Sample.start)
  = Raise Sample.connect_error.
Proof. reflexivity. Qed.

(* ================================================================== *)
(** * Further properties of the suggestion service *)
(* ================================================================== *)

Module VariationFacts.

Lemma existsb_eqb_in v seen :
  existsb (String.eqb v) seen = true <-> In v seen.
Proof.
  rewrite existsb_exists. split.
  - intros (x & Hx & Heq). apply String.eqb_eq in Heq. now subst.
  - intros H. exists v. split; auto. apply String.eqb_refl.
Qed.

(** The loop keeps exactly the values it has not seen, once each, in
    the order of their first occurrence. *)
Lemma unique_from_in seen variations v :
  In v (unique_from seen variations) <-> In v variations /\ ~ In v seen.
Proof.
  revert seen. induction variations as [|x rest IH]; intros seen; simpl.
  - tauto.
  - destruct (existsb (String.eqb x) seen) eqn:Hx.
    + apply existsb_eqb_in in Hx. rewrite IH. split.
      * intros [H1 H2]. auto.
      * intros [[->|H1] H2]; [contradiction|auto].
    + assert (Hx' : ~ In x seen).
      { intros H. apply existsb_eqb_in in H. congruence. }
      simpl. rewrite IH. simpl. split.
      * intros [->|[H1 H2]]; auto.
      * intros [[->|H1] H2]; auto.
        destruct (string_dec x v) as [->|Hne]; auto.
        right. split; auto. intros [H|H]; auto.
Qed.

Lemma unique_from_nodup seen variations :
  NoDup (unique_from seen variations).
Proof.
  revert seen. induction variations as [|x rest IH]; intros seen; simpl.
  - constructor.
  - destruct (existsb (String.eqb x) seen); auto.
    constructor; auto. rewrite unique_from_in. simpl. tauto.
Qed.

Lemma unique_from_id variations : forall seen,
  NoDup variations -> (forall v, In v variations -> ~ In v seen) ->
  unique_from seen variations = variations.
Proof.
  induction variations as [|x rest IH]; intros seen Hnd Hseen; auto.
  cbn [unique_from]. inversion Hnd as [|? ? Hx Hrest]; subst.
  destruct (existsb (String.eqb x) seen) eqn:Hex.
  - apply existsb_eqb_in in Hex. exfalso. apply (Hseen x); simpl; auto.
  - f_equal. apply IH; auto.
    intros v Hv [<-|Hin]; [contradiction|].
    apply (Hseen v); simpl; auto.
Qed.

Lemma unique_from_length seen variations :
  List.length (unique_from seen variations) <= List.length variations.
Proof.
  revert seen. induction variations as [|x rest IH]; intros seen; simpl; auto.
  destruct (existsb (String.eqb x) seen); simpl;
    auto using le_n_S, Nat.le_le_succ_r.
Qed.

Lemma keyword_variations_length base keywords :
  List.length (keyword_variations base keywords) = 2 * List.length keywords.
Proof. induction keywords as [|k rest IH]; simpl; lia. Qed.

Lemma branche_keywords_length branche :
  List.length (branche_keywords branche) <= 3.
Proof.
  unfold branche_keywords.
  repeat match goal with |- context [if ?b then _ else _] => destruct b end;
    simpl; lia.
Qed.

Lemma string_length_chars s : String.length s = List.length (chars s).
Proof. induction s as [|c s IH]; simpl; auto. Qed.

Lemma length_append a b :
  String.length (a ++ b)%string = String.length a + String.length b.
Proof. now rewrite !string_length_chars, chars_append, length_app. Qed.

Lemma append_inv_head (a b c : string) :
  (a ++ b)%string = (a ++ c)%string -> b = c.
Proof.
  intros H. apply chars_inj. apply (f_equal chars) in H.
  rewrite !chars_append in H. now apply app_inv_head in H.
Qed.

(** The base and its three generic variants are four different
    names. *)
Lemma generic_distinct base :
  NoDup [base; (base ++ "-online")%string; ("mein-" ++ base)%string;
         (base ++ "-24")%string].
Proof.
  assert (Hlen : forall a b : string, String.length a <> String.length b ->
                                      a <> b) by (intros a b H ->; auto).
  repeat constructor; simpl; intros H;
    repeat (destruct H as [H|H]); try contradiction;
    try (revert H; apply Hlen; rewrite ?length_append; simpl; lia).
Qed.

(** The candidate list before the duplicates are removed. *)
Lemma generate_variations_unfold base branche :
  exists sector,
    generate_variations base branche
    = unique_from []
        (([base] ++ sector)
           ++ [(base ++ "-online")%string; ("mein-" ++ base)%string;
               (base ++ "-24")%string])
    /\ List.length sector <= 6
    /\ (branche = None \/ branche = Some ""%string
        \/ (exists b, branche = Some b /\ branche_keywords b = []) ->
        sector = []).
Proof.
  unfold generate_variations. destruct branche as [b|].
  - destruct (b =? "")%string eqn:Hb.
    + exists []. rewrite app_nil_r. repeat split; simpl; auto; lia.
    + exists (keyword_variations base (branche_keywords b)).
      split; [reflexivity|]. split.
      * rewrite keyword_variations_length.
        pose proof (branche_keywords_length b). lia.
      * intros [H|[H|(b' & [= <-] & Hk)]]; try discriminate.
        -- injection H as ->. discriminate Hb.
        -- now rewrite Hk.
  - exists []. rewrite app_nil_r. repeat split; simpl; auto; lia.
Qed.

Lemma generate_variations_length base branche :
  4 <= List.length (generate_variations base branche) <= 10.
Proof.
  destruct (generate_variations_unfold base branche)
    as (sector & Heq & Hlen & _).
  split.
  - apply (NoDup_incl_length (generic_distinct base)).
    intros v Hv. rewrite Heq. apply unique_from_in.
    split; [|simpl; tauto].
    destruct Hv as [<-|Hv]; [simpl; auto|].
    apply in_or_app. now right.
  - rewrite Heq. etransitivity; [apply unique_from_length|].
    rewrite !length_app. simpl. lia.
Qed.

End VariationFacts.

(** X1. [generate_variations] starts with the base itself, holds no
    name twice, and holds the three generic variants of the base. *)
Theorem generate_variations_base_first :
  forall (base : string) (branche : option string),
    exists rest,
      generate_variations base branche = base :: rest
      /\ NoDup (base :: rest)
      /\ In (base ++ "-online")%string rest
      /\ In ("mein-" ++ base)%string rest
      /\ In (base ++ "-24")%string rest.
Proof.
  intros base branche.
  destruct (VariationFacts.generate_variations_unfold base branche)
    as (sector & Heq & _ & _).
  set (generic := [(base ++ "-online")%string; ("mein-" ++ base)%string;
                   (base ++ "-24")%string]) in *.
  assert (Heq' : generate_variations base branche
                 = base :: unique_from [base] (sector ++ generic)).
  { rewrite Heq, <- app_assoc. reflexivity. }
  exists (unique_from [base] (sector ++ generic)).
  split; [exact Heq'|]. split.
  { rewrite <- Heq', Heq. apply VariationFacts.unique_from_nodup. }
  pose proof (VariationFacts.generic_distinct base) as Hgen.
  fold generic in Hgen. inversion Hgen as [|? ? Hnot _]; subst.
  assert (Hin : forall v, In v generic ->
                          In v (unique_from [base] (sector ++ generic))).
  { intros v Hv. apply VariationFacts.unique_from_in. split.
    - apply in_or_app. now right.
    - intros [<-|[]]. contradiction. }
  repeat split; apply Hin; unfold generic; cbn [In]; auto.
Qed.

(** X2. [generate_variations] returns between four and ten names.
    Without a sector, with the empty sector or with a sector that has
    no keywords it returns exactly the base and its three generic
    variants, in this order. *)
Theorem generate_variations_size :
  forall (base : string) (branche : option string),
    4 <= List.length (generate_variations base branche) <= 10
    /\ (branche = None \/ branche = Some ""%string
        \/ (exists b, branche = Some b /\ branche_keywords b = []) ->
        generate_variations base branche
        = [base; (base ++ "-online")%string; ("mein-" ++ base)%string;
           (base ++ "-24")%string]).
Proof.
  intros base branche.
  destruct (VariationFacts.generate_variations_unfold base branche)
    as (sector & Heq & Hlen & Hnone).
  pose proof (VariationFacts.generic_distinct base) as Hgen.
  split; [apply VariationFacts.generate_variations_length|].
  intros H. rewrite Heq, (Hnone H).
  apply VariationFacts.unique_from_id; auto.
Qed.

(** X3. The suggestions returned are the first [max_suggestions]
    combinations in the order of their creation (candidate tokens
    outside, TLD rows inside), rearranged: the limit is applied before
    the sort.  Each of them has no availability yet and carries the
    name, price and priority of one of the fetched TLD rows. *)
Theorem generate_suggestions_first_combinations :
  forall (transliterate : string -> string)
         (get_tlds_for_country : string -> Z -> outcome (list TldRow.t))
         (wunschdomain_basis land : string) (branche : option string)
         (max_suggestions : Z) (out : list DomainSuggestion.t),
    generate_suggestions transliterate get_tlds_for_country
      wunschdomain_basis land branche max_suggestions = Ok out ->
    exists tlds,
      get_tlds_for_country land 10%Z = Ok tlds
      /\ Permutation out
           (firstn (Z.to_nat max_suggestions)
              (combinations
                 (clean_domain_name transliterate wunschdomain_basis)
                 (firstn 5
                    (generate_variations
                       (clean_domain_name transliterate wunschdomain_basis)
                       branche))
                 tlds))
      /\ forall s, In s out ->
           DomainSuggestion.verfuegbar s = None
           /\ exists tld_data,
                In tld_data tlds
                /\ DomainSuggestion.tld s = TldRow.tld tld_data
                /\ DomainSuggestion.preis_eur s = TldRow.vk_eur tld_data
                /\ DomainSuggestion.prio s = TldRow.prio tld_data.
Proof.
  intros tr db base land branche mx out Hg.
  destruct (generate_suggestions_ok _ _ _ _ _ _ _ Hg) as (tlds & Hdb & ->).
  exists tlds. split; [exact Hdb|].
  rewrite SuggestionFacts.built_suggestions_spec. split.
  - apply SortFacts.sort_perm.
  - intros s Hs. apply SortFacts.sort_in in Hs.
    apply SuggestionFacts.in_firstn in Hs.
    destruct (SuggestionFacts.combinations_in _ _ _ _ Hs)
      as (v & t & _ & Ht & ->).
    split; [reflexivity|]. exists t. repeat split; auto.
Qed.

Lemma generate_suggestions_first_combinations_witness :
  generate_suggestions drop_non_ascii sample_get_tlds
    "Muller GmbH" "DE" (Some "handwerker") 5 = Ok sample_suggestions
  /\ exists tlds,
       sample_get_tlds "DE" 10%Z = Ok tlds
       /\ Permutation sample_suggestions
            (firstn 5
               (combinations
                  (clean_domain_name drop_non_ascii "Muller GmbH")
                  (firstn 5
                     (generate_variations
                        (clean_domain_name drop_non_ascii "Muller GmbH")
                        (Some "handwerker")))
                  tlds)).
Proof.
  assert (Hg : generate_suggestions drop_non_ascii sample_get_tlds
                 "Muller GmbH" "DE" (Some "handwerker") 5
               = Ok sample_suggestions) by (vm_compute; reflexivity).
  split; [exact Hg|].
  destruct (generate_suggestions_first_combinations drop_non_ascii
              sample_get_tlds "Muller GmbH" "DE" (Some "handwerker") 5
              sample_suggestions Hg) as (tlds & Hdb & Hperm & _).
  exists tlds. split; [exact Hdb|exact Hperm].
Defined.

(** X4. The edges of [generate_suggestions]: an exception of the data
    store is passed on; a limit of zero or below gives the empty list;
    so does an empty list of TLD rows. *)
Theorem generate_suggestions_edges :
  forall (transliterate : string -> string)
         (get_tlds_for_country : string -> Z -> outcome (list TldRow.t))
         (wunschdomain_basis land : string) (branche : option string)
         (max_suggestions : Z),
    (forall e,
        get_tlds_for_country land 10%Z = Raise e ->
        generate_suggestions transliterate get_tlds_for_country
          wunschdomain_basis land branche max_suggestions = Raise e)
    /\ (forall tlds,
          get_tlds_for_country land 10%Z = Ok tlds ->
          (max_suggestions <= 0)%Z ->
          generate_suggestions transliterate get_tlds_for_country
            wunschdomain_basis land branche max_suggestions = Ok [])
    /\ (get_tlds_for_country land 10%Z = Ok [] ->
        generate_suggestions transliterate get_tlds_for_country
          wunschdomain_basis land branche max_suggestions = Ok []).
Proof.
  intros tr db base land branche mx. split; [|split].
  - intros e He. unfold generate_suggestions. now rewrite He.
  - intros tlds Hdb Hmx. unfold generate_suggestions. rewrite Hdb.
    rewrite SuggestionFacts.slice_built,
      SuggestionFacts.built_suggestions_spec.
    replace (Z.to_nat mx) with 0 by lia. reflexivity.
  - intros Hdb. unfold generate_suggestions. rewrite Hdb.
    rewrite SuggestionFacts.slice_built,
      SuggestionFacts.built_suggestions_spec.
    assert (Hnil : forall vs, combinations (clean_domain_name tr base) vs []
                              = []).
    { induction vs as [|v vs IH]; simpl; auto. }
    now rewrite Hnil, firstn_nil.
Qed.

Lemma generate_suggestions_edges_witness :
  (sample_get_tlds "DE" 10%Z = Ok sample_tlds /\ (0 <= 0)%Z)
  /\ generate_suggestions drop_non_ascii sample_get_tlds
       "Muller GmbH" "DE" None 0 = Ok [].
Proof.
  split; [split; [reflexivity|lia]|].
  exact (proj1 (proj2 (generate_suggestions_edges drop_non_ascii
                         sample_get_tlds "Muller GmbH" "DE" None 0))
           sample_tlds eq_refl ltac:(lia)).
Defined.

(** X5. [suggest_domains] for a request whose limit is in the range
    of the schema, with at least one TLD row fetched: the response
    holds at least one suggestion and at most [max_suggestions], not
    fewer than four per TLD row up to the limit, and gives the base
    back as it was sent, not normalised. *)
Theorem suggest_domains_response :
  forall (transliterate : string -> string)
         (get_tlds_for_country : string -> Z -> outcome (list TldRow.t))
         (request : DomainSuggestionRequest.t)
         (tld_data : TldRow.t) (tlds : list TldRow.t),
    max_suggestions_in_range request ->
    get_tlds_for_country (DomainSuggestionRequest.land request) 10%Z
    = Ok (tld_data :: tlds) ->
    exists response,
      suggest_domains transliterate get_tlds_for_country request = Ok response
      /\ DomainSuggestionResponse.wunschdomain_basis response
         = DomainSuggestionRequest.wunschdomain_basis request
      /\ 1 <= List.length (DomainSuggestionResponse.suggestions response)
      /\ (Z.of_nat (List.length (DomainSuggestionResponse.suggestions response))
          <= DomainSuggestionRequest.max_suggestions request)%Z
      /\ (Z.min (4 * Z.of_nat (List.length (tld_data :: tlds)))
            (DomainSuggestionRequest.max_suggestions request)
          <= Z.of_nat
               (List.length (DomainSuggestionResponse.suggestions response)))%Z.
Proof.
  intros tr db [base land branche mx] t tlds [Hlo Hhi] Hdb.
  unfold suggest_domains, generate_suggestions. simpl in *. rewrite Hdb.
  eexists. split; [reflexivity|]. simpl.
  rewrite SuggestionFacts.slice_built, SortFacts.sort_length,
    SuggestionFacts.built_suggestions_spec, length_firstn,
    SuggestionFacts.combinations_length, length_firstn.
  destruct (VariationFacts.generate_variations_length
              (clean_domain_name tr base) branche) as [Hmin _].
  simpl List.length. repeat split; try nia.
Qed.

Lemma suggest_domains_response_witness :
  (max_suggestions_in_range
     (DomainSuggestionRequest.mk "Muller GmbH" "DE" (Some "handwerker") 5)
   /\ sample_get_tlds "DE" 10%Z = Ok sample_tlds)
  /\ exists response,
       suggest_domains drop_non_ascii sample_get_tlds
         (DomainSuggestionRequest.mk "Muller GmbH" "DE" (Some "handwerker") 5)
       = Ok response
       /\ DomainSuggestionResponse.wunschdomain_basis response = "Muller GmbH"
       /\ 1 <= List.length (DomainSuggestionResponse.suggestions response).
Proof.
  assert (Hr : max_suggestions_in_range
                 (DomainSuggestionRequest.mk "Muller GmbH" "DE"
                    (Some "handwerker") 5))
    by (unfold max_suggestions_in_range; simpl; lia).
  split; [split; [exact Hr|reflexivity]|].
  destruct (suggest_domains_response drop_non_ascii sample_get_tlds
              (DomainSuggestionRequest.mk "Muller GmbH" "DE"
                 (Some "handwerker") 5) _ _ Hr eq_refl)
    as (response & H1 & H2 & H3 & _).
  exists response. repeat split; assumption.
Defined.

(* ================================================================== *)
(** * Further properties of [clean_domain_name] *)
(* ================================================================== *)

Module TrailingFacts.

Import Pipeline Token PipelineFacts.

Definition space : ascii := " "%char.

(** No character of a pattern is a space. *)
Definition plain (w : list ascii) : Prop :=
  Forall (fun p => Ascii.eqb (lower_char space) p = false) w.

Lemma alternatives_plain w : In w suffix_alternatives -> plain (chars w).
Proof.
  unfold suffix_alternatives. simpl.
  intros H. repeat (destruct H as [<-|H]); try contradiction;
    repeat constructor.
Qed.

Definition behind (r : list ascii) (res : option ascii * list ascii)
  : option ascii * list ascii :=
  (fst res, snd res ++ space :: r).

(** A literal does not match across a space, and a space behind the
    text changes no match inside it. *)
Lemma match_literal_behind w : forall prev x r,
  plain w ->
  match_literal w prev (x ++ space :: r)
  = option_map (behind r) (match_literal w prev x).
Proof.
  induction w as [|p w IH]; intros prev x r Hw.
  - reflexivity.
  - inversion Hw as [|? ? Hp Hw']; subst.
    destruct x as [|c x]; cbn [app match_literal option_map].
    + now rewrite Hp.
    + destruct (Ascii.eqb (lower_char c) p); auto.
Qed.

Lemma boundary_behind l rest r :
  boundary l (hd_error (rest ++ space :: r)) = boundary l (hd_error rest).
Proof. destruct rest; reflexivity. Qed.

Lemma match_alternative_behind prev x r w :
  In w suffix_alternatives ->
  match_alternative prev (x ++ space :: r) w = match_alternative prev x w.
Proof.
  intros Hw. unfold match_alternative.
  rewrite (match_literal_behind _ prev x r (alternatives_plain w Hw)).
  destruct (match_literal (chars w) prev x) as [[l rest]|]; simpl; auto.
  now rewrite boundary_behind.
Qed.

Lemma first_match_behind prev x r ws :
  incl ws suffix_alternatives ->
  first_match prev (x ++ space :: r) ws = first_match prev x ws.
Proof.
  induction ws as [|w ws IH]; intros Hin; simpl; auto.
  rewrite match_alternative_behind by (apply Hin; simpl; auto).
  destruct (match_alternative prev x w); auto.
  apply IH. intros v Hv. apply Hin. simpl. auto.
Qed.

Lemma match_suffix_behind prev c x r :
  match_suffix prev ((c :: x) ++ space :: r) = match_suffix prev (c :: x).
Proof.
  unfold match_suffix. simpl hd_error.
  destruct (boundary prev (Some c)); auto.
  apply (first_match_behind prev (c :: x) r). apply incl_refl.
Qed.

(** A match lies inside the text. *)
Lemma match_suffix_inside prev x n :
  match_suffix prev x = Some n -> n <= List.length x.
Proof.
  unfold match_suffix. destruct (boundary prev (hd_error x)); [|discriminate].
  intros H. apply first_match_some in H as (w & _ & Hm).
  unfold match_alternative in Hm.
  destruct (match_literal (chars w) prev x) as [[l rest]|] eqn:Hl;
    [|discriminate].
  destruct (boundary l (hd_error rest)); [|discriminate].
  injection Hm as <-.
  apply match_literal_sound in Hl as (m & -> & Hm' & _).
  rewrite <- Hm', length_map, length_app. lia.
Qed.

(** The scan of a text with a space behind it is the scan of the text,
    followed by the scan of what starts at the space. *)
Lemma sub_scan_behind x : forall prev skip r,
  skip <= List.length x ->
  sub_scan prev skip (x ++ space :: r)
  = sub_scan prev skip x ++ sub_scan (last_opt prev x) 0 (space :: r).
Proof.
  induction x as [|c x IH]; intros prev skip r Hskip.
  - simpl in Hskip. replace skip with 0 by lia. reflexivity.
  - change ((c :: x) ++ space :: r) with (c :: (x ++ space :: r)).
    cbn [sub_scan]. destruct skip as [|k].
    + change (c :: (x ++ space :: r)) with ((c :: x) ++ space :: r).
      rewrite match_suffix_behind.
      destruct (match_suffix prev (c :: x)) as [[|k]|] eqn:Hm.
      * simpl. f_equal. apply IH. lia.
      * apply match_suffix_inside in Hm. simpl in Hm.
        apply IH. lia.
      * simpl. f_equal. apply IH. lia.
    + simpl in Hskip. apply IH. lia.
Qed.

(** At the space nothing matches, and the legal form behind it is
    matched as a whole. *)
Lemma sub_scan_space_word prev w :
  In w suffix_words ->
  sub_scan prev 0 (space :: chars w) = [space].
Proof.
  intros Hw.
  assert (Hsp : match_suffix prev (space :: chars w) = None).
  { unfold match_suffix. destruct (boundary prev _); reflexivity. }
  cbn [sub_scan]. rewrite Hsp. f_equal.
  unfold suffix_words in Hw. simpl in Hw.
  repeat (destruct Hw as [<-|Hw]); try contradiction; reflexivity.
Qed.

Lemma remove_suffixes_trailing x w :
  In w suffix_words ->
  remove_suffixes (x ++ space :: chars w) = remove_suffixes x ++ [space].
Proof.
  intros Hw. unfold remove_suffixes.
  rewrite sub_scan_behind by lia. now rewrite sub_scan_space_word.
Qed.

(** ** The later steps on a text with one separator behind it *)

Lemma collapse_from_behind t : forall b,
  exists tail,
    collapse_from b (t ++ [space]) = collapse_from b t ++ tail
    /\ (tail = [] \/ tail = [hyphen]).
Proof.
  induction t as [|c t IH]; intros b.
  - destruct b; simpl; eauto.
  - simpl. destruct (is_sep c).
    + destruct b.
      * destruct (IH true) as (tail & -> & Ht). eauto.
      * destruct (IH true) as (tail & -> & Ht). exists tail. auto.
    + destruct (IH false) as (tail & -> & Ht). exists tail. auto.
Qed.

Lemma lstrip_app_hyphen u :
  lstrip (u ++ [hyphen]) = lstrip u ++ [hyphen] \/
  (lstrip (u ++ [hyphen]) = [] /\ lstrip u = []).
Proof.
  induction u as [|c u IH]; simpl.
  - right. auto.
  - destruct (is_hyphen c); auto.
Qed.

Lemma strip_behind u tail :
  tail = [] \/ tail = [hyphen] -> strip (u ++ tail) = strip u.
Proof.
  intros [->| ->]; [now rewrite app_nil_r|].
  unfold strip.
  destruct (lstrip_app_hyphen u) as [->|[-> ->]]; [|reflexivity].
  unfold rstrip. rewrite rev_app_distr. reflexivity.
Qed.

Lemma lower_app a b : lower (a ++ b) = lower a ++ lower b.
Proof. apply map_app. Qed.

(** The pipeline on a text followed by a space and a legal form. *)
Lemma after_unidecode_trailing x f w :
  In w suffix_words -> lower f = chars w ->
  after_unidecode (x ++ space :: f) = after_unidecode x.
Proof.
  intros Hw Hf. unfold after_unidecode.
  rewrite lower_app. cbn [lower map]. fold (lower f). rewrite Hf.
  change (lower_char space) with space.
  rewrite (remove_suffixes_trailing _ w Hw).
  unfold strip_special. rewrite filter_app. cbn [filter].
  change (keep_char space) with true.
  unfold collapse.
  destruct (collapse_from_behind (filter keep_char (remove_suffixes (lower x)))
              false) as (tail & -> & Ht).
  now apply strip_behind.
Qed.

Lemma lower_char_ascii7 c :
  is_ascii7 (lower_char c) = true -> is_ascii7 c = true.
Proof.
  unfold lower_char. destruct (is_upper c) eqn:Hu; auto.
  intros _. char_arith.
Qed.

Lemma lower_ascii7 f :
  forallb is_ascii7 (lower f) = true -> forallb is_ascii7 f = true.
Proof.
  induction f as [|c f IH]; simpl; auto.
  intros H. apply andb_true_iff in H as [Hc Hf].
  now rewrite (lower_char_ascii7 c Hc), (IH Hf).
Qed.

Lemma suffix_words_ascii7 w :
  In w suffix_words -> forallb is_ascii7 (chars w) = true.
Proof.
  unfold suffix_words. simpl.
  intros H. repeat (destruct H as [<-|H]); try contradiction; reflexivity.
Qed.

End TrailingFacts.

(** X6. A legal form at the end of a name is dropped: for 7-bit text,
    a name followed by a space and one of gmbh, ag, kg, ohg, gbr, ev,
    ug, mbh, in any mix of upper and lower case, is normalised to what
    the name alone is normalised to. *)
Theorem clean_domain_name_trailing_form :
  forall (transliterate : string -> string) (name form w : string),
    forallb is_ascii7 (chars name) = true ->
    In w Token.suffix_words ->
    lowercase form = w ->
    clean_domain_name transliterate (name ++ " " ++ form)
    = clean_domain_name transliterate name.
Proof.
  intros tr name form w Hname Hw Hform.
  assert (Hf : Pipeline.lower (chars form) = chars w).
  { unfold lowercase in Hform. rewrite <- Hform. now rewrite chars_text. }
  assert (Hform7 : forallb is_ascii7 (chars form) = true).
  { apply TrailingFacts.lower_ascii7. rewrite Hf.
    now apply TrailingFacts.suffix_words_ascii7. }
  unfold clean_domain_name, unidecode.
  rewrite Hname.
  assert (Hall : forallb is_ascii7 (chars (name ++ " " ++ form)) = true).
  { rewrite !chars_append, !forallb_app, Hname, Hform7. reflexivity. }
  rewrite Hall. f_equal.
  rewrite !chars_append.
  apply (TrailingFacts.after_unidecode_trailing (chars name) (chars form) w);
    assumption.
Qed.

Lemma clean_domain_name_trailing_form_witness :
  (forallb is_ascii7 (chars "Schreinerei Muller") = true
   /\ In "gmbh" Token.suffix_words
   /\ lowercase "GmbH" = "gmbh")
  /\ clean_domain_name drop_non_ascii ("Schreinerei Muller" ++ " " ++ "GmbH")
     = clean_domain_name drop_non_ascii "Schreinerei Muller".
Proof.
  split; [repeat split; simpl; auto|].
  apply (clean_domain_name_trailing_form drop_non_ascii
           "Schreinerei Muller" "GmbH" "gmbh");
    [reflexivity|simpl; auto|reflexivity].
Defined.

(** X7. Normalising never makes a name longer than what [unidecode]
    made of it; the empty name stays empty. *)
Theorem clean_domain_name_length :
  forall (transliterate : string -> string) (name : string),
    String.length (clean_domain_name transliterate name)
    <= String.length (unidecode transliterate name)
    /\ clean_domain_name transliterate "" = "".
Proof.
  intros tr name. split; [|reflexivity].
  unfold clean_domain_name.
  rewrite !VariationFacts.string_length_chars, chars_text.
  etransitivity; [apply PipelineFacts.after_unidecode_length|].
  etransitivity; [apply PipelineFacts.sub_scan_length|].
  unfold Pipeline.lower. now rewrite length_map.
Qed.

(* ================================================================== *)
(** * Further properties of [INWXService] *)
(* ================================================================== *)

(** X8. [_call_api] posts exactly one request and leaves the session
    id alone, whatever comes back.  A failure of the transport is
    raised as it is; a body with the key "error" raises a
    [ValueError] with the text of the error; a body without it gives
    its "result", or the empty dict when it has none; a body that is
    no JSON object never gives a result. *)
Theorem call_api_outcomes :
  forall (E : env) (method : string) (params : value) (s : state),
    snd (_call_api E method params s) = posted s (rpc_payload method params)
    /\ (forall e,
          post E (trace s) (rpc_payload method params) = Raise e ->
          fst (_call_api E method params s) = Raise e)
    /\ (forall items err,
          post E (trace s) (rpc_payload method params) = Ok (VDict items) ->
          Value.lookup "error" items = Some err ->
          fst (_call_api E method params s)
          = Raise (Error "ValueError" ("INWX API Error: " ++ py_str E err)))
    /\ (forall items,
          post E (trace s) (rpc_payload method params) = Ok (VDict items) ->
          Value.lookup "error" items = None ->
          fst (_call_api E method params s)
          = Ok (match Value.lookup "result" items with
                | Some result => result
                | None => VDict []
                end))
    /\ (forall data,
          post E (trace s) (rpc_payload method params) = Ok data ->
          is_dict data = false ->
          exists e, fst (_call_api E method params s) = Raise e).
Proof.
  intros E method params s.
  split; [apply INWXFacts.call_api_state|].
  unfold _call_api, bind, get_trace, emit, lift, raise. simpl.
  repeat split.
  - intros e ->. reflexivity.
  - intros items err -> Herr. simpl. now rewrite Herr.
  - intros items -> Herr. simpl. rewrite Herr. simpl.
    destruct (Value.lookup "result" items); reflexivity.
  - intros data -> Hd.
    destruct data as [| b | n | f | str | l | items]; try discriminate Hd;
      simpl; eauto.
    + destruct (Value.is_substring "error" str); simpl; eauto.
    + destruct (existsb (Value.is_str "error") l); simpl; eauto.
Qed.

Lemma call_api_outcomes_witness :
  post (Sample.world Sample.registrar) [] (logout_request)
  = Ok (VDict [("jsonrpc", VStr "2.0");
               ("result",
                VDict [("code", VInt 1000);
                       ("msg", VStr "Command completed successfully")])])
  /\ fst (_call_api (Sample.world Sample.registrar) "account.logout" VNone
            Sample.start)
     = Ok (VDict [("code", VInt 1000);
                  ("msg", VStr "Command completed successfully")]).
Proof.
  split; [reflexivity|].
  exact (proj1 (proj2 (proj2 (proj2
           (call_api_outcomes (Sample.world Sample.registrar)
              "account.logout" VNone Sample.start))))
           _ eq_refl eq_refl).
Defined.

(** X9. [login] posts one request.  When it raises, for whatever
    reason, the session id is what it was; when it returns, the value
    it returns is the new session id. *)
Theorem login_session :
  forall (E : env) (s : state) (r : outcome value) (s1 : state),
    login E s = (r, s1) ->
    trace s1 = trace s ++ [EvPost (login_request E)]
    /\ (forall e, r = Raise e -> session_id s1 = session_id s)
    /\ (forall sid, r = Ok sid -> session_id s1 = sid).
Proof.
  intros E s r s1 Hl.
  pose proof (INWXFacts.login_state E s) as Ht. rewrite Hl in Ht.
  split; [exact Ht|]. clear Ht.
  unfold login, bind, lift, raise, ret, set_session_id in Hl.
  pose proof (INWXFacts.call_api_state E "account.login"
                (VDict [("user", VStr (inwx_username E));
                        ("pass", VStr (inwx_password E))]) s) as Hs.
  destruct (_call_api E "account.login" _ s) as [[result|e0] s'];
    simpl in Hs; subst s'.
  - destruct (Value.get result "code" VNone) as [code|e1].
    + destruct (negb (Value.eq_int code 1000 1000)).
      * destruct (Value.get result "msg" VNone) as [msg|e2];
          injection Hl as <- <-; split; intros; try discriminate; reflexivity.
      * destruct (Value.get result "resData" (VDict [])) as [rd|e2].
        -- destruct (Value.get rd "sessid" VNone) as [sid|e3];
             injection Hl as <- <-; split; intros x Hx;
             try discriminate Hx; try reflexivity.
           now injection Hx as <-.
        -- injection Hl as <- <-. split; intros; try discriminate; reflexivity.
    + injection Hl as <- <-. split; intros; try discriminate; reflexivity.
  - injection Hl as <- <-. split; intros; try discriminate; reflexivity.
Qed.

Lemma login_session_witness :
  login (Sample.world Sample.registrar) Sample.start
  = (Ok (VStr "s-1"),
     mkState (VStr "s-1")
       [EvPost (login_request (Sample.world Sample.registrar))])
  /\ session_id
       (mkState (VStr "s-1")
          [EvPost (login_request (Sample.world Sample.registrar))])
     = VStr "s-1".
Proof.
  split; [reflexivity|].
  exact (proj2 (proj2 (login_session (Sample.world Sample.registrar)
                         Sample.start _ _ eq_refl))
           (VStr "s-1") eq_refl).
Defined.

(** X10. What [check_domain] sends.  With a session it posts the one
    [domain.check] request and keeps the session.  Without a session
    it logs in first: when the login raises, the operation raises the
    same exception after that one request; otherwise the check request
    follows. *)
Theorem check_domain_requests :
  forall (E : env) (domain : string) (s : state)
         (r : outcome value) (s' : state),
    check_domain E domain s = (r, s') ->
    (Value.truthy (session_id s) = true ->
     s' = posted s (check_request domain) /\ exists v, r = Ok v)
    /\ (Value.truthy (session_id s) = false ->
        (exists e, login E s = (Raise e, s') /\ r = Raise e
                   /\ trace s' = trace s ++ [EvPost (login_request E)])
        \/ (exists sid v,
               fst (login E s) = Ok sid /\ r = Ok v
               /\ session_id s' = sid
               /\ trace s'
                  = trace s ++ [EvPost (login_request E);
                                EvPost (check_request domain)])).
Proof.
  intros E domain s r s' Hc. split.
  - intros Ht.
    rewrite (INWXFacts.check_domain_ready E domain s s) in Hc
      by (left; auto).
    pose proof (INWXFacts.check_domain_try_state E domain s) as Hs.
    destruct (check_domain_try E domain s) as [[v|e] s2]; simpl in Hs;
      subst s2; injection Hc as <- <-; eauto.
  - intros Hf.
    destruct (login E s) as [[sid|e] s1] eqn:Hl.
    + right.
      rewrite (INWXFacts.check_domain_ready E domain s s1) in Hc
        by (right; eauto).
      pose proof (INWXFacts.login_state E s) as Ht. rewrite Hl in Ht.
      simpl in Ht.
      assert (Hsid : session_id s1 = sid).
      { unfold login, bind, lift, raise, ret, set_session_id in Hl.
        destruct (_call_api E "account.login" _ s) as [[result|e0] s0];
          [|discriminate].
        destruct (Value.get result "code" VNone) as [code|e1];
          [|discriminate].
        destruct (negb (Value.eq_int code 1000 1000)).
        - destruct (Value.get result "msg" VNone); discriminate.
        - destruct (Value.get result "resData" (VDict [])) as [rd|e2];
            [|discriminate].
          destruct (Value.get rd "sessid" VNone) as [x|e3]; [|discriminate].
          now injection Hl as <- <-. }
      pose proof (INWXFacts.check_domain_try_state E domain s1) as Hs.
      exists sid.
      destruct (check_domain_try E domain s1) as [[v|e] s2]; simpl in Hs;
        subst s2; injection Hc as <- <-; eexists;
        (split; [reflexivity|]); (split; [reflexivity|]);
        (split; [exact Hsid|]); unfold posted; simpl;
        now rewrite Ht, <- app_assoc.
    + left. exists e.
      pose proof (INWXFacts.login_state E s) as Ht. rewrite Hl in Ht.
      unfold check_domain, bind, get_session_id in Hc. simpl in Hc.
      rewrite Hf in Hc. simpl in Hc. unfold bind in Hc. rewrite Hl in Hc.
      injection Hc as <- <-. auto.
Qed.

Lemma check_domain_requests_witness :
  check_domain (Sample.world Sample.registrar) "free.de"
    (mkState (VStr "s-1") [])
  = (Ok (check_result "free.de" true (VFloat 10%float)),
     posted (mkState (VStr "s-1") []) (check_request "free.de"))
  /\ exists v, Ok (check_result "free.de" true (VFloat 10%float)) = Ok v.
Proof.
  split; [reflexivity|].
  exact (proj2 (proj1 (check_domain_requests (Sample.world Sample.registrar)
                         "free.de" (mkState (VStr "s-1") []) _ _ eq_refl)
                  eq_refl)).
Defined.

(** X11. How [check_domain] reads an answer with the code 1000.  The
    domain is reported available exactly when the flag "avail" of
    "resData" equals 1, and then with the status "available",
    otherwise with "registered"; the price is passed on as the
    registrar sent it.  An answer without "resData" counts as not
    available. *)
Theorem check_domain_availability :
  forall (E : env) (domain : string) (s s1 s2 : state)
         (items : list (string * value)) (code : value),
    session_ready E s s1 ->
    _call_api E "domain.check" (VDict [("domain", VStr domain)]) s1
    = (Ok (VDict items), s2) ->
    Value.lookup "code" items = Some code ->
    Value.eq_int code 1000 1000 = true ->
    (forall res_data,
        Value.lookup "resData" items = Some (VDict res_data) ->
        exists avail,
          fst (check_domain E domain s)
          = Ok (check_result domain avail
                  (match Value.lookup "price" res_data with
                   | Some price => price
                   | None => VNone
                   end))
          /\ (avail = true
              <-> exists flag,
                    Value.lookup "avail" res_data = Some flag
                    /\ Value.eq_int flag 1 1 = true)
          /\ Value.get (check_result domain avail VNone) "status" VNone
             = Ok (VStr (if avail then "available" else "registered")))
    /\ (Value.lookup "resData" items = None ->
        fst (check_domain E domain s)
        = Ok (check_result domain false VNone)).
Proof.
  intros E domain s s1 s2 items code Hready Hcall Hcode Heq.
  rewrite (INWXFacts.check_domain_ready E domain s s1 Hready).
  unfold check_domain_try, bind, lift, ret. rewrite Hcall. simpl.
  rewrite Hcode. simpl. rewrite Heq. simpl. split.
  - intros rd Hrd. rewrite Hrd. simpl.
    destruct (Value.lookup "avail" rd) as [flag|] eqn:Ha; simpl.
    + exists (Value.eq_int flag 1 1). split.
      * destruct (Value.lookup "price" rd); reflexivity.
      * split; [|destruct (Value.eq_int flag 1 1); reflexivity].
        split.
        -- intros H. exists flag. auto.
        -- intros (f & [= <-] & H). exact H.
    + exists false. split.
      * destruct (Value.lookup "price" rd); reflexivity.
      * split; [|reflexivity]. split; [discriminate|].
        intros (f & Hf & _). discriminate Hf.
  - intros Hrd. rewrite Hrd. reflexivity.
Qed.

Lemma check_domain_availability_witness :
  (session_ready (Sample.world Sample.registrar)
     (mkState (VStr "s-1") []) (mkState (VStr "s-1") [])
   /\ Value.eq_int (VInt 1000) 1000 1000 = true)
  /\ fst (check_domain (Sample.world Sample.registrar) "free.de"
            (mkState (VStr "s-1") []))
     = Ok (check_result "free.de" true (VFloat 10%float)).
Proof.
  assert (Hready : session_ready (Sample.world Sample.registrar)
                     (mkState (VStr "s-1") []) (mkState (VStr "s-1") []))
    by (left; split; reflexivity).
  split; [split; [exact Hready|reflexivity]|].
  destruct (proj1 (check_domain_availability (Sample.world Sample.registrar)
                     "free.de" _ _ _ _ (VInt 1000) Hready eq_refl eq_refl
                     eq_refl)
              [("avail", VInt 1); ("price", VFloat 10%float)] eq_refl)
    as (avail & Hres & Hav & _).
  rewrite Hres. simpl.
  assert (Ha : avail = true).
  { apply Hav. exists (VInt 1). split; reflexivity. }
  now rewrite Ha.
Defined.

(** X12. After [logout], however it ended, the adapter holds no
    session, and a second [logout] sends nothing and returns. *)
Theorem logout_twice :
  forall (E : env) (s : state) (r : outcome unit) (s1 : state),
    logout E s = (r, s1) ->
    Value.truthy (session_id s1) = false
    /\ logout E s1 = (Ok tt, s1).
Proof.
  intros E s r s1 Hl.
  destruct (INWXFacts.logout_state E s r s1 Hl) as [Hs _].
  split; [exact Hs|]. now apply INWXFacts.logout_without_session.
Qed.

Lemma logout_twice_witness :
  logout (Sample.world Sample.registrar_lost_at_logout)
    (mkState (VStr "s-1") [])
  = (Raise Sample.connect_error, mkState VNone [EvPost logout_request])
  /\ logout (Sample.world Sample.registrar_lost_at_logout)
       (mkState VNone [EvPost logout_request])
     = (Ok tt, mkState VNone [EvPost logout_request]).
Proof.
  split; [reflexivity|].
  exact (proj2 (logout_twice (Sample.world Sample.registrar_lost_at_logout)
                  (mkState (VStr "s-1") []) _ _ eq_refl)).
Defined.

(** X13. When the login at the entry of [async with INWXService()]
    raises, the scope raises the same exception: the body does not
    run, whatever it is, and no logout is sent. *)
Theorem with_service_login_fails :
  forall (E : env) (s : state) (e : exn) (s1 : state),
    login E (fresh s) = (Raise e, s1) ->
    trace s1 = trace s ++ [EvPost (login_request E)]
    /\ forall (A : Type) (body : M A),
         with_service E body s = (Raise e, s1).
Proof.
  intros E s e s1 Hl. split.
  - pose proof (INWXFacts.login_state E (fresh s)) as Ht.
    now rewrite Hl in Ht.
  - intros A body. now apply INWXFacts.with_service_not_entered.
Qed.

Lemma with_service_login_fails_witness :
  login (Sample.world Sample.unreachable) (fresh Sample.start)
  = (Raise Sample.connect_error,
     mkState VNone [EvPost (login_request (Sample.world Sample.unreachable))])
  /\ with_service (Sample.world Sample.unreachable)
       (check_domain (Sample.world Sample.unreachable) "free.de")
       Sample.start
     = (Raise Sample.connect_error,
        mkState VNone
          [EvPost (login_request (Sample.world Sample.unreachable))]).
Proof.
  split; [reflexivity|].
  exact (proj2 (with_service_login_fails (Sample.world Sample.unreachable)
                  Sample.start _ _ eq_refl) _ _).
Defined.

Lemma check_domains_batch_results_witness :
  Value.truthy (session_id (mkState (VStr "s-1") [])) = true
  /\ exists res,
       fst (check_domains_batch (Sample.world Sample.registrar)
              ["free.de"; "taken.de"] (mkState (VStr "s-1") []))
       = Ok res
       /\ List.length res = 2.
Proof.
  split; [reflexivity|].
  destruct (check_domains_batch_results (Sample.world Sample.registrar)
              ["free.de"; "taken.de"] [] (mkState (VStr "s-1") []) eq_refl)
    as (res & s' & Hloop & _ & Hall).
  exists res. unfold check_domains_batch. rewrite Hloop.
  split; [reflexivity|].
  apply Forall2_length in Hall. now rewrite <- Hall.
Defined.

(* ================================================================== *)
(** * Further properties of the handlers of [app/api/domains.py] *)
(* ================================================================== *)

Module LabelFacts.

Lemma split_chars_cons (s : list ascii) :
  exists h r, Str.split_chars s = h :: r.
Proof.
  induction s as [|c t (h & r & IH)]; cbn [Str.split_chars];
    [now exists [], []|].
  destruct (Ascii.eqb Str.dot c); [now exists [], (Str.split_chars t)|].
  rewrite IH. now exists (c :: h), r.
Qed.

Lemma split_chars_none (s : list ascii) :
  Str.rsplit_chars s = None -> Str.split_chars s = [s].
Proof.
  induction s as [|c t IH]; cbn [Str.split_chars Str.rsplit_chars];
    [reflexivity|].
  destruct (Str.rsplit_chars t) as [[a b]|]; [discriminate|].
  destruct (Ascii.eqb Str.dot c); [discriminate|].
  intros _. now rewrite IH.
Qed.

Lemma split_chars_some (s a b : list ascii) :
  Str.rsplit_chars s = Some (a, b) ->
  exists h r, Str.split_chars s = h :: r ++ [b].
Proof.
  revert a b.
  induction s as [|c t IH]; cbn [Str.split_chars Str.rsplit_chars];
    intros a b; [discriminate|].
  destruct (Str.rsplit_chars t) as [[a' b']|] eqn:Ht.
  - intros [= <- <-]. destruct (IH _ _ eq_refl) as (h & r & Hs).
    rewrite Hs. destruct (Ascii.eqb Str.dot c).
    + exists [], (h :: r). reflexivity.
    + exists (c :: h), r. reflexivity.
  - destruct (Ascii.eqb Str.dot c); [|discriminate].
    intros [= <- <-]. rewrite (split_chars_none t Ht).
    exists [], []. reflexivity.
Qed.

Lemma last_label_dot (domain : string) (a b : list ascii) :
  Str.rsplit_chars (chars domain) = Some (a, b) ->
  Str.last_label domain = text b.
Proof.
  intros H. unfold Str.last_label.
  destruct (split_chars_some _ _ _ H) as (h & r & ->).
  now rewrite app_comm_cons, last_last.
Qed.

Lemma last_label_no_dot (domain : string) :
  Str.rsplit_chars (chars domain) = None ->
  Str.last_label domain = domain.
Proof.
  intros H. unfold Str.last_label.
  rewrite (split_chars_none _ H). simpl. apply text_chars.
Qed.

End LabelFacts.

(** X15. The check handler takes the TLD of a domain as
    [domain.split(".")[-1]], the registration as the second part of
    [domain.rsplit(".", 1)].  Both read the text after the last dot:
    the label of the check handler is the last part of the split of
    the registration, which is the whole domain when it has no dot. *)
Theorem last_label_rsplit :
  forall domain : string,
    Str.last_label domain = last (Str.rsplit_dot domain) domain
    /\ (Str.contains_dot domain = false <-> Str.rsplit_dot domain = [domain])
    /\ Str.contains_dot (Str.last_label domain) = false.
Proof.
  intros domain.
  destruct (Str.contains_dot domain) eqn:Hdot.
  - destruct (HandlerFacts.rsplit_dot_two domain Hdot)
      as (w & t & Hsplit & Heq & Hno).
    assert (Hl : Str.last_label domain = t).
    { unfold Str.rsplit_dot in Hsplit.
      destruct (Str.rsplit_chars (chars domain)) as [[a b]|] eqn:Hr;
        [|discriminate].
      injection Hsplit as <- <-. now apply LabelFacts.last_label_dot with a. }
    rewrite Hsplit, Hl. simpl. split; [reflexivity|]. split; [|exact Hno].
    split; discriminate.
  - pose proof (HandlerFacts.rsplit_dot_one domain Hdot) as Hsplit.
    assert (Hl : Str.last_label domain = domain).
    { unfold Str.rsplit_dot in Hsplit.
      destruct (Str.rsplit_chars (chars domain)) as [[a b]|] eqn:Hr;
        [discriminate|].
      now apply LabelFacts.last_label_no_dot. }
    rewrite Hsplit, Hl. simpl. split; [reflexivity|]. split; [|exact Hdot].
    split; reflexivity.
Qed.

Module CheckFacts.

Import RegisterFacts.

Lemma check_events_inserts (domains : list string) :
  filter is_insert (check_events domains) = [].
Proof. induction domains as [|d ds IH]; [reflexivity|exact IH]. Qed.

Section Facts.

Variable E : env.

(** One turn with a session at hand: the two events, the session
    kept. *)
Lemma check_domains_item_state (domain : string) (s : state) :
  Value.truthy (session_id s) = true ->
  snd (check_domains_item E domain s)
  = mkState (session_id s) (trace s ++ check_events [domain]).
Proof.
  intros Hs. unfold check_domains_item, try_except, check_domains_try.
  unfold bind at 1.
  rewrite (INWXFacts.check_domain_ready E domain s s) by (left; auto).
  pose proof (INWXFacts.check_domain_try_state E domain s) as Hst.
  assert (Hrun : exists r,
             match check_domain_try E domain s with
             | (Ok r, s2) => (Ok r, s2)
             | (Raise e, s2) =>
                 (Ok (error_result domain (VStr (str_exn e))), s2)
             end = (Ok r, posted s (check_request domain))).
  { destruct (check_domain_try E domain s) as [[r|e] s2]; simpl in Hst;
      subst s2; eauto. }
  destruct Hrun as [r ->].
  unfold get_tld_by_name. monad.
  rewrite <- app_assoc. simpl.
  destruct (select_tld E _ (Str.last_label domain)) as [rows|e];
    [|reflexivity]. simpl.
  destruct (Value.get r "avail" (VBool false)) as [a|e]; [|reflexivity].
  simpl.
  destruct (Value.get r "error" VNone) as [err|e]; [|reflexivity]. simpl.
  destruct (Pydantic.new_DomainCheckResult E domain a _ err); reflexivity.
Qed.

Lemma check_domains_loop_state (domains : list string) :
  forall (acc : list DomainCheckResult.t) (s : state),
    Value.truthy (session_id s) = true ->
    snd (check_domains_loop E domains acc s)
    = mkState (session_id s) (trace s ++ check_events domains).
Proof.
  induction domains as [|d ds IH]; intros acc s Hs.
  - simpl. rewrite app_nil_r. now destruct s.
  - cbn [check_domains_loop]. unfold bind.
    pose proof (check_domains_item_state d s Hs) as Hitem.
    destruct (HandlerFacts.check_domains_item_total E d s)
      as (r & s1 & Hrun & _).
    rewrite Hrun in *. simpl in Hitem. subst s1.
    rewrite IH by exact Hs. simpl. now rewrite <- app_assoc.
Qed.

End Facts.

End CheckFacts.

(** X16. What a result of [check_domains] is made of.  When the query
    for the TLD raises, the result is the failure with the text of
    that exception, whatever the registrar said.  Otherwise the price
    is the one of the TLD table, or none when the table has no row for
    the TLD, never the one of the registrar; the availability is the
    registrar's, and an error record of the registrar gives an
    unavailable result with the registrar's message. *)
Theorem check_domains_item_content :
  forall (E : env) (domain : string) (s s1 : state) (inwx_result : value),
    check_domain E domain s = (Ok inwx_result, s1) ->
    (forall e,
        select_tld E (trace s1) (Str.last_label domain) = Raise e ->
        check_domains_item E domain s
        = (Ok (failed_check domain e),
           selected s1 "domains_tld" "tld" (Str.last_label domain)))
    /\ (forall rows,
          select_tld E (trace s1) (Str.last_label domain) = Ok rows ->
          (forall avail price,
              inwx_result = check_result domain avail price ->
              check_domains_item E domain s
              = (Ok (DomainCheckResult.mk domain avail
                       (option_map TldRow.vk_eur (first_row rows)) None),
                 selected s1 "domains_tld" "tld" (Str.last_label domain)))
          /\ (forall err fehler,
                inwx_result = error_result domain err ->
                Pydantic.as_optional_str err = Some fehler ->
                check_domains_item E domain s
                = (Ok (DomainCheckResult.mk domain false
                         (option_map TldRow.vk_eur (first_row rows)) fehler),
                   selected s1 "domains_tld" "tld"
                     (Str.last_label domain)))).
Proof.
  intros E domain s s1 r Hc.
  assert (Hitem :
            check_domains_item E domain s
            = match select_tld E (trace s1) (Str.last_label domain) with
              | Raise e =>
                  (Ok (failed_check domain e),
                   selected s1 "domains_tld" "tld" (Str.last_label domain))
              | Ok rows =>
                  try_except
                    (avail <- lift (Value.get r "avail" (VBool false)) ;;
                     err <- lift (Value.get r "error" VNone) ;;
                     lift (Pydantic.new_DomainCheckResult E domain avail
                             (option_map TldRow.vk_eur (first_row rows))
                             err))
                    (fun e => ret (failed_check domain e))
                    (selected s1 "domains_tld" "tld" (Str.last_label domain))
              end).
  { unfold check_domains_item, try_except, check_domains_try.
    unfold bind at 1. rewrite Hc. cbn beta iota zeta.
    unfold bind at 1, get_tld_by_name.
    unfold bind at 1 2 3, get_trace, emit, lift. simpl.
    destruct (select_tld E (trace s1) (Str.last_label domain));
      reflexivity. }
  rewrite Hitem. clear Hitem. split.
  - intros e ->. reflexivity.
  - intros rows ->. split.
    + intros avail price ->. reflexivity.
    + intros err fehler -> Hf.
      unfold try_except, bind, lift, ret, Pydantic.new_DomainCheckResult.
      simpl. rewrite Hf. reflexivity.
Qed.

Lemma check_domains_item_content_witness :
  check_domain (Sample.world Sample.registrar) "free.com"
    (mkState (VStr "s-1") [])
  = (Ok (error_result "free.com" (VStr "Object does not exist")),
     mkState (VStr "s-1") [EvPost (check_request "free.com")])
  /\ check_domains_item (Sample.world Sample.registrar) "free.com"
       (mkState (VStr "s-1") [])
     = (Ok (DomainCheckResult.mk "free.com" false None
              (Some "Object does not exist")),
        mkState (VStr "s-1")
          [EvPost (check_request "free.com");
           EvSelect "domains_tld" "tld" "com"]).
Proof.
  split; [reflexivity|].
  exact (proj2 (proj2 (check_domains_item_content
                         (Sample.world Sample.registrar) "free.com"
                         (mkState (VStr "s-1") []) _ _ eq_refl)
                  [] eq_refl)
           (VStr "Object does not exist") _ eq_refl eq_refl).
Defined.

(** X17. The requests of [check_domains].  When the login returns a
    session id, the handler sends the login, then for every domain, in
    the order of the request, one check to the registrar followed by
    one query for the TLD of that domain, then the logout, and nothing
    else: it inserts nothing, and it ends without a session. *)
Theorem check_domains_trace :
  forall (E : env) (domains : list string) (s : state)
         (sid : value) (s1 : state),
    login E (fresh s) = (Ok sid, s1) ->
    Value.truthy sid = true ->
    trace (snd (check_domains E domains s))
    = trace s ++ [EvPost (login_request E)] ++ check_events domains
        ++ [EvPost logout_request]
    /\ inserts (trace (snd (check_domains E domains s))) = inserts (trace s)
    /\ Value.truthy (session_id (snd (check_domains E domains s))) = false.
Proof.
  intros E domains s sid s1 Hl Hsid.
  assert (Hs1 : session_id s1 = sid /\
                trace s1 = trace s ++ [EvPost (login_request E)]).
  { pose proof (INWXFacts.login_state E (fresh s)) as Ht.
    rewrite Hl in Ht. simpl in Ht. split; [|exact Ht].
    revert Hl. unfold login, bind, lift, ret, raise, set_session_id.
    destruct (_call_api E "account.login" _ (fresh s)) as [[result|e] s'];
      [|discriminate]. simpl.
    destruct (Value.get result "code" VNone) as [code|e]; [|discriminate].
    simpl. destruct (negb (Value.eq_int code 1000 1000)).
    - destruct (Value.get result "msg" VNone); discriminate.
    - destruct (Value.get result "resData" (VDict [])) as [rd|e];
        [|discriminate]. simpl.
      destruct (Value.get rd "sessid" VNone); [|discriminate].
      simpl. now intros [= <- <-]. }
  destruct Hs1 as [Hsess Htr].
  assert (Ht1 : Value.truthy (session_id s1) = true) by now rewrite Hsess.
  unfold check_domains.
  rewrite (INWXFacts.with_service_entered E _ s sid s1 Hl).
  pose proof (CheckFacts.check_domains_loop_state E domains [] s1 Ht1)
    as Hloop.
  destruct (check_domains_loop E domains [] s1) as [r s2].
  simpl in Hloop. subst s2.
  rewrite INWXFacts.logout_with_session by exact Ht1.
  assert (Hfinal : forall r' : outcome (list DomainCheckResult.t),
             trace (snd (r', mkState VNone
                           ((trace s1 ++ check_events domains)
                              ++ [EvPost logout_request])))
             = trace s ++ [EvPost (login_request E)] ++ check_events domains
                 ++ [EvPost logout_request]).
  { intros r'. simpl. rewrite Htr, <- !app_assoc. reflexivity. }
  assert (Hins : inserts (trace s ++ [EvPost (login_request E)]
                            ++ check_events domains
                            ++ [EvPost logout_request])
                 = inserts (trace s)).
  { unfold inserts. rewrite !filter_app. simpl.
    rewrite CheckFacts.check_events_inserts. simpl. now rewrite app_nil_r. }
  simpl.
  destruct (fst (_call_api E "account.logout" VNone _)) as [x|e];
    rewrite (Hfinal _); auto.
Qed.

Lemma check_domains_trace_witness :
  Value.truthy (VStr "s-1") = true
  /\ trace (snd (check_domains (Sample.world Sample.registrar)
                   ["free.de"; "www.taken.com"] Sample.start))
     = [EvPost (login_request (Sample.world Sample.registrar));
        EvPost (check_request "free.de");
        EvSelect "domains_tld" "tld" "de";
        EvPost (check_request "www.taken.com");
        EvSelect "domains_tld" "tld" "com";
        EvPost logout_request].
Proof.
  split; [reflexivity|].
  exact (proj1 (check_domains_trace (Sample.world Sample.registrar)
                  ["free.de"; "www.taken.com"] Sample.start _ _
                  eq_refl eq_refl)).
Defined.

(** X18. The answer of a registration that passes the three checks and
    whose session opens and closes.  The fake registration of the POC
    always reports success, so the record sent to the data store has
    the status "registered".  The first row the data store returns for
    the insert is validated as a [DomainRegistrierung]: when it
    passes, the answer has [success = True], no error text, and
    carries the validated model; when it does not, the exception of
    the validation is raised, the record being inserted already.  When
    the data store returns no row the handler raises an IndexError,
    and an exception of the insert is raised as it is.  In every case
    the registrar session is closed before the insert. *)
Theorem register_domain_response :
  forall (E : env) (kunden_id domain : string) (s : state)
         (k : KundeRow.t) (ks : list KundeRow.t)
         (wunschdomain tld : string)
         (t : TldRow.t) (ts : list TldRow.t)
         (sid : value) (s1 s2 : state),
    select_kunden E (trace s) kunden_id = Ok (k :: ks) ->
    Str.rsplit_dot domain = [wunschdomain; tld] ->
    select_tld E (trace s ++ [EvSelect "kunden" "id" kunden_id]) tld
    = Ok (t :: ts) ->
    login E
      (fresh (mkState (session_id s)
                (trace s ++ [EvSelect "kunden" "id" kunden_id;
                             EvSelect "domains_tld" "tld" tld])))
    = (Ok sid, s1) ->
    logout E s1 = (Ok tt, s2) ->
    exists inwx_result,
      (forall s', INWXService.register_domain domain (VDict []) s'
                  = (Ok inwx_result, s'))
      /\ let row :=
           RegistrierungData.mk (uuid4 E (trace s2)) kunden_id wunschdomain
             tld domain (TldRow.vk_eur t) "registered"
             (VDict [("domain", VStr domain)]) inwx_result in
         snd (DomainsApi.register_domain E kunden_id domain s)
         = mkState (session_id s2) (trace s2 ++ [EvInsert row])
         /\ Value.truthy (session_id s2) = false
         /\ (forall stored rest model,
               insert_registrierung E (trace s2) row = Ok (stored :: rest) ->
               as_domain_registrierung E stored = Ok model ->
               fst (DomainsApi.register_domain E kunden_id domain s)
               = Ok (DomainRegisterResponse.mk true (Some model) None))
         /\ (forall stored rest e,
               insert_registrierung E (trace s2) row = Ok (stored :: rest) ->
               as_domain_registrierung E stored = Raise e ->
               fst (DomainsApi.register_domain E kunden_id domain s)
               = Raise e)
         /\ (insert_registrierung E (trace s2) row = Ok [] ->
             fst (DomainsApi.register_domain E kunden_id domain s)
             = Raise (Error "IndexError" "list index out of range"))
         /\ (forall e,
               insert_registrierung E (trace s2) row = Raise e ->
               fst (DomainsApi.register_domain E kunden_id domain s)
               = Raise e).
Proof.
  intros E kunden_id domain s k ks w tl t ts sid s1 s2 Hk Hsplit Ht Hlogin
         Hlogout.
  pose (r0 := VDict [("success", VBool true);
                     ("domain", VStr domain);
                     ("status", VStr "pending");
                     ("message",
                      VStr "POC: Fake domain registration successful");
                     ("registration_id", VStr ("fake-reg-" ++ domain))]).
  exists r0. split; [intros s'; reflexivity|]. cbv zeta.
  set (row := RegistrierungData.mk (uuid4 E (trace s2)) kunden_id w tl
                domain (TldRow.vk_eur t) "registered"
                (VDict [("domain", VStr domain)]) r0).
  assert (Hfull :
            DomainsApi.register_domain E kunden_id domain s
            = (match insert_registrierung E (trace s2) row with
               | Ok (stored :: _) =>
                   match as_domain_registrierung E stored with
                   | Ok model =>
                       Ok (DomainRegisterResponse.mk true (Some model) None)
                   | Raise e => Raise e
                   end
               | Ok [] => Raise (Error "IndexError" "list index out of range")
               | Raise e => Raise e
               end,
               mkState (session_id s2) (trace s2 ++ [EvInsert row]))).
  { unfold DomainsApi.register_domain.
    rewrite (RegisterFacts.register_domain_checked E _ kunden_id
               domain s k ks w tl t ts Hk Hsplit Ht).
    unfold RegisterFacts.checked.
    rewrite (INWXFacts.with_service_entered E _ _ sid s1 Hlogin).
    change (INWXService.register_domain domain (VDict []) s1)
      with (@Ok value r0, s1).
    cbn beta iota. rewrite Hlogout.
    unfold RegisterFacts.persist.
    change (registration_status r0) with (@Ok string "registered").
    cbn beta iota zeta.
    change (RegisterFacts.record E (trace s2) kunden_id w tl domain t
              "registered" r0) with row.
    destruct (insert_registrierung E (trace s2) row) as [[|stored rest]|e];
      reflexivity. }
  rewrite Hfull. clear Hfull. cbn [fst snd].
  split; [reflexivity|]. split; [|split; [|split; [|split]]].
  - exact (proj1 (INWXFacts.logout_state E s1 _ s2 Hlogout)).
  - intros stored rest model -> ->. reflexivity.
  - intros stored rest e -> ->. reflexivity.
  - intros ->. reflexivity.
  - intros e ->. reflexivity.
Qed.

Lemma register_domain_response_witness :
  (Sample.kunden [] Sample.kunde_uuid
   = Ok [KundeRow.mk Sample.kunde_uuid "Tischlerei Beck"]
   /\ Str.rsplit_dot "my.company.de" = ["my.company"; "de"]
   /\ Sample.tlds [EvSelect "kunden" "id" Sample.kunde_uuid] "de"
      = Ok [TldRow.mk "de" 9.5%float 100])
  /\ (exists model,
         fst (DomainsApi.register_domain (Sample.world Sample.registrar)
                Sample.kunde_uuid "my.company.de" Sample.start)
         = Ok (DomainRegisterResponse.mk true (Some model) None)
         /\ DomainRegistrierung.status model = "registered"
         /\ DomainRegistrierung.erstellt_am model = Sample.now)
  /\ fst (DomainsApi.register_domain Sample.world_bare
            Sample.kunde_uuid "my.company.de" Sample.start)
     = Raise Sample.missing.
Proof.
  split; [repeat split|]. split.
  - destruct (register_domain_response (Sample.world Sample.registrar)
                Sample.kunde_uuid "my.company.de" Sample.start
                _ _ _ _ _ _ _ _ _
                eq_refl eq_refl eq_refl eq_refl eq_refl)
      as (r & Hreg & _ & _ & Hok & _).
    specialize (Hreg Sample.start). vm_compute in Hreg. injection Hreg as <-.
    eexists. split; [exact (Hok _ [] _ eq_refl eq_refl)|].
    split; reflexivity.
  - destruct (register_domain_response Sample.world_bare
                Sample.kunde_uuid "my.company.de" Sample.start
                _ _ _ _ _ _ _ _ _
                eq_refl eq_refl eq_refl eq_refl eq_refl)
      as (r & Hreg & _ & _ & _ & Hbad & _).
    specialize (Hreg Sample.start). vm_compute in Hreg. injection Hreg as <-.
    exact (Hbad _ [] _ eq_refl eq_refl).
Defined.

(** X19. Exceptions of the data store during the checks of a
    registration are not caught: a failing customer query is raised
    after that one query, a failing TLD query after the two queries,
    and in both cases nothing was sent to the registrar and nothing
    was inserted. *)
Theorem register_domain_store_errors :
  forall (E : env) (kunden_id domain : string) (s : state),
    (forall e,
        select_kunden E (trace s) kunden_id = Raise e ->
        DomainsApi.register_domain E kunden_id domain s
        = (Raise e, selected s "kunden" "id" kunden_id))
    /\ (forall k ks wunschdomain tld e,
          select_kunden E (trace s) kunden_id = Ok (k :: ks) ->
          Str.rsplit_dot domain = [wunschdomain; tld] ->
          select_tld E (trace s ++ [EvSelect "kunden" "id" kunden_id]) tld
          = Raise e ->
          DomainsApi.register_domain E kunden_id domain s
          = (Raise e,
             mkState (session_id s)
               (trace s ++ [EvSelect "kunden" "id" kunden_id;
                            EvSelect "domains_tld" "tld" tld]))).
Proof.
  intros E kunden_id domain s. split.
  - intros e He.
    unfold DomainsApi.register_domain, DomainsApi.register_domain_with,
      bind at 1.
    unfold get_kunde_by_id, bind, get_trace, emit, lift. simpl.
    rewrite He. reflexivity.
  - intros k ks w tl e Hk Hsplit He.
    assert (Hdot : Str.contains_dot domain = true).
    { destruct (Str.contains_dot domain) eqn:Hd; [reflexivity|].
      rewrite (HandlerFacts.rsplit_dot_one domain Hd) in Hsplit.
      discriminate. }
    unfold DomainsApi.register_domain, DomainsApi.register_domain_with.
    unfold bind at 1.
    rewrite (RegisterFacts.get_kunde_by_id_run E kunden_id s _ Hk).
    simpl. rewrite Hdot, Hsplit. simpl. unfold bind at 1 2. simpl.
    unfold bind at 1, get_tld_by_name.
    unfold bind, get_trace, emit, lift. simpl. rewrite He.
    simpl. now rewrite <- app_assoc.
Qed.

Lemma register_domain_store_errors_witness :
  DomainsApi.register_domain Sample.world_no_kunden "k-1" "shop.de"
    Sample.start
  = (Raise Sample.boom, mkState VNone [EvSelect "kunden" "id" "k-1"]).
Proof.
  exact (proj1 (register_domain_store_errors Sample.world_no_kunden
                  "k-1" "shop.de" Sample.start)
           Sample.boom eq_refl).
Defined.

(* ================================================================== *)
(** * The fake authentication, the wizard and the health check *)
(* ================================================================== *)

(** X20. The tenant of a token.  [get_saas_dienst_from_token] returns
    one of the two keys "handelshelfer" and "handwerker24", the second
    one for the token "token_handwerker24_dev_456" only: every other
    text, known or not, is mapped to "handelshelfer". *)
Theorem get_saas_dienst_from_token_values :
  forall token : string,
    (SecurityFake.get_saas_dienst_from_token token = "handwerker24"
     <-> token = "token_handwerker24_dev_456")
    /\ (SecurityFake.get_saas_dienst_from_token token = "handelshelfer"
        <-> token <> "token_handwerker24_dev_456").
Proof.
  intros token.
  unfold SecurityFake.get_saas_dienst_from_token, SecurityFake.token_mapping,
    SecurityFake.dict_get.
  destruct (String.eqb_spec "token_handelshelfer_dev_123" token) as [<-|H1];
    [|destruct (String.eqb_spec "token_handwerker24_dev_456" token)
        as [<-|H2];
      [|destruct (String.eqb_spec "dev-token-123" token) as [<-|H3]]];
    split; split; intros H;
    solve [reflexivity | discriminate | congruence].
Qed.

Module WizardFacts.

Lemma verify_fake_token_ok settings tok :
  tok = Settings.fake_auth_token settings ->
  SecurityFake.verify_fake_token settings tok = Ok tok.
Proof.
  intros ->. unfold SecurityFake.verify_fake_token.
  now rewrite String.eqb_refl.
Qed.

Lemma verify_fake_token_refused settings tok :
  tok <> Settings.fake_auth_token settings ->
  SecurityFake.verify_fake_token settings tok
  = Raise (HTTPException 401 "Invalid authentication token").
Proof.
  intros H. unfold SecurityFake.verify_fake_token.
  destruct (String.eqb_spec tok (Settings.fake_auth_token settings));
    [contradiction|reflexivity].
Qed.

(** The answers of [wizard_start] come from the rows of the tenant. *)
Lemma wizard_start_ok store guid token resp :
  Wizard.wizard_start store guid token = Ok resp <->
  exists d ds sid k ks,
    select_saas_dienste store (SecurityFake.get_saas_dienst_from_token token)
    = Ok (d :: ds)
    /\ uuid_text store (SaaSDienstRow.id d) = Ok sid
    /\ select_kunden_of_dienst store guid sid = Ok (k :: ks)
    /\ as_kunde store k = Ok (WizardStartResponse.kunde resp)
    /\ as_saas_dienst store d = Ok (WizardStartResponse.saas_dienst resp).
Proof.
  unfold Wizard.wizard_start, Wizard.get_saas_dienst_by_key,
    Wizard.get_kunde_by_id_and_dienst, first_row.
  split.
  - destruct (select_saas_dienste store _) as [[|d ds]|e] eqn:Hd; simpl;
      try discriminate.
    destruct (uuid_text store (SaaSDienstRow.id d)) as [sid|e] eqn:Hu;
      try discriminate.
    destruct (select_kunden_of_dienst store guid sid) as [[|k ks]|e] eqn:Hk;
      simpl; try discriminate.
    destruct (as_kunde store k) as [k'|e] eqn:Hvk; try discriminate.
    destruct (as_saas_dienst store d) as [d'|e] eqn:Hvd; try discriminate.
    intros [= <-]. exists d, ds, sid, k, ks. auto 10.
  - intros (d & ds & sid & k & ks & Hd & Hu & Hk & Hvk & Hvd).
    rewrite Hd. cbn [hd_error]. rewrite Hu, Hk. cbn [hd_error].
    rewrite Hvk, Hvd. now destruct resp.
Qed.

End WizardFacts.

(** X21. The route of the wizard behind the fake authentication.  A
    token other than the configured one is answered with 401, whatever
    the data store holds; the configured one runs the wizard.  As one
    token only is accepted, the tenant of every answer is the tenant
    of the configured token: its row is the first one the data store
    has for that key. *)
Theorem wizard_start_route_auth :
  forall (store : tenant_store) (settings : Settings.t)
         (x_client_token kundenguid : string),
    (x_client_token <> Settings.fake_auth_token settings ->
     Wizard.wizard_start_route store settings x_client_token kundenguid
     = Raise (HTTPException 401 "Invalid authentication token"))
    /\ (x_client_token = Settings.fake_auth_token settings ->
        Wizard.wizard_start_route store settings x_client_token kundenguid
        = Wizard.wizard_start store kundenguid
            (Settings.fake_auth_token settings))
    /\ (forall resp,
          Wizard.wizard_start_route store settings x_client_token kundenguid
          = Ok resp ->
          exists d ds,
            select_saas_dienste store
              (SecurityFake.get_saas_dienst_from_token
                 (Settings.fake_auth_token settings))
            = Ok (d :: ds)
            /\ as_saas_dienst store d
               = Ok (WizardStartResponse.saas_dienst resp)).
Proof.
  intros store settings tok guid. unfold Wizard.wizard_start_route.
  split; [|split].
  - intros H. now rewrite WizardFacts.verify_fake_token_refused.
  - intros H. rewrite WizardFacts.verify_fake_token_ok by exact H.
    now rewrite H.
  - intros resp.
    destruct (String.eqb_spec tok (Settings.fake_auth_token settings))
      as [->|Hne].
    + rewrite WizardFacts.verify_fake_token_ok by reflexivity.
      intros H. apply WizardFacts.wizard_start_ok in H
        as (d & ds & sid & k & ks & Hd & _ & _ & _ & Hv).
      now exists d, ds.
    + rewrite WizardFacts.verify_fake_token_refused by exact Hne.
      discriminate.
Qed.

Lemma wizard_start_route_auth_witness :
  ("token_handwerker24_dev_456" <> Settings.fake_auth_token Sample.settings
   /\ Wizard.wizard_start_route Sample.tenants Sample.settings
        "token_handwerker24_dev_456" "k-1"
      = Raise (HTTPException 401 "Invalid authentication token"))
  /\ Wizard.wizard_start_route Sample.tenants Sample.settings
       "dev-token-123" "k-1"
     = Ok (WizardStartResponse.mk (KundeRow.mk "k-1" "Schreinerei Muller")
             Sample.handelshelfer).
Proof.
  assert (Hne : "token_handwerker24_dev_456"
                <> Settings.fake_auth_token Sample.settings)
    by discriminate.
  split; [split; [exact Hne|]|].
  - exact (proj1 (wizard_start_route_auth Sample.tenants Sample.settings
                    "token_handwerker24_dev_456" "k-1") Hne).
  - rewrite (proj1 (proj2 (wizard_start_route_auth Sample.tenants
                             Sample.settings "dev-token-123" "k-1"))
               eq_refl).
    reflexivity.
Defined.

(** X22. The answers of [wizard_start].  A tenant key without a row
    is answered with 500, before the customer is looked at; a customer
    without a row under the id of the tenant is answered with 404.  An
    answer is given exactly when the tenant has a row, its id is a
    UUID, the customer has a row under that id, and both rows pass
    their schemas: the customer of an answer was selected with the id
    of the tenant of the answer. *)
Theorem wizard_start_outcomes :
  forall (store : tenant_store) (kundenguid token : string),
    (select_saas_dienste store (SecurityFake.get_saas_dienst_from_token token)
     = Ok [] ->
     Wizard.wizard_start store kundenguid token
     = Raise (HTTPException 500
                ("SaaS dienst '"
                   ++ SecurityFake.get_saas_dienst_from_token token
                   ++ "' not found in database")))
    /\ (forall d ds sid,
          select_saas_dienste store
            (SecurityFake.get_saas_dienst_from_token token)
          = Ok (d :: ds) ->
          uuid_text store (SaaSDienstRow.id d) = Ok sid ->
          select_kunden_of_dienst store kundenguid sid = Ok [] ->
          Wizard.wizard_start store kundenguid token
          = Raise (HTTPException 404
                     ("Customer " ++ kundenguid ++ " not found for dienst "
                        ++ SecurityFake.get_saas_dienst_from_token token)))
    /\ (forall resp,
          Wizard.wizard_start store kundenguid token = Ok resp <->
          exists d ds sid k ks,
            select_saas_dienste store
              (SecurityFake.get_saas_dienst_from_token token)
            = Ok (d :: ds)
            /\ uuid_text store (SaaSDienstRow.id d) = Ok sid
            /\ select_kunden_of_dienst store kundenguid sid = Ok (k :: ks)
            /\ as_kunde store k = Ok (WizardStartResponse.kunde resp)
            /\ as_saas_dienst store d
               = Ok (WizardStartResponse.saas_dienst resp)).
Proof.
  intros store guid token. split; [|split].
  - intros H. unfold Wizard.wizard_start, Wizard.get_saas_dienst_by_key.
    now rewrite H.
  - intros d ds sid Hd Hu Hk.
    unfold Wizard.wizard_start, Wizard.get_saas_dienst_by_key,
      Wizard.get_kunde_by_id_and_dienst.
    rewrite Hd. cbn [first_row hd_error]. now rewrite Hu, Hk.
  - intros resp. apply WizardFacts.wizard_start_ok.
Qed.

Lemma wizard_start_outcomes_witness :
  (select_saas_dienste Sample.tenants
     (SecurityFake.get_saas_dienst_from_token "dev-token-123")
   = Ok [Sample.handelshelfer]
   /\ select_kunden_of_dienst Sample.tenants "k-2"
        "11111111-1111-1111-1111-111111111111" = Ok [])
  /\ Wizard.wizard_start Sample.tenants "k-2" "dev-token-123"
     = Raise (HTTPException 404
                "Customer k-2 not found for dienst handelshelfer").
Proof.
  split; [split; reflexivity|].
  exact (proj1 (proj2 (wizard_start_outcomes Sample.tenants "k-2"
                         "dev-token-123"))
           _ _ _ eq_refl eq_refl eq_refl).
Defined.

Module SubstringFacts.

Lemma substring_at (pre t post : string) :
  substring (String.length pre) (String.length t) (pre ++ t ++ post) = t.
Proof.
  induction pre as [|c pre IH]; [|exact IH].
  cbn [String.length String.append].
  induction t as [|c t IH]; cbn [String.length String.append substring].
  - now destruct post.
  - now rewrite IH.
Qed.

Lemma substring_prefix (n : nat) : forall s : string,
  String.length (substring 0 n s) = n ->
  exists post, s = (substring 0 n s ++ post)%string.
Proof.
  induction n as [|n IH]; intros s H.
  - exists s. now destruct s.
  - destruct s as [|c s]; [discriminate H|].
    cbn [substring String.length] in *. injection H as H.
    destruct (IH s H) as (post & Hs).
    exists post. cbn [String.append]. now rewrite <- Hs.
Qed.

Lemma substring_split (m n : nat) : forall s : string,
  String.length (substring m n s) = n ->
  exists pre post, s = (pre ++ substring m n s ++ post)%string.
Proof.
  induction m as [|m IHm]; intros s H.
  - destruct (substring_prefix n s H) as (post & Hs). now exists "", post.
  - destruct s as [|c s].
    + exists "", "". reflexivity.
    + cbn [substring] in *. destruct (IHm s H) as (pre & post & Hs).
      exists (String c pre), post. cbn [String.append]. now rewrite <- Hs.
Qed.

(** [needle in s] of Python is the occurrence of [needle] in [s]. *)
Lemma is_substring_occurs (needle s : string) :
  needle <> "" ->
  Value.is_substring needle s = true <-> occurs_in needle s.
Proof.
  intros Hne. unfold Value.is_substring, occurs_in.
  destruct (String.index 0 needle s) as [m|] eqn:Hi.
  - split; [intros _|reflexivity].
    apply String.index_correct1 in Hi.
    destruct (substring_split m (String.length needle) s) as (pre & post & Hs).
    + now rewrite Hi.
    + exists pre, post. now rewrite Hi in Hs.
  - split; [discriminate|]. intros (pre & post & ->). exfalso.
    apply (String.index_correct3 0 (String.length pre) _ _ Hi Hne);
      [lia|apply substring_at].
Qed.

End SubstringFacts.

(** X23. The health check.  It reports the status "ok" and the version
    "0.1.0-poc" whatever the settings are, and the environment
    "production" exactly when the text "api.inwx.com" occurs in the
    configured URL of the registrar, "development" otherwise: the URL
    of the test system, "api.ote.inwx.com", does not count. *)
Theorem health_check_environment :
  forall settings : Settings.t,
    HealthResponse.status (health_check settings) = "ok"
    /\ HealthResponse.version (health_check settings) = "0.1.0-poc"
    /\ (HealthResponse.environment (health_check settings) = "production"
        <-> occurs_in "api.inwx.com" (Settings.inwx_api_url settings))
    /\ (HealthResponse.environment (health_check settings) = "development"
        <-> ~ occurs_in "api.inwx.com" (Settings.inwx_api_url settings)).
Proof.
  intros settings. split; [reflexivity|]. split; [reflexivity|].
  pose proof (SubstringFacts.is_substring_occurs "api.inwx.com"
                (Settings.inwx_api_url settings)) as Hs.
  assert (Hne : "api.inwx.com" <> "") by discriminate.
  specialize (Hs Hne).
  unfold health_check, Settings.is_production. cbn [HealthResponse.environment].
  destruct (Value.is_substring "api.inwx.com" (Settings.inwx_api_url settings)).
  - split; split.
    + intros _. now apply Hs.
    + reflexivity.
    + discriminate.
    + intros H. exfalso. apply H. now apply Hs.
  - split; split.
    + discriminate.
    + intros H. apply Hs in H. discriminate.
    + intros _ Ho. apply Hs in Ho. discriminate.
    + reflexivity.
Qed.

Example health_check_test_system :
  health_check Sample.settings
  = HealthResponse.mk "ok" "0.1.0-poc" "development".
Proof. reflexivity. Qed.
